(** * SVM: a shallow embedding of the virtual machine, its scheduler and
      the front end of its assembler.

    Sources embedded here:
    - [svm.h]      (enumerations, [svm_task_t], [svm_t], [svm_code_t]);
    - [svm.c]      ([svm_cycle] and its helpers, the task list);
    - [svm_util.c] ([svm_arg_to_reg], [svm_to_int32]);
    - [svm_asm.c]  ([svm_asm_next_token]).

    Conventions.
    - A C integer is a [Z]; conversions between [int32_t] and [uint32_t]
      and the wrap-around of unsigned arithmetic are written out with
      [wrap_u32] and [wrap_i32].  Signed results that do not fit are
      reduced to 32 bits, as the compilers of the supported hosts do.
    - [register_t], the type of the loop variables of PUSH and POP, is the
      signed machine word of [sys/types.h] on a 64-bit host: expressions
      that mix it with [sp] do not wrap, and [r >= from] can become false
      at [from = 0].
    - A heap buffer is the [list] of its slots.  Reading or writing a slot
      that the list does not have is undefined behaviour in C and is the
      outcome [Undefined] here.  The register file of a task is the list
      of its 16 registers.
    - A pointer to a task is an [option positive]: [None] is [NULL], and
      the tasks live in a finite map from addresses to [svm_task_t]. *)

From Stdlib Require Import ZArith Lia Ascii String.
From stdpp Require Import base option list gmap.

Open Scope Z_scope.

(** ** Machine integers *)

Definition wrap_u32 (z : Z) : Z := z mod 2 ^ 32.
Definition wrap_i32 (z : Z) : Z := (z + 2 ^ 31) mod 2 ^ 32 - 2 ^ 31.
Arguments wrap_u32 : simpl never.
Arguments wrap_i32 : simpl never.

(** ** Indexing a buffer with a C integer *)

Definition zlookup {A : Type} (l : list A) (i : Z) : option A :=
  if i <? 0 then None else l !! Z.to_nat i.

Definition zinsert {A : Type} (i : Z) (x : A) (l : list A) : option (list A) :=
  if (0 <=? i) && (i <? Z.of_nat (length l))
  then Some (<[Z.to_nat i := x]> l) else None.

(** ** Enumerations of [svm.h] *)

Definition R_MAX : Z := 16.

Inductive svm_opcode_t :=
  | OP_NOP | OP_END | OP_MOV | OP_PUSH | OP_POP
  | OP_ADD | OP_SUB | OP_MUL | OP_DIV
  | OP_AND | OP_OR | OP_XOR | OP_SHL | OP_SHR
  | OP_CMP | OP_CLF | OP_JMP | OP_INV | OP_RET | OP_SYS.

(** The enumerators in declaration order: the value of an opcode is its
    position.  [OP_MAX] is the length of the table. *)
Definition opcode_table : list svm_opcode_t :=
  [ OP_NOP; OP_END; OP_MOV; OP_PUSH; OP_POP;
    OP_ADD; OP_SUB; OP_MUL; OP_DIV;
    OP_AND; OP_OR; OP_XOR; OP_SHL; OP_SHR;
    OP_CMP; OP_CLF; OP_JMP; OP_INV; OP_RET; OP_SYS ].

Definition OP_MAX : Z := 20.

(** The opcode a byte stands for; [None] is the [default:] label of a
    [switch] over [svm_opcode_t]. *)
Definition opcode_of_byte (b : Z) : option svm_opcode_t := zlookup opcode_table b.

Inductive svm_ext_t :=
  | EXT_NONE | EXT_EQ | EXT_NE | EXT_LT | EXT_LE | EXT_GT | EXT_GE | EXT_NZ | EXT_Z.

Definition ext_table : list svm_ext_t :=
  [ EXT_NONE; EXT_EQ; EXT_NE; EXT_LT; EXT_LE; EXT_GT; EXT_GE; EXT_NZ; EXT_Z ].

Definition EXT_MAX : Z := 9.

Definition ext_of_byte (b : Z) : option svm_ext_t := zlookup ext_table b.

(** [svm_arg_type_t]: the code compares these numerically, so they stay
    numbers. *)
Definition ARG_NONE : Z := 0.
Definition ARG_R0 : Z := 1.
Definition ARG_R15 : Z := 16.
Definition ARG_IMM : Z := 17.
Definition ARG_MAX : Z := 18.

Inductive svm_error_t :=
  | SVM_OK
  | SVM_ERR
  | SVM_ERR_NULL
  | SVM_ERR_BAD_ALLOC
  | SVM_ERR_NOT_RUNNING
  | SVM_ERR_CODE_OVERFLOW
  | SVM_ERR_ARG_NOT_REG
  | SVM_ERR_PUSH_ARG_BAD_ORDER
  | SVM_ERR_JMP_OVERFLOW
  | SVM_ERR_CALL_STK_OVERFLOW
  | SVM_ERR_CALL_STK_UNDERFLOW
  | SVM_ERR_STK_OVERFLOW
  | SVM_ERR_STK_UNDERFLOW
  | SVM_ERR_TASK_NOT_FOUND
  | SVM_ERR_TASK_SWITCH_BLOCKED
  | SVM_ERR_UNKNOWN_INSTRUCTION.

(** ** Structures of [svm.h] *)

(** [svm_instruction_t]: four 8-bit fields packed in one word.  A field
    holds any byte, also one that is no enumerator. *)
Record svm_instruction_t := {
  op : Z;
  ext : Z;
  arg1 : Z;
  arg2 : Z
}.

(** The cast of [&buffer[pc]] to a pointer to [svm_instruction_t]: byte 0
    is the least significant byte of the word. *)
Definition svm_instruction_of_int32 (w : Z) : svm_instruction_t :=
  {| op := Z.land w 255;
     ext := Z.land (Z.shiftr w 8) 255;
     arg1 := Z.land (Z.shiftr w 16) 255;
     arg2 := Z.land (Z.shiftr w 24) 255 |}.

(** [svm_pack_instruction] followed by [svm_instruction_to_int32]. *)
Definition svm_instruction_to_int32 (i : svm_instruction_t) : Z :=
  wrap_i32 (Z.lor (Z.land (op i) 255)
           (Z.lor (Z.shiftl (Z.land (ext i) 255) 8)
           (Z.lor (Z.shiftl (Z.land (arg1 i) 255) 16)
                  (Z.shiftl (Z.land (arg2 i) 255) 24)))).

Record svm_i32_buffer_t := {
  buffer : list Z;
  size : Z
}.

Record svm_code_t := {
  code_buffer : list Z;
  code_size : Z;
  meta_call_stack_size : Z;
  meta_stack_size : Z
}.

Record svm_flags_t := {
  flag_eq : bool;
  flag_ne : bool;
  flag_lt : bool;
  flag_le : bool;
  flag_gt : bool;
  flag_ge : bool;
  flag_nz : bool;
  flag_z : bool
}.

Definition task_ptr : Type := option positive.

Record svm_task_t := {
  next : task_ptr;
  flags : svm_flags_t;
  pc : Z;
  rpc : Z;
  sp : Z;
  registers : list Z;
  stack : svm_i32_buffer_t;
  call_stack : svm_i32_buffer_t
}.

(** Field updates of a task. *)
Definition set_next (n : task_ptr) (t : svm_task_t) : svm_task_t :=
  {| next := n; flags := flags t; pc := pc t; rpc := rpc t; sp := sp t;
     registers := registers t; stack := stack t; call_stack := call_stack t |}.
Definition set_flags (f : svm_flags_t) (t : svm_task_t) : svm_task_t :=
  {| next := next t; flags := f; pc := pc t; rpc := rpc t; sp := sp t;
     registers := registers t; stack := stack t; call_stack := call_stack t |}.
Definition set_pc (p : Z) (t : svm_task_t) : svm_task_t :=
  {| next := next t; flags := flags t; pc := p; rpc := rpc t; sp := sp t;
     registers := registers t; stack := stack t; call_stack := call_stack t |}.
Definition set_rpc (p : Z) (t : svm_task_t) : svm_task_t :=
  {| next := next t; flags := flags t; pc := pc t; rpc := p; sp := sp t;
     registers := registers t; stack := stack t; call_stack := call_stack t |}.
Definition set_sp (p : Z) (t : svm_task_t) : svm_task_t :=
  {| next := next t; flags := flags t; pc := pc t; rpc := rpc t; sp := p;
     registers := registers t; stack := stack t; call_stack := call_stack t |}.
Definition set_registers (r : list Z) (t : svm_task_t) : svm_task_t :=
  {| next := next t; flags := flags t; pc := pc t; rpc := rpc t; sp := sp t;
     registers := r; stack := stack t; call_stack := call_stack t |}.
Definition set_stack_buffer (b : list Z) (t : svm_task_t) : svm_task_t :=
  {| next := next t; flags := flags t; pc := pc t; rpc := rpc t; sp := sp t;
     registers := registers t;
     stack := {| buffer := b; size := size (stack t) |};
     call_stack := call_stack t |}.
Definition set_call_stack_buffer (b : list Z) (t : svm_task_t) : svm_task_t :=
  {| next := next t; flags := flags t; pc := pc t; rpc := rpc t; sp := sp t;
     registers := registers t; stack := stack t;
     call_stack := {| buffer := b; size := size (call_stack t) |} |}.

(** [svm_t], for a host context of type [Ctx].  [code] is the image that
    [svm_load] installed; [tasks] is the memory the task pointers point
    into. *)
Record svm_t {Ctx : Type} := {
  running : bool;
  task_switch_block : bool;
  task_current : task_ptr;
  task_head : task_ptr;
  tasks : gmap positive svm_task_t;
  code : svm_code_t;
  ctx : Ctx
}.
Arguments svm_t : clear implicits.

Section Updates.
Context {Ctx : Type}.
Implicit Type vm : svm_t Ctx.

Definition set_running (b : bool) vm : svm_t Ctx :=
  {| running := b; task_switch_block := task_switch_block vm;
     task_current := task_current vm; task_head := task_head vm;
     tasks := tasks vm; code := code vm; ctx := ctx vm |}.
Definition set_task_switch_block (b : bool) vm : svm_t Ctx :=
  {| running := running vm; task_switch_block := b;
     task_current := task_current vm; task_head := task_head vm;
     tasks := tasks vm; code := code vm; ctx := ctx vm |}.
Definition set_task_current (p : task_ptr) vm : svm_t Ctx :=
  {| running := running vm; task_switch_block := task_switch_block vm;
     task_current := p; task_head := task_head vm;
     tasks := tasks vm; code := code vm; ctx := ctx vm |}.
Definition set_task_head (p : task_ptr) vm : svm_t Ctx :=
  {| running := running vm; task_switch_block := task_switch_block vm;
     task_current := task_current vm; task_head := p;
     tasks := tasks vm; code := code vm; ctx := ctx vm |}.
Definition set_tasks (m : gmap positive svm_task_t) vm : svm_t Ctx :=
  {| running := running vm; task_switch_block := task_switch_block vm;
     task_current := task_current vm; task_head := task_head vm;
     tasks := m; code := code vm; ctx := ctx vm |}.
Definition set_ctx (c : Ctx) vm : svm_t Ctx :=
  {| running := running vm; task_switch_block := task_switch_block vm;
     task_current := task_current vm; task_head := task_head vm;
     tasks := tasks vm; code := code vm; ctx := c |}.
End Updates.

(** ** Outcomes of a VM operation

    An operation of the VM either runs into undefined behaviour
    ([Undefined]: a slot outside its buffer, a [NULL] or dangling task
    pointer), runs on with a value ([Ret]), or leaves the enclosing
    function early with an error code ([Err]).  [Ret] and [Err] carry the
    VM as the operation left it. *)

Inductive result {Ctx A : Type} :=
  | Undefined
  | Ret (a : A) (vm : svm_t Ctx)
  | Err (e : svm_error_t) (vm : svm_t Ctx).
Arguments result : clear implicits.

Definition M (Ctx A : Type) : Type := svm_t Ctx -> result Ctx A.

#[global] Instance M_ret {Ctx} : MRet (M Ctx) :=
  fun A a vm => Ret a vm.

#[global] Instance M_bind {Ctx} : MBind (M Ctx) :=
  fun A B k m vm =>
    match m vm with
    | Undefined => Undefined
    | Ret a vm' => k a vm'
    | Err e vm' => Err e vm'
    end.

Section Primitives.
Context {Ctx : Type}.
Implicit Type vm : svm_t Ctx.

(** [return e;] out of the enclosing function. *)
Definition fail {A} (e : svm_error_t) : M Ctx A := fun vm => Err e vm.

Definition undefined {A} : M Ctx A := fun _ => Undefined.

(** A value that exists only when the access is in bounds. *)
Definition defined {A} (o : option A) : M Ctx A :=
  match o with Some a => mret a | None => undefined end.

Definition modify (f : svm_t Ctx -> svm_t Ctx) : M Ctx unit :=
  fun vm => Ret tt (f vm).

Definition get_code : M Ctx svm_code_t := fun vm => Ret (code vm) vm.

Definition get_ctx : M Ctx Ctx := fun vm => Ret (ctx vm) vm.

(** [*vm->task.current], read and written. *)
Definition get_task : M Ctx svm_task_t :=
  fun vm =>
    match task_current vm with
    | Some a => match tasks vm !! a with
                | Some t => Ret t vm
                | None => Undefined
                end
    | None => Undefined
    end.

Definition put_task (t : svm_task_t) : M Ctx unit :=
  fun vm =>
    match task_current vm with
    | Some a => match tasks vm !! a with
                | Some _ => Ret tt (set_tasks (<[a := t]> (tasks vm)) vm)
                | None => Undefined
                end
    | None => Undefined
    end.

Definition modify_task (f : svm_task_t -> svm_task_t) : M Ctx unit :=
  t ← get_task; put_task (f t).

(** [vm->task.current->registers[reg]], read and written. *)
Definition read_register (reg : Z) : M Ctx Z :=
  t ← get_task; defined (zlookup (registers t) reg).

Definition write_register (reg : Z) (v : Z) : M Ctx unit :=
  t ← get_task;
  r ← defined (zinsert reg v (registers t));
  put_task (set_registers r t).

(** [stack.buffer[sp++] = v] *)
Definition stack_push (v : Z) : M Ctx unit :=
  t ← get_task;
  b ← defined (zinsert (sp t) v (buffer (stack t)));
  put_task (set_sp (wrap_u32 (sp t + 1)) (set_stack_buffer b t)).

(** [stack.buffer[--sp]] *)
Definition stack_pop : M Ctx Z :=
  t ← get_task;
  let sp' := wrap_u32 (sp t - 1) in
  put_task (set_sp sp' t);;
  defined (zlookup (buffer (stack t)) sp').

End Primitives.

(** ** [svm_util.c]: [svm_arg_to_reg] *)

(** [ARG_R0 .. ARG_R15] map to [R0 .. R15]; every other value takes the
    [default:] label and yields [R_MAX]. *)
Definition svm_arg_to_reg (arg : Z) : Z :=
  if (ARG_R0 <=? arg) && (arg <=? ARG_R15) then arg - 1 else R_MAX.

(** ** Arithmetic of the two-operand instructions

    [int32_t] arithmetic.  Addition, subtraction, multiplication and the
    left shift keep the low 32 bits; a division by zero, the division
    of [INT32_MIN] by [-1] and a shift count outside [0, 32) have no
    defined result ([None]). *)

Definition INT32_MIN : Z := - 2 ^ 31.

Definition alu_mov (a b : Z) : option Z := Some b.
Definition alu_add (a b : Z) : option Z := Some (wrap_i32 (a + b)).
Definition alu_sub (a b : Z) : option Z := Some (wrap_i32 (a - b)).
Definition alu_mul (a b : Z) : option Z := Some (wrap_i32 (a * b)).
Definition alu_div (a b : Z) : option Z :=
  if b =? 0 then None
  else if (a =? INT32_MIN) && (b =? -1) then None
  else Some (Z.quot a b).
Definition alu_and (a b : Z) : option Z := Some (Z.land a b).
Definition alu_or (a b : Z) : option Z := Some (Z.lor a b).
Definition alu_xor (a b : Z) : option Z := Some (Z.lxor a b).
Definition alu_shl (a b : Z) : option Z :=
  if (0 <=? b) && (b <? 32) then Some (wrap_i32 (Z.shiftl a b)) else None.
Definition alu_shr (a b : Z) : option Z :=
  if (0 <=? b) && (b <? 32) then Some (Z.shiftr a b) else None.

(** ** [svm.c]: the private helpers *)

Definition svm_is_arg_register (type : Z) : bool :=
  (ARG_NONE <? type) && (type <? ARG_IMM).

(** The six [if]s of [OP_CMP]: a flag is set when its comparison holds
    and is left alone otherwise. *)
Definition cmp_flags (a b : Z) (f : svm_flags_t) : svm_flags_t :=
  {| flag_eq := if a =? b then true else flag_eq f;
     flag_ne := if negb (a =? b) then true else flag_ne f;
     flag_lt := if a <? b then true else flag_lt f;
     flag_le := if a <=? b then true else flag_le f;
     flag_gt := if a >? b then true else flag_gt f;
     flag_ge := if a >=? b then true else flag_ge f;
     flag_nz := flag_nz f;
     flag_z := flag_z f |}.

(** The flag that a suffix names, read and written. *)
Definition flag_of_ext (e : svm_ext_t) (f : svm_flags_t) : bool :=
  match e with
  | EXT_NONE => true
  | EXT_EQ => flag_eq f
  | EXT_NE => flag_ne f
  | EXT_LT => flag_lt f
  | EXT_LE => flag_le f
  | EXT_GT => flag_gt f
  | EXT_GE => flag_ge f
  | EXT_NZ => flag_nz f
  | EXT_Z => flag_z f
  end.

Definition set_flag_of_ext (e : svm_ext_t) (value : bool) (f : svm_flags_t) : svm_flags_t :=
  match e with
  | EXT_NONE =>
      {| flag_eq := value; flag_ne := value; flag_lt := value; flag_le := value;
         flag_gt := value; flag_ge := value; flag_nz := value; flag_z := value |}
  | EXT_EQ =>
      {| flag_eq := value; flag_ne := flag_ne f; flag_lt := flag_lt f; flag_le := flag_le f;
         flag_gt := flag_gt f; flag_ge := flag_ge f; flag_nz := flag_nz f; flag_z := flag_z f |}
  | EXT_NE =>
      {| flag_eq := flag_eq f; flag_ne := value; flag_lt := flag_lt f; flag_le := flag_le f;
         flag_gt := flag_gt f; flag_ge := flag_ge f; flag_nz := flag_nz f; flag_z := flag_z f |}
  | EXT_LT =>
      {| flag_eq := flag_eq f; flag_ne := flag_ne f; flag_lt := value; flag_le := flag_le f;
         flag_gt := flag_gt f; flag_ge := flag_ge f; flag_nz := flag_nz f; flag_z := flag_z f |}
  | EXT_LE =>
      {| flag_eq := flag_eq f; flag_ne := flag_ne f; flag_lt := flag_lt f; flag_le := value;
         flag_gt := flag_gt f; flag_ge := flag_ge f; flag_nz := flag_nz f; flag_z := flag_z f |}
  | EXT_GT =>
      {| flag_eq := flag_eq f; flag_ne := flag_ne f; flag_lt := flag_lt f; flag_le := flag_le f;
         flag_gt := value; flag_ge := flag_ge f; flag_nz := flag_nz f; flag_z := flag_z f |}
  | EXT_GE =>
      {| flag_eq := flag_eq f; flag_ne := flag_ne f; flag_lt := flag_lt f; flag_le := flag_le f;
         flag_gt := flag_gt f; flag_ge := value; flag_nz := flag_nz f; flag_z := flag_z f |}
  | EXT_NZ =>
      {| flag_eq := flag_eq f; flag_ne := flag_ne f; flag_lt := flag_lt f; flag_le := flag_le f;
         flag_gt := flag_gt f; flag_ge := flag_ge f; flag_nz := value; flag_z := flag_z f |}
  | EXT_Z =>
      {| flag_eq := flag_eq f; flag_ne := flag_ne f; flag_lt := flag_lt f; flag_le := flag_le f;
         flag_gt := flag_gt f; flag_ge := flag_ge f; flag_nz := flag_nz f; flag_z := value |}
  end.

Section Cycle.
Context {Ctx : Type}.

(** The host's syscall port.  [svm.c] defines a weak [svm_sys_handler]
    that does nothing; the host may link its own.  It receives the host
    context and the register file and returns both as it left them. *)
Variable svm_sys_handler : Ctx -> list Z -> Z -> Ctx * list Z.

Definition svm_get_arg_value (type : Z) : M Ctx Z :=
  if svm_is_arg_register type then
    let reg := svm_arg_to_reg type in
    if reg <? R_MAX then read_register reg else mret 0
  else if type =? ARG_IMM then
    (* vm->code->buffer[vm->task.current->pc++] *)
    c ← get_code;
    t ← get_task;
    put_task (set_pc (wrap_u32 (pc t + 1)) t);;
    defined (zlookup (code_buffer c) (pc t))
  else
    mret 0.

Definition svm_check_condition (ext : Z) : M Ctx bool :=
  match ext_of_byte ext with
  | Some EXT_NONE => mret true
  | Some e => t ← get_task; mret (flag_of_ext e (flags t))
  | None => mret false
  end.

Definition svm_check_value_set_nz_z_flags (value : Z) : M Ctx unit :=
  if negb (value =? 0)
  then modify_task (fun t => set_flags (set_flag_of_ext EXT_NZ true (flags t)) t)
  else modify_task (fun t => set_flags (set_flag_of_ext EXT_Z true (flags t)) t).

(** Returns 0 when a flag was written and 1 at the [default:] label. *)
Definition svm_set_flag_by_ext (ext : Z) (value : bool) : M Ctx Z :=
  match ext_of_byte ext with
  | Some e =>
      modify_task (fun t => set_flags (set_flag_of_ext e value (flags t)) t);;
      mret 0
  | None => mret 1
  end.

(** The body shared by [OP_MOV], [OP_ADD], ..., [OP_SHR]: the source has
    one copy per opcode, differing in the assignment operator only. *)
Definition svm_cycle_binop (f : Z -> Z -> option Z) (i : svm_instruction_t) : M Ctx unit :=
  a2 ← svm_get_arg_value (arg2 i);
  c ← svm_check_condition (ext i);
  if negb c then mret tt
  else
    let reg := svm_arg_to_reg (arg1 i) in
    if negb (reg <? R_MAX) then fail SVM_ERR_ARG_NOT_REG
    else
      old ← read_register reg;
      v ← defined (f old a2);
      write_register reg v;;
      v' ← read_register reg;
      svm_check_value_set_nz_z_flags v'.

(** [for (r = from; r <= to; r++) stack.buffer[sp++] = registers[r];]
    with [n] iterations left. *)
Fixpoint svm_push_range (n : nat) (r : Z) : M Ctx unit :=
  match n with
  | O => mret tt
  | S n' =>
      v ← read_register r;
      stack_push v;;
      svm_push_range n' (r + 1)
  end.

(** [for (r = to; r >= from; r--) registers[r] = stack.buffer[--sp];]
    with [n] iterations left. *)
Fixpoint svm_pop_range (n : nat) (r : Z) : M Ctx unit :=
  match n with
  | O => mret tt
  | S n' =>
      v ← stack_pop;
      write_register r v;;
      svm_pop_range n' (r - 1)
  end.

Definition svm_cycle_push (i : svm_instruction_t) : M Ctx unit :=
  a1 ← (if arg1 i =? ARG_IMM then svm_get_arg_value (arg1 i) else mret 0);
  c ← svm_check_condition (ext i);
  if negb c then mret tt
  else if arg1 i =? ARG_IMM then
    t ← get_task;
    if wrap_u32 (sp t + 1) >=? size (stack t) then fail SVM_ERR_STK_OVERFLOW
    else stack_push a1
  else if arg2 i =? ARG_NONE then
    let reg := svm_arg_to_reg (arg1 i) in
    t ← get_task;
    if wrap_u32 (sp t + 1) >=? size (stack t) then fail SVM_ERR_STK_OVERFLOW
    else
      v ← read_register reg;
      stack_push v
  else
    let from := svm_arg_to_reg (arg1 i) in
    let to := svm_arg_to_reg (arg2 i) in
    if negb (from <? to) then fail SVM_ERR_PUSH_ARG_BAD_ORDER
    else
      t ← get_task;
      if sp t + to - from >=? size (stack t) then fail SVM_ERR_STK_OVERFLOW
      else svm_push_range (Z.to_nat (to - from + 1)) from.

Definition svm_cycle_pop (i : svm_instruction_t) : M Ctx unit :=
  c ← svm_check_condition (ext i);
  if negb c then mret tt
  else if svm_is_arg_register (arg1 i) && (arg2 i =? ARG_NONE) then
    t ← get_task;
    if sp t <? 1 then fail SVM_ERR_STK_UNDERFLOW
    else
      let reg := svm_arg_to_reg (arg1 i) in
      (* registers[reg] = stack.buffer[sp--] *)
      v ← defined (zlookup (buffer (stack t)) (sp t));
      write_register reg v;;
      modify_task (fun t => set_sp (wrap_u32 (sp t - 1)) t)
  else if negb (svm_is_arg_register (arg1 i)) then fail SVM_ERR_ARG_NOT_REG
  else if negb (svm_is_arg_register (arg2 i)) then fail SVM_ERR_ARG_NOT_REG
  else
    let from := svm_arg_to_reg (arg1 i) in
    let to := svm_arg_to_reg (arg2 i) in
    if negb (from <? to) then fail SVM_ERR_PUSH_ARG_BAD_ORDER
    else
      t ← get_task;
      if sp t <? to - from then fail SVM_ERR_STK_UNDERFLOW
      else svm_pop_range (Z.to_nat (to - from + 1)) to.

Definition svm_cycle_cmp (i : svm_instruction_t) : M Ctx unit :=
  a1 ← svm_get_arg_value (arg1 i);
  a2 ← svm_get_arg_value (arg2 i);
  modify_task (fun t => set_flags (cmp_flags a1 a2 (flags t)) t).

Definition svm_cycle_jmp (i : svm_instruction_t) : M Ctx unit :=
  a1 ← svm_get_arg_value (arg1 i);
  c ← svm_check_condition (ext i);
  if negb c then mret tt
  else
    cd ← get_code;
    (* the comparison converts the int32_t operand to uint32_t *)
    if wrap_u32 a1 <? code_size cd
    then modify_task (set_pc (wrap_u32 a1))
    else fail SVM_ERR_JMP_OVERFLOW.

Definition svm_cycle_inv (i : svm_instruction_t) : M Ctx unit :=
  a1 ← svm_get_arg_value (arg1 i);
  c ← svm_check_condition (ext i);
  if negb c then mret tt
  else
    t ← get_task;
    if wrap_u32 (rpc t + 1) >=? size (call_stack t) then fail SVM_ERR_CALL_STK_OVERFLOW
    else
      (* call_stack.buffer[rpc++] = pc *)
      b ← defined (zinsert (rpc t) (wrap_i32 (pc t)) (buffer (call_stack t)));
      put_task (set_rpc (wrap_u32 (rpc t + 1)) (set_call_stack_buffer b t));;
      cd ← get_code;
      if wrap_u32 a1 <? code_size cd
      then modify_task (set_pc (wrap_u32 a1))
      else fail SVM_ERR_JMP_OVERFLOW.

Definition svm_cycle_ret : M Ctx unit :=
  t ← get_task;
  if rpc t >? 0 then
    (* pc = call_stack.buffer[--rpc] *)
    let rpc' := wrap_u32 (rpc t - 1) in
    v ← defined (zlookup (buffer (call_stack t)) rpc');
    put_task (set_pc (wrap_u32 v) (set_rpc rpc' t))
  else fail SVM_ERR_CALL_STK_UNDERFLOW.

Definition svm_cycle_sys (i : svm_instruction_t) : M Ctx unit :=
  num ← svm_get_arg_value (arg1 i);
  t ← get_task;
  c ← get_ctx;
  let out := svm_sys_handler c (registers t) num in
  modify (set_ctx (fst out));;
  put_task (set_registers (snd out) t).

(** The [switch (instruction->op)] of [svm_cycle]. *)
Definition svm_cycle_switch (i : svm_instruction_t) : M Ctx unit :=
  match opcode_of_byte (op i) with
  | Some OP_NOP => mret tt
  | Some OP_END => modify (set_running false)
  | Some OP_MOV => svm_cycle_binop alu_mov i
  | Some OP_PUSH => svm_cycle_push i
  | Some OP_POP => svm_cycle_pop i
  | Some OP_ADD => svm_cycle_binop alu_add i
  | Some OP_SUB => svm_cycle_binop alu_sub i
  | Some OP_MUL => svm_cycle_binop alu_mul i
  | Some OP_DIV => svm_cycle_binop alu_div i
  | Some OP_AND => svm_cycle_binop alu_and i
  | Some OP_OR => svm_cycle_binop alu_or i
  | Some OP_XOR => svm_cycle_binop alu_xor i
  | Some OP_SHL => svm_cycle_binop alu_shl i
  | Some OP_SHR => svm_cycle_binop alu_shr i
  | Some OP_CMP => svm_cycle_cmp i
  | Some OP_CLF => svm_set_flag_by_ext (ext i) false;; mret tt
  | Some OP_JMP => svm_cycle_jmp i
  | Some OP_INV => svm_cycle_inv i
  | Some OP_RET => svm_cycle_ret
  | Some OP_SYS => svm_cycle_sys i
  | None => fail SVM_ERR_UNKNOWN_INSTRUCTION
  end.

(** [svm_cycle]: [Ret tt vm'] is the return of [SVM_OK], [Err e vm'] the
    return of the error [e]. *)
Definition svm_cycle : M Ctx unit :=
  fun vm =>
    if negb (running vm) then Err SVM_ERR_NOT_RUNNING vm
    else
      (t ← get_task;
       cd ← get_code;
       if pc t >=? code_size cd then
         modify (set_running false);;
         fail SVM_ERR_CODE_OVERFLOW
       else
         (* the instruction is the word at pc, and pc moves past it *)
         w ← defined (zlookup (code_buffer cd) (pc t));
         put_task (set_pc (wrap_u32 (pc t + 1)) t);;
         svm_cycle_switch (svm_instruction_of_int32 w)) vm.

(** [n] cycles in a row, as long as they return [SVM_OK]. *)
Fixpoint svm_run (n : nat) : M Ctx unit :=
  match n with
  | O => mret tt
  | S n' => svm_cycle;; svm_run n'
  end.

End Cycle.

(** ** [svm.c]: the task list *)

Section Scheduler.
Context {Ctx : Type}.

(** [*p] for a task pointer [p]. *)
Definition deref (p : task_ptr) : M Ctx svm_task_t :=
  fun vm =>
    match p with
    | Some a => match tasks vm !! a with
                | Some t => Ret t vm
                | None => Undefined
                end
    | None => Undefined
    end.

Definition store (a : positive) (t : svm_task_t) : M Ctx unit :=
  fun vm =>
    match tasks vm !! a with
    | Some _ => Ret tt (set_tasks (<[a := t]> (tasks vm)) vm)
    | None => Undefined
    end.

(** [svm_free] of the two stacks.  A released buffer has no slot left
    that may be accessed: it becomes the empty list. *)
Definition svm_task_deinit (task : task_ptr) : M Ctx unit :=
  match task with
  | None => fail SVM_ERR_NULL
  | Some a =>
      t ← deref task;
      store a (set_stack_buffer [] (set_call_stack_buffer [] t))
  end.

(** The loop of [svm_task_remove]:
    [while (tmp) { if (task->next == task) break; tmp = tmp->next; }].
    It ends with the value of [tmp], may touch a dangling pointer, or
    may still be running when the fuel is used up. *)
Inductive scan_result :=
  | ScanOutOfFuel
  | ScanUndefined
  | ScanEnd (tmp : task_ptr).

Fixpoint svm_task_remove_scan (fuel : nat) (m : gmap positive svm_task_t)
    (task : positive) (tmp : task_ptr) : scan_result :=
  match tmp with
  | None => ScanEnd None
  | Some q =>
      match m !! task with
      | None => ScanUndefined
      | Some tk =>
          if decide (next tk = Some task) then ScanEnd tmp
          else
            match fuel with
            | O => ScanOutOfFuel
            | S fuel' =>
                match m !! q with
                | None => ScanUndefined
                | Some tq => svm_task_remove_scan fuel' m task (next tq)
                end
            end
      end
  end.

(** [svm_task_remove]; [None] when the fuel did not suffice. *)
Definition svm_task_remove (fuel : nat) (task : task_ptr) (vm : svm_t Ctx)
    : option (result Ctx unit) :=
  match task with
  | None => Some (Err SVM_ERR_NULL vm)
  | Some a =>
      if decide (task_head vm = task) then
        Some ((h ← deref (task_head vm);
               modify (set_task_head (next h));;
               svm_task_deinit task) vm)
      else
        match deref (task_head vm) vm with
        | Ret h _ =>
            match svm_task_remove_scan fuel (tasks vm) a (next h) with
            | ScanOutOfFuel => None
            | ScanUndefined => Some Undefined
            | ScanEnd None => Some (Err SVM_ERR_TASK_NOT_FOUND vm)
            | ScanEnd (Some q) =>
                Some ((tq ← deref (Some q);
                       t ← deref task;
                       store q (set_next (next t) tq);;
                       svm_task_deinit task) vm)
            end
        | _ => Some Undefined
        end
  end.

(** [svm_task_switch]: the cursor moves to the successor of the current
    task, and to the head after the last task or when it was [NULL]. *)
Definition svm_task_switch : M Ctx unit :=
  fun vm =>
    if task_switch_block vm then Err SVM_ERR_TASK_SWITCH_BLOCKED vm
    else
      match task_current vm with
      | None => Ret tt (set_task_current (task_head vm) vm)
      | Some _ =>
          (t ← deref (task_current vm);
           match next t with
           | Some n => modify (set_task_current (Some n))
           | None => modify (set_task_current (task_head vm))
           end) vm
      end.

Definition svm_task_block (block : bool) : M Ctx unit :=
  modify (set_task_switch_block block).

(** The tasks reachable from [p] along [next], in order, as long as the
    fuel lasts. *)
Fixpoint task_list (fuel : nat) (m : gmap positive svm_task_t) (p : task_ptr)
    : list positive :=
  match fuel, p with
  | S fuel', Some a =>
      match m !! a with
      | Some t => a :: task_list fuel' m (next t)
      | None => [a]
      end
  | _, _ => []
  end.

End Scheduler.

(** ** [svm_util.c]: [svm_to_int32] *)

Definition char_code (c : ascii) : Z := Z.of_N (N_of_ascii c).

(** [isupper] in the "C" locale. *)
Definition isupper (c : Z) : bool := (char_code "A" <=? c) && (c <=? char_code "Z").

(** The [for] loop over the characters from [index] on; [value] is the
    accumulator [*value].  The result is the returned [bool] and the
    final [*value]. *)
Fixpoint svm_to_int32_loop (base : Z) (s : string) (value : Z) : bool * Z :=
  match s with
  | EmptyString => (true, value)
  | String ch rest =>
      let c := char_code ch in
      if (char_code "0" <=? c) && (c <? char_code "9") then
        svm_to_int32_loop base rest (wrap_i32 (value * base + (c - char_code "0")))
      else if (char_code "a" <=? c) && (c <=? char_code "f") then
        svm_to_int32_loop base rest (wrap_i32 (value * base + (c - char_code "a")))
      else if (char_code "A" <=? c) && (c <=? char_code "F") then
        let digit := if isupper c then c - char_code "A" else 0 in
        svm_to_int32_loop base rest (wrap_i32 (value * base + digit))
      else (false, value)
  end.

(** [str] is the text before the terminating NUL. *)
Definition svm_to_int32 (str : string) : bool * Z :=
  match str with
  | String "0" (String "x" (String c rest)) => svm_to_int32_loop 16 (String c rest) 0
  | String "0" (String "b" (String c rest)) => svm_to_int32_loop 2 (String c rest) 0
  | _ => svm_to_int32_loop 10 str 0
  end.

(** For comparison with [svm_to_int32], the reading of a literal that the
    specification words describe (digits [0-9a-fA-F] with their usual
    values, each below the base): the value that the text denotes in the
    base, [None] when a character is no digit of the base.  It is not
    taken from the source. *)
Definition spec_digit_value (base : Z) (ch : ascii) : option Z :=
  let c := char_code ch in
  let d :=
    if (char_code "0" <=? c) && (c <=? char_code "9") then Some (c - char_code "0")
    else if (char_code "a" <=? c) && (c <=? char_code "f") then Some (c - char_code "a" + 10)
    else if (char_code "A" <=? c) && (c <=? char_code "F") then Some (c - char_code "A" + 10)
    else None in
  match d with
  | Some v => if v <? base then Some v else None
  | None => None
  end.

Fixpoint spec_literal_value (base : Z) (s : string) (acc : Z) : option Z :=
  match s with
  | EmptyString => Some acc
  | String ch rest =>
      match spec_digit_value base ch with
      | Some d => spec_literal_value base rest (acc * base + d)
      | None => None
      end
  end.

(** ** [svm_asm.c]: [svm_asm_next_token]

    The source text is a buffer of characters that ends with a NUL; a
    pointer into it is an index.  Reading at an index that the buffer
    does not have is undefined behaviour. *)

Definition NUL : ascii := "000"%char.
Definition LF : ascii := "010"%char.

(** The loop that advances [source] while the character [c] under it
    satisfies [c == ' ' || c == '\n'], on the rest [l] of the buffer from
    index [p] on. *)
Fixpoint skip_blank (l : list ascii) (p : nat) : option nat :=
  match l with
  | [] => None
  | c :: l' =>
      if Ascii.eqb c " " || Ascii.eqb c LF then skip_blank l' (S p) else Some p
  end.

(** The loop that advances [source] while the character [c] under it
    satisfies [c != '\n' || c != '\0']. *)
Fixpoint skip_comment (l : list ascii) (p : nat) : option nat :=
  match l with
  | [] => None
  | c :: l' =>
      if negb (Ascii.eqb c LF) || negb (Ascii.eqb c NUL) then skip_comment l' (S p)
      else Some p
  end.

(** The loop that advances [source] while the character [c] under it
    satisfies [c != ' ' && c != '\n' && c != '.' && c != '\0']. *)
Fixpoint skip_token (l : list ascii) (p : nat) : option nat :=
  match l with
  | [] => None
  | c :: l' =>
      if negb (Ascii.eqb c " ") && negb (Ascii.eqb c LF)
         && negb (Ascii.eqb c ".") && negb (Ascii.eqb c NUL)
      then skip_token l' (S p)
      else Some p
  end.

Inductive token_result :=
  | TokUndefined
  | TokNull
  | Tok (token : nat) (buf : list ascii) (source : nat).

Definition svm_asm_next_token (buf : list ascii) (source source_end : nat) : token_result :=
  if (source_end <=? source)%nat then TokNull
  else
    match skip_blank (drop source buf) source with
    | None => TokUndefined
    | Some p1 =>
        match buf !! p1 with
        | None => TokUndefined
        | Some c =>
            let after_comment :=
              if Ascii.eqb c "#" then skip_comment (drop p1 buf) p1 else Some p1 in
            match after_comment with
            | None => TokUndefined
            | Some token =>
                match skip_token (drop token buf) token with
                | None => TokUndefined
                | Some p3 =>
                    (* the separator becomes a NUL, and source moves past it *)
                    Tok token (<[p3 := NUL]> buf) (S p3)
                end
            end
        end
    end.

(** The first character at or after [p] that is neither a space nor a
    newline. *)
Definition first_nonblank (buf : list ascii) (source : nat) : option ascii :=
  match skip_blank (drop source buf) source with
  | Some p => buf !! p
  | None => None
  end.

(** The buffer that holds a source text: its characters and the NUL. *)
Definition source_buffer (s : string) : list ascii :=
  list_ascii_of_string s ++ [NUL].

(** ** Notions used by the statements *)

Section Notions.
Context {Ctx : Type}.
Implicit Type vm : svm_t Ctx.

(** [vm->task.current] points to the task [t] stored at [a]. *)
Definition cur vm (a : positive) (t : svm_task_t) : Prop :=
  task_current vm = Some a /\ tasks vm !! a = Some t.

(** The VM in which the task at [a] has become [t]. *)
Definition upd (a : positive) (t : svm_task_t) vm : svm_t Ctx :=
  set_tasks (<[a := t]> (tasks vm)) vm.

(** The value of a suffix byte on a flag set: what
    [svm_check_condition] returns. *)
Definition condition (ext : Z) (f : svm_flags_t) : bool :=
  match ext_of_byte ext with
  | Some e => flag_of_ext e f
  | None => false
  end.

(** The opcodes whose [case] tests [svm_check_condition] before acting,
    together with [OP_NOP], which has no effect, and [OP_CLF], which
    clears the flag the suffix names. *)
Definition predicated (o : svm_opcode_t) : bool :=
  match o with
  | OP_END | OP_CMP | OP_RET | OP_SYS => false
  | _ => true
  end.

(** The number of literal words that the [case] of an opcode fetches
    before it tests the condition. *)
Definition fetched_words (o : svm_opcode_t) (i : svm_instruction_t) : Z :=
  match o with
  | OP_MOV | OP_ADD | OP_SUB | OP_MUL | OP_DIV
  | OP_AND | OP_OR | OP_XOR | OP_SHL | OP_SHR =>
      if arg2 i =? ARG_IMM then 1 else 0
  | OP_PUSH | OP_JMP | OP_INV =>
      if arg1 i =? ARG_IMM then 1 else 0
  | _ => 0
  end.

(** The VM is running, its current task is [t] at [a], and the next
    cycle fetches the word [w] at [pc t]. *)
Definition fetches vm (a : positive) (t : svm_task_t) (w : Z) : Prop :=
  cur vm a t /\ running vm = true /\ pc t < code_size (code vm) /\
  zlookup (code_buffer (code vm)) (pc t) = Some w.

(** An operation that never leaves the enclosing function with an
    error. *)
Definition no_err {A} (m : M Ctx A) : Prop :=
  forall vm e vm', m vm <> Err e vm'.

(** A [uint32_t] field holds a value in range. *)
Definition uint32 (z : Z) : Prop := 0 <= z < 2 ^ 32.

End Notions.

(** ** Concrete machines for the examples *)

(** The weak [svm_sys_handler] of [svm.c]: it does nothing. *)
Definition weak_sys_handler (c : unit) (r : list Z) (num : Z) : unit * list Z := (c, r).

Definition no_flags : svm_flags_t :=
  {| flag_eq := false; flag_ne := false; flag_lt := false; flag_le := false;
     flag_gt := false; flag_ge := false; flag_nz := false; flag_z := false |}.

(** A task as [svm_task_init] leaves it for an image without stack
    sizes: [pc = 0], no flag set, both stacks empty.  The sizes are the
    defaults 32 and 8; [SVM_REALLOC_CHECK] is given them as byte counts,
    so the buffers have 8 and 2 slots of four bytes. *)
Definition fresh_task (regs : list Z) : svm_task_t :=
  {| next := None; flags := no_flags; pc := 0; rpc := 0; sp := 0;
     registers := regs;
     stack := {| buffer := replicate 8 0; size := 32 |};
     call_stack := {| buffer := replicate 2 0; size := 8 |} |}.

Definition code_of (words : list Z) : svm_code_t :=
  {| code_buffer := words; code_size := Z.of_nat (length words);
     meta_call_stack_size := 0; meta_stack_size := 0 |}.

(** A running VM with the single task [t] at address 1. *)
Definition vm_with (words : list Z) (t : svm_task_t) : svm_t unit :=
  {| running := true; task_switch_block := false;
     task_current := Some 1%positive; task_head := Some 1%positive;
     tasks := {[ 1%positive := t ]};
     code := code_of words; ctx := tt |}.

(** The values of the enumerators. *)
Definition opcode_value (o : svm_opcode_t) : Z :=
  match o with
  | OP_NOP => 0 | OP_END => 1 | OP_MOV => 2 | OP_PUSH => 3 | OP_POP => 4
  | OP_ADD => 5 | OP_SUB => 6 | OP_MUL => 7 | OP_DIV => 8
  | OP_AND => 9 | OP_OR => 10 | OP_XOR => 11 | OP_SHL => 12 | OP_SHR => 13
  | OP_CMP => 14 | OP_CLF => 15 | OP_JMP => 16 | OP_INV => 17
  | OP_RET => 18 | OP_SYS => 19
  end.

Definition ext_value (e : svm_ext_t) : Z :=
  match e with
  | EXT_NONE => 0 | EXT_EQ => 1 | EXT_NE => 2 | EXT_LT => 3 | EXT_LE => 4
  | EXT_GT => 5 | EXT_GE => 6 | EXT_NZ => 7 | EXT_Z => 8
  end.

(** The argument type of register [r]. *)
Definition ARG_R (r : Z) : Z := ARG_R0 + r.

(** An instruction word, as [svm_pack_instruction] and
    [svm_instruction_to_int32] build it. *)
Definition word (o : svm_opcode_t) (e : svm_ext_t) (a1 a2 : Z) : Z :=
  svm_instruction_to_int32
    {| op := opcode_value o; ext := ext_value e; arg1 := a1; arg2 := a2 |}.

(** The same with raw bytes, for words that the assembler never emits. *)
Definition raw_word (o e a1 a2 : Z) : Z :=
  svm_instruction_to_int32 {| op := o; ext := e; arg1 := a1; arg2 := a2 |}.

Definition zero_registers : list Z := replicate 16 0.

(** The task that a result leaves at address [a]. *)
Definition result_task {Ctx A} (r : result Ctx A) (a : positive) : option svm_task_t :=
  match r with
  | Undefined => None
  | Ret _ vm => tasks vm !! a
  | Err _ vm => tasks vm !! a
  end.

(** [mov.eq r0 99] on a fresh task: no flag is set. *)
Definition vm_mov_eq : svm_t unit :=
  vm_with [word OP_MOV EXT_EQ (ARG_R 0) ARG_IMM; 99] (fresh_task zero_registers).

(** [end.eq] on a fresh task. *)
Definition vm_end_eq : svm_t unit :=
  vm_with [word OP_END EXT_EQ ARG_NONE ARG_NONE] (fresh_task zero_registers).

(** [inv 3], [end], [ret.eq] at word 3; and its task after the cycle on
    the [inv]. *)
Definition vm_ret_eq : svm_t unit :=
  vm_with [word OP_INV EXT_NONE ARG_IMM ARG_NONE; 3;
           word OP_END EXT_NONE ARG_NONE ARG_NONE;
           word OP_RET EXT_EQ ARG_NONE ARG_NONE] (fresh_task zero_registers).
Definition task_called : svm_task_t :=
  {| next := None; flags := no_flags; pc := 3; rpc := 1; sp := 0;
     registers := zero_registers;
     stack := {| buffer := replicate 8 0; size := 32 |};
     call_stack := {| buffer := [2; 0]; size := 8 |} |}.

(** [mov.eq 5 r0]: the literal belongs to the first operand. *)
Definition vm_mov_imm_first : svm_t unit :=
  vm_with [word OP_MOV EXT_EQ ARG_IMM (ARG_R 0); 5] (fresh_task zero_registers).

(** [mov r0 5] with the suffix byte 9, and with the suffix NONE. *)
Definition vm_mov_ext9 : svm_t unit :=
  vm_with [raw_word 2 9 (ARG_R 0) ARG_IMM; 5] (fresh_task zero_registers).
Definition vm_mov_none : svm_t unit :=
  vm_with [word OP_MOV EXT_NONE (ARG_R 0) ARG_IMM; 5] (fresh_task zero_registers).

(** A word with the opcode byte 20. *)
Definition vm_op20 : svm_t unit :=
  vm_with [raw_word 20 0 0 0] (fresh_task zero_registers).

(** [cmp r0 7] with [r0 = 5]. *)
Definition task_r0_5 : svm_task_t := fresh_task (5 :: replicate 15 0).
Definition vm_cmp : svm_t unit :=
  vm_with [word OP_CMP EXT_NONE (ARG_R 0) ARG_IMM; 7] task_r0_5.

(** [cmp] without operands. *)
Definition vm_cmp_none : svm_t unit :=
  vm_with [word OP_CMP EXT_NONE ARG_NONE ARG_NONE] (fresh_task zero_registers).

(** [push r0 r2] and [pop r0 r2] with [r0 = 1], [r1 = 2], [r2 = 3]. *)
Definition task_r123 : svm_task_t := fresh_task ([1; 2; 3] ++ replicate 13 0).
Definition vm_push_pop : svm_t unit :=
  vm_with [word OP_PUSH EXT_NONE (ARG_R 0) (ARG_R 2);
           word OP_POP EXT_NONE (ARG_R 0) (ARG_R 2)] task_r123.

(** The task of [vm_push_pop] after the cycle on the PUSH. *)
Definition task_r123_pushed : svm_task_t :=
  {| next := None; flags := no_flags; pc := 1; rpc := 0; sp := 3;
     registers := [1; 2; 3] ++ replicate 13 0;
     stack := {| buffer := [1; 2; 3; 0; 0; 0; 0; 0]; size := 32 |};
     call_stack := {| buffer := [0; 0]; size := 8 |} |}.

(** [inv 100] in an image of two words. *)
Definition vm_inv : svm_t unit :=
  vm_with [word OP_INV EXT_NONE ARG_IMM ARG_NONE; 100] (fresh_task zero_registers).

(** [push 7], [push 9], [pop r1], [pop r0]. *)
Definition vm_pop : svm_t unit :=
  vm_with [word OP_PUSH EXT_NONE ARG_IMM ARG_NONE; 7;
           word OP_PUSH EXT_NONE ARG_IMM ARG_NONE; 9;
           word OP_POP EXT_NONE (ARG_R 1) ARG_NONE;
           word OP_POP EXT_NONE (ARG_R 0) ARG_NONE] (fresh_task zero_registers).

(** The task of [vm_pop] after three cycles and after four. *)
Definition task_pop_3 : svm_task_t :=
  {| next := None; flags := no_flags; pc := 5; rpc := 0; sp := 1;
     registers := zero_registers;
     stack := {| buffer := [7; 9; 0; 0; 0; 0; 0; 0]; size := 32 |};
     call_stack := {| buffer := [0; 0]; size := 8 |} |}.
Definition task_pop_4 : svm_task_t :=
  {| next := None; flags := no_flags; pc := 6; rpc := 0; sp := 0;
     registers := 9 :: replicate 15 0;
     stack := {| buffer := [7; 9; 0; 0; 0; 0; 0; 0]; size := 32 |};
     call_stack := {| buffer := [0; 0]; size := 8 |} |}.

(** Two tasks: the head at address 1, followed by the task at 2. *)
Definition vm_two_tasks : svm_t unit :=
  {| running := true; task_switch_block := false;
     task_current := Some 1%positive; task_head := Some 1%positive;
     tasks := {[ 1%positive := set_next (Some 2%positive) (fresh_task zero_registers);
                 2%positive := fresh_task zero_registers ]};
     code := code_of [word OP_END EXT_NONE ARG_NONE ARG_NONE]; ctx := tt |}.

(** The buffer of a source text that starts with a comment line:
    a comment, a newline, [end] and the NUL. *)
Definition comment_source : list ascii :=
  [ "#"; " "; "c"; LF; "e"; "n"; "d"; NUL ]%char.

(** The list that starts at [p] ends with [NULL] and stays in memory. *)
Inductive null_terminated (m : gmap positive svm_task_t) : task_ptr -> Prop :=
  | nt_null : null_terminated m None
  | nt_next a t :
      m !! a = Some t -> null_terminated m (next t) -> null_terminated m (Some a).

(** ** Further parts of [svm.c]: creating tasks and loading an image *)

Section Loading.
Context {Ctx : Type}.

(** A block that [realloc] returns for [bytes] bytes, seen as [int32_t]
    slots: four bytes per slot, so [bytes / 4] slots.  The contents of
    fresh memory are indeterminate: [junk] gives them. *)
Definition fresh_buffer (bytes : Z) (junk : nat -> Z) : list Z :=
  map junk (seq 0 (Z.to_nat (bytes / 4))).

(** [svm_task_init]: the task is zeroed, receives [pc] and a copy of the
    16 registers, and both stacks are sized from the metadata of the
    image (8 and 32 when the metadata is zero).  [SVM_REALLOC_CHECK] is
    given the sizes as they are, as numbers of bytes.  The allocation is
    taken to succeed (the macro aborts the process otherwise). *)
Definition svm_task_init (cd : svm_code_t) (pc0 : Z) (regs : list Z)
    (junk_call junk_stack : nat -> Z) : svm_task_t :=
  let call_size :=
    if meta_call_stack_size cd =? 0 then 8 else meta_call_stack_size cd in
  let stack_size :=
    if meta_stack_size cd =? 0 then 32 else meta_stack_size cd in
  {| next := None; flags := no_flags; pc := pc0; rpc := 0; sp := 0;
     registers := regs;
     stack := {| buffer := fresh_buffer stack_size junk_stack; size := stack_size |};
     call_stack := {| buffer := fresh_buffer call_size junk_call; size := call_size |} |}.

(** The loop [while (tmp->next) tmp = tmp->next;] of [svm_task_create],
    started at the task [a]. *)
Fixpoint svm_task_last (fuel : nat) (m : gmap positive svm_task_t) (a : positive)
    : scan_result :=
  match m !! a with
  | None => ScanUndefined
  | Some t =>
      match next t with
      | None => ScanEnd (Some a)
      | Some n =>
          match fuel with
          | O => ScanOutOfFuel
          | S fuel' => svm_task_last fuel' m n
          end
      end
  end.

(** [svm_task_create]; [alloc] is what [svm_malloc] returns for the task,
    an address not in use or [NULL].  [None] when the fuel did not
    suffice for the walk to the last task. *)
Definition svm_task_create (fuel : nat) (alloc : task_ptr) (pc0 : Z) (regs : list Z)
    (junk_call junk_stack : nat -> Z) (vm : svm_t Ctx) : option (result Ctx unit) :=
  match alloc with
  | None => Some (Err SVM_ERR_BAD_ALLOC vm)
  | Some a =>
      let task := svm_task_init (code vm) pc0 regs junk_call junk_stack in
      let vm1 := set_tasks (<[a := task]> (tasks vm)) vm in
      match task_head vm1 with
      | None => Some (Ret tt (set_task_head (Some a) vm1))
      | Some h =>
          match svm_task_last fuel (tasks vm1) h with
          | ScanOutOfFuel => None
          | ScanUndefined => Some Undefined
          | ScanEnd None => Some Undefined
          | ScanEnd (Some l) =>
              Some ((t ← deref (Some l); store l (set_next (Some a) t)) vm1)
          end
      end
  end.

(** [svm_load]: the image is installed, a task at [pc = 0] with zeroed
    registers is created, the VM is set running and the first switch
    selects a task. *)
Definition svm_load (fuel : nat) (cd : svm_code_t) (alloc : task_ptr)
    (junk_call junk_stack : nat -> Z) (vm : svm_t Ctx) : option (result Ctx unit) :=
  let vm0 :=
    {| running := running vm; task_switch_block := task_switch_block vm;
       task_current := task_current vm; task_head := task_head vm;
       tasks := tasks vm; code := cd; ctx := ctx vm |} in
  match svm_task_create fuel alloc 0 (replicate 16 0) junk_call junk_stack vm0 with
  | None => None
  | Some (Ret _ vm1) => Some (svm_task_switch (set_running true vm1))
  | Some r => Some r
  end.

(** The state of the task pointers and flags after [svm_init]: everything
    is zero.  (The image pointer, [NULL] at that point, has no
    counterpart here: [svm_load] installs the image first.) *)
Definition initialized (vm : svm_t Ctx) : Prop :=
  running vm = false /\ task_switch_block vm = false /\
  task_current vm = None /\ task_head vm = None.

(** The tasks at the addresses [l], in this order, form the list that
    starts at [p] and ends with [NULL]. *)
Fixpoint chain (m : gmap positive svm_task_t) (p : task_ptr) (l : list positive)
    : Prop :=
  match l with
  | [] => p = None
  | a :: l' => p = Some a /\ exists t, m !! a = Some t /\ chain m (next t) l'
  end.

(** [n] calls of [svm_task_switch] in a row, as a scheduler makes them;
    the first call that fails ends the row. *)
Fixpoint svm_task_switches (n : nat) : M Ctx unit :=
  match n with
  | O => mret tt
  | S n' => svm_task_switch;; svm_task_switches n'
  end.

(** What a cycle leaves alone: the task pointers, the image, the switch
    block, the set of allocated tasks and every task but the current one;
    the running flag is never turned on. *)
Definition vm_frame (vm vm' : svm_t Ctx) : Prop :=
  task_current vm' = task_current vm /\
  task_head vm' = task_head vm /\
  code vm' = code vm /\
  task_switch_block vm' = task_switch_block vm /\
  (running vm' = true -> running vm = true) /\
  (forall b, is_Some (tasks vm' !! b) <-> is_Some (tasks vm !! b)) /\
  (forall b, task_current vm <> Some b -> tasks vm' !! b = tasks vm !! b).

Definition keeps_frame {A} (m : M Ctx A) : Prop :=
  forall vm,
    match m vm with
    | Undefined => True
    | Ret _ vm' => vm_frame vm vm'
    | Err _ vm' => vm_frame vm vm'
    end.

End Loading.

(** ** Further notions for the statements about [svm_cycle] *)

Definition byte (z : Z) : Prop := 0 <= z < 256.

(** The assignment operator of a two-operand opcode. *)
Definition alu_of_opcode (o : svm_opcode_t) : option (Z -> Z -> option Z) :=
  match o with
  | OP_MOV => Some alu_mov
  | OP_ADD => Some alu_add
  | OP_SUB => Some alu_sub
  | OP_MUL => Some alu_mul
  | OP_DIV => Some alu_div
  | OP_AND => Some alu_and
  | OP_OR => Some alu_or
  | OP_XOR => Some alu_xor
  | OP_SHL => Some alu_shl
  | OP_SHR => Some alu_shr
  | _ => None
  end.

(** The flags after [svm_check_value_set_nz_z_flags value]. *)
Definition nz_z_flags (value : Z) (f : svm_flags_t) : svm_flags_t :=
  if negb (value =? 0) then set_flag_of_ext EXT_NZ true f
  else set_flag_of_ext EXT_Z true f.

(** ** Further parts of [svm_util.c] and [svm_asm.c]: the front end *)

Open Scope string_scope.

(** A C string argument that may be [NULL]. *)
Definition c_string : Type := option string.

(** [svm_str2opcode]; [None] is the result [OP_MAX]. *)
Definition svm_str2opcode (str : c_string) : option svm_opcode_t :=
  match str with
  | None => None
  | Some s =>
      if String.eqb s "nop" then Some OP_NOP
      else if String.eqb s "end" then Some OP_END
      else if String.eqb s "mov" then Some OP_MOV
      else if String.eqb s "add" then Some OP_ADD
      else if String.eqb s "sub" then Some OP_SUB
      else if String.eqb s "mul" then Some OP_MUL
      else if String.eqb s "div" then Some OP_DIV
      else if String.eqb s "cmp" then Some OP_CMP
      else if String.eqb s "clf" then Some OP_CLF
      else if String.eqb s "jmp" then Some OP_JMP
      else if String.eqb s "inv" then Some OP_INV
      else if String.eqb s "ret" then Some OP_RET
      else if String.eqb s "sys" then Some OP_SYS
      else None
  end.

(** [svm_str2arg]: a register name gives its argument type, [NULL] gives
    [ARG_MAX] and every other text [ARG_IMM]. *)
Definition svm_str2arg (str : c_string) : Z :=
  match str with
  | None => ARG_MAX
  | Some s =>
      if String.eqb s "r0" then ARG_R 0
      else if String.eqb s "r1" then ARG_R 1
      else if String.eqb s "r2" then ARG_R 2
      else if String.eqb s "r3" then ARG_R 3
      else if String.eqb s "r4" then ARG_R 4
      else if String.eqb s "r5" then ARG_R 5
      else if String.eqb s "r6" then ARG_R 6
      else if String.eqb s "r7" then ARG_R 7
      else if String.eqb s "r8" then ARG_R 8
      else if String.eqb s "r9" then ARG_R 9
      else if String.eqb s "r10" then ARG_R 10
      else if String.eqb s "r11" then ARG_R 11
      else if String.eqb s "r12" then ARG_R 12
      else if String.eqb s "r13" then ARG_R 13
      else if String.eqb s "r14" then ARG_R 14
      else if String.eqb s "r15" then ARG_R 15
      else ARG_IMM
  end.

(** [svm_str2ext], with the value of the enumerator as result: [NULL]
    gives [EXT_MAX] and a text that is no suffix gives [EXT_NONE]. *)
Definition svm_str2ext (str : c_string) : Z :=
  match str with
  | None => EXT_MAX
  | Some s =>
      if String.eqb s "eq" then ext_value EXT_EQ
      else if String.eqb s "ne" then ext_value EXT_NE
      else if String.eqb s "lt" then ext_value EXT_LT
      else if String.eqb s "le" then ext_value EXT_LE
      else if String.eqb s "gt" then ext_value EXT_GT
      else if String.eqb s "ge" then ext_value EXT_GE
      else if String.eqb s "nz" then ext_value EXT_NZ
      else if String.eqb s "z" then ext_value EXT_Z
      else ext_value EXT_NONE
  end.

Close Scope string_scope.

Inductive svm_asm_arg_constraint_t :=
  | SVM_ASM_ARGC_NONE
  | SVM_ASM_ARGC_ALL
  | SVM_ASM_ARGC_REG_ONLY
  | SVM_ASM_ARGC_IMM_ONLY.

Record svm_asm_opcode_meta_t := {
  arg_count : Z;
  arg1_restrict : svm_asm_arg_constraint_t;
  arg2_restrict : svm_asm_arg_constraint_t
}.

(** The table [opcode_meta].  Its initializer names no entry for
    [OP_PUSH] and [OP_POP]: those are zero. *)
Definition opcode_meta (o : svm_opcode_t) : svm_asm_opcode_meta_t :=
  match o with
  | OP_NOP | OP_END | OP_CLF | OP_RET | OP_PUSH | OP_POP =>
      {| arg_count := 0; arg1_restrict := SVM_ASM_ARGC_NONE;
         arg2_restrict := SVM_ASM_ARGC_NONE |}
  | OP_JMP | OP_INV | OP_SYS =>
      {| arg_count := 1; arg1_restrict := SVM_ASM_ARGC_ALL;
         arg2_restrict := SVM_ASM_ARGC_NONE |}
  | _ =>
      {| arg_count := 2; arg1_restrict := SVM_ASM_ARGC_ALL;
         arg2_restrict := SVM_ASM_ARGC_ALL |}
  end.

Definition svm_asm_check_constraint (constraint : svm_asm_arg_constraint_t) (arg : Z)
    : bool :=
  match constraint with
  | SVM_ASM_ARGC_NONE => arg =? ARG_NONE
  | SVM_ASM_ARGC_IMM_ONLY => arg =? ARG_IMM
  | SVM_ASM_ARGC_REG_ONLY => (ARG_R0 <=? arg) && (arg <=? ARG_R15)
  | SVM_ASM_ARGC_ALL => negb (arg =? ARG_NONE)
  end.

(** [svm_asm_rollback_token]: the character before [source] becomes a
    space and [source] goes back to [token].  The result is the buffer
    and the new [source]; [None] when that character is outside the
    buffer. *)
Definition svm_asm_rollback_token (token : nat) (buf : list ascii) (source : nat)
    : option (list ascii * nat) :=
  match source with
  | O => None
  | S p =>
      if (p <? length buf)%nat then Some (<[p := " "%char]> buf, token) else None
  end.

(** The text of the C string that starts at index [p] of a buffer: the
    characters up to the first NUL. *)
Fixpoint c_string_at (l : list ascii) : list ascii :=
  match l with
  | [] => []
  | c :: l' => if Ascii.eqb c NUL then [] else c :: c_string_at l'
  end.

(** A character that ends a token. *)
Definition is_separator (c : ascii) : bool :=
  Ascii.eqb c " " || Ascii.eqb c LF || Ascii.eqb c "." || Ascii.eqb c NUL.

(** [svm_opcode2str]: the name that the disassembler prints.  The
    [switch] has a [case] for thirteen opcodes; the others take the
    [default:] label. *)
Definition svm_opcode2str (o : svm_opcode_t) : string :=
  match o with
  | OP_NOP => "NOP" | OP_END => "END" | OP_MOV => "MOV"
  | OP_ADD => "ADD" | OP_SUB => "SUB" | OP_MUL => "MUL" | OP_DIV => "DIV"
  | OP_CMP => "CMP" | OP_CLF => "CLF"
  | OP_JMP => "JMP" | OP_INV => "INV" | OP_RET => "RET" | OP_SYS => "SYS"
  | _ => "<?>"
  end%string.

(** The end of the loop body of [svm_asm]: the results [EXT_MAX] and
    [ARG_MAX] of a missing token become [EXT_NONE] and [ARG_NONE], and
    the instruction is packed into a word. *)
Definition svm_asm_encode (o : svm_opcode_t) (ext arg1 arg2 : Z) : Z :=
  let ext := if ext =? EXT_MAX then ext_value EXT_NONE else ext in
  let arg1 := if arg1 =? ARG_MAX then ARG_NONE else arg1 in
  let arg2 := if arg2 =? ARG_MAX then ARG_NONE else arg2 in
  svm_instruction_to_int32
    {| op := opcode_value o; ext := ext; arg1 := arg1; arg2 := arg2 |}.

(** The characters that the first branch of the loop of [svm_to_int32]
    takes: ['0'] to ['8']. *)
Definition is_digit_0_8 (ch : ascii) : bool :=
  (char_code "0" <=? char_code ch) && (char_code ch <? char_code "9").

(** ** Further concrete machines *)

(** [add r0 7] with [r0 = 5]. *)
Definition vm_add : svm_t unit :=
  vm_with [word OP_ADD EXT_NONE (ARG_R 0) ARG_IMM; 7] task_r0_5.

(** [mov 5 r0]: a literal where the register is needed. *)
Definition vm_mov_literal_first : svm_t unit :=
  vm_with [word OP_MOV EXT_NONE ARG_IMM (ARG_R 0); 5] (fresh_task zero_registers).

(** [jmp 0]. *)
Definition vm_jmp : svm_t unit :=
  vm_with [word OP_JMP EXT_NONE ARG_IMM ARG_NONE; 0] (fresh_task zero_registers).

(** [ret] on a task that has made no call. *)
Definition vm_ret : svm_t unit :=
  vm_with [word OP_RET EXT_NONE ARG_NONE ARG_NONE] (fresh_task zero_registers).

(** [clf] and [cmp r0 7] on a task with [r0 = 5] whose flags are all
    set; and the task after the cycle on the [clf]. *)
Definition all_flags : svm_flags_t :=
  {| flag_eq := true; flag_ne := true; flag_lt := true; flag_le := true;
     flag_gt := true; flag_ge := true; flag_nz := true; flag_z := true |}.
Definition vm_clf_cmp : svm_t unit :=
  vm_with [word OP_CLF EXT_NONE ARG_NONE ARG_NONE;
           word OP_CMP EXT_NONE (ARG_R 0) ARG_IMM; 7]
    (set_flags all_flags task_r0_5).
Definition task_cleared : svm_task_t := set_pc 1 task_r0_5.

(** [push 7] on a task whose data stack holds eight values: as many as
    its buffer has slots. *)
Definition vm_push_ninth : svm_t unit :=
  vm_with [word OP_PUSH EXT_NONE ARG_IMM ARG_NONE; 7]
    (set_sp 8 (fresh_task zero_registers)).

(** [sys.eq 1] on a fresh task: no flag is set. *)
Definition vm_sys : svm_t unit :=
  vm_with [word OP_SYS EXT_EQ ARG_IMM ARG_NONE; 1] (fresh_task zero_registers).

(** A VM as [svm_init] leaves it. *)
Definition vm_initialized : svm_t unit :=
  {| running := false; task_switch_block := false;
     task_current := None; task_head := None;
     tasks := ∅; code := code_of []; ctx := tt |}.

(** Fresh memory that happens to hold zeros. *)
Definition zero_junk (n : nat) : Z := 0.

(** [div r0 0] with [r0 = 5]. *)
Definition vm_div_zero : svm_t unit :=
  vm_with [word OP_DIV EXT_NONE (ARG_R 0) ARG_IMM; 0] task_r0_5.

(** [cmp r0 7] with [r0 = 5] on a task whose EQ, GT and Z flags are set
    already. *)
Definition eq_gt_z_flags : svm_flags_t :=
  {| flag_eq := true; flag_ne := false; flag_lt := false; flag_le := false;
     flag_gt := true; flag_ge := false; flag_nz := false; flag_z := true |}.
Definition vm_cmp_flagged : svm_t unit :=
  vm_with [word OP_CMP EXT_NONE (ARG_R 0) ARG_IMM; 7]
    (set_flags eq_gt_z_flags task_r0_5).

(** The task of [vm_push_pop] after the cycle on the PUSH and a body
    that has overwritten every register with 9. *)
Definition task_r123_clobbered : svm_task_t :=
  set_registers (replicate 16 9) task_r123_pushed.

(** ** Facts about the primitives *)

Section PrimitiveFacts.
Context {Ctx : Type}.
Implicit Types (vm : svm_t Ctx) (t : svm_task_t) (a : positive).

Lemma bind_unfold {A B} (m : M Ctx A) (k : A -> M Ctx B) vm :
  (m ≫= k) vm =
  match m vm with
  | Undefined => Undefined
  | Ret x vm' => k x vm'
  | Err e vm' => Err e vm'
  end.
Proof. reflexivity. Qed.

Lemma ret_unfold {A} (x : A) vm : (mret x : M Ctx A) vm = Ret x vm.
Proof. reflexivity. Qed.

Lemma Ret_value {A} (x y : A) vm vm' :
  Ret x vm = (Ret y vm' : result Ctx A) -> x = y.
Proof. congruence. Qed.

Lemma upd_upd a t1 t2 vm : upd a t2 (upd a t1 vm) = upd a t2 vm.
Proof. unfold upd, set_tasks; simpl. now rewrite insert_insert_eq. Qed.

Lemma upd_same vm a t : cur vm a t -> upd a t vm = vm.
Proof.
  intros [_ Hl]. destruct vm; unfold upd, set_tasks; simpl in *.
  f_equal. now apply insert_id.
Qed.

Lemma cur_upd vm a t t' : cur vm a t -> cur (upd a t' vm) a t'.
Proof. intros [Hc _]. split; simpl; [exact Hc | apply lookup_insert_eq]. Qed.

Lemma cur_inj vm a t a' t' : cur vm a t -> cur vm a' t' -> a = a' /\ t = t'.
Proof. intros [H1 H2] [H3 H4]. split; congruence. Qed.

Lemma get_task_upd vm a t t1 :
  cur vm a t -> get_task (upd a t1 vm) = Ret t1 (upd a t1 vm).
Proof.
  intros [Hc _]. unfold get_task; simpl. rewrite Hc.
  now rewrite lookup_insert_eq.
Qed.

Lemma put_task_upd vm a t t1 t2 :
  cur vm a t -> put_task t2 (upd a t1 vm) = Ret tt (upd a t2 vm).
Proof.
  intros [Hc _]. unfold put_task; simpl. rewrite Hc.
  rewrite lookup_insert_eq. f_equal. apply upd_upd.
Qed.

Lemma modify_task_upd vm a t t1 f :
  cur vm a t -> modify_task f (upd a t1 vm) = Ret tt (upd a (f t1) vm).
Proof.
  intros H. unfold modify_task. rewrite bind_unfold, (get_task_upd _ _ _ _ H).
  apply (put_task_upd _ _ _ _ _ H).
Qed.

Lemma get_code_upd vm a t1 : get_code (upd a t1 vm) = Ret (code vm) (upd a t1 vm).
Proof. reflexivity. Qed.

Lemma read_register_upd vm a t t1 r :
  cur vm a t ->
  read_register r (upd a t1 vm) =
  match zlookup (registers t1) r with
  | Some v => Ret v (upd a t1 vm)
  | None => Undefined
  end.
Proof.
  intros H. unfold read_register. rewrite bind_unfold, (get_task_upd _ _ _ _ H).
  now destruct (zlookup (registers t1) r).
Qed.

Lemma write_register_upd vm a t t1 r v :
  cur vm a t ->
  write_register r v (upd a t1 vm) =
  match zinsert r v (registers t1) with
  | Some rs => Ret tt (upd a (set_registers rs t1) vm)
  | None => Undefined
  end.
Proof.
  intros H. unfold write_register. rewrite bind_unfold, (get_task_upd _ _ _ _ H).
  rewrite bind_unfold. destruct (zinsert r v (registers t1)); simpl; [|reflexivity].
  apply (put_task_upd _ _ _ _ _ H).
Qed.

Lemma stack_push_upd vm a t t1 v :
  cur vm a t ->
  stack_push v (upd a t1 vm) =
  match zinsert (sp t1) v (buffer (stack t1)) with
  | Some b => Ret tt (upd a (set_sp (wrap_u32 (sp t1 + 1)) (set_stack_buffer b t1)) vm)
  | None => Undefined
  end.
Proof.
  intros H. unfold stack_push. rewrite bind_unfold, (get_task_upd _ _ _ _ H).
  rewrite bind_unfold. destruct (zinsert _ v _); simpl; [|reflexivity].
  apply (put_task_upd _ _ _ _ _ H).
Qed.

Lemma stack_pop_upd vm a t t1 :
  cur vm a t ->
  stack_pop (upd a t1 vm) =
  match zlookup (buffer (stack t1)) (wrap_u32 (sp t1 - 1)) with
  | Some v => Ret v (upd a (set_sp (wrap_u32 (sp t1 - 1)) t1) vm)
  | None => Undefined
  end.
Proof.
  intros H. unfold stack_pop. rewrite bind_unfold, (get_task_upd _ _ _ _ H).
  cbv zeta. rewrite bind_unfold, (put_task_upd _ _ _ _ _ H).
  now destruct (zlookup _ _).
Qed.

End PrimitiveFacts.

(** ** Facts about the helpers of [svm_cycle] *)

Section HelperFacts.
Context {Ctx : Type}.
Implicit Types (vm : svm_t Ctx) (t : svm_task_t) (a : positive).

Lemma zlookup_table_ge {A} (l : list A) (b : Z) :
  Z.of_nat (length l) <= b -> zlookup l b = None.
Proof.
  intros H. unfold zlookup. destruct (b <? 0); [reflexivity|].
  apply lookup_ge_None. lia.
Qed.

(** The table and the values of the enumerators agree. *)
Lemma opcode_of_byte_value o : opcode_of_byte (opcode_value o) = Some o.
Proof. now destruct o. Qed.

Lemma ext_of_byte_value e : ext_of_byte (ext_value e) = Some e.
Proof. now destruct e. Qed.

Lemma opcode_of_byte_ge b : OP_MAX <= b -> opcode_of_byte b = None.
Proof. intros H. apply zlookup_table_ge. exact H. Qed.

Lemma ext_of_byte_ge b : EXT_MAX <= b -> ext_of_byte b = None.
Proof. intros H. apply zlookup_table_ge. exact H. Qed.

Lemma condition_ge b f : EXT_MAX <= b -> condition b f = false.
Proof. intros H. unfold condition. now rewrite ext_of_byte_ge. Qed.

Lemma svm_check_condition_upd vm a t t1 e :
  cur vm a t ->
  svm_check_condition e (upd a t1 vm) = Ret (condition e (flags t1)) (upd a t1 vm).
Proof.
  intros H. unfold svm_check_condition, condition.
  destruct (ext_of_byte e) as [[]|]; try reflexivity;
    now rewrite bind_unfold, (get_task_upd _ _ _ _ H).
Qed.

Lemma svm_check_condition_cur vm a t e :
  cur vm a t -> svm_check_condition e vm = Ret (condition e (flags t)) vm.
Proof.
  intros H. pose proof (svm_check_condition_upd vm a t t e H) as L.
  now rewrite (upd_same _ _ _ H) in L.
Qed.

(** An operand that is neither a register nor [ARG_IMM]. *)
Lemma svm_get_arg_value_none type vm :
  svm_is_arg_register type = false -> type <> ARG_IMM ->
  svm_get_arg_value type vm = Ret 0 vm.
Proof.
  intros Hr Hi. unfold svm_get_arg_value. rewrite Hr.
  destruct (Z.eqb_spec type ARG_IMM); [contradiction|reflexivity].
Qed.

Lemma svm_get_arg_value_imm vm a t t1 :
  cur vm a t ->
  svm_get_arg_value ARG_IMM (upd a t1 vm) =
  match zlookup (code_buffer (code vm)) (pc t1) with
  | Some v => Ret v (upd a (set_pc (wrap_u32 (pc t1 + 1)) t1) vm)
  | None => Undefined
  end.
Proof.
  intros H. unfold svm_get_arg_value. simpl.
  rewrite bind_unfold, get_code_upd, bind_unfold, (get_task_upd _ _ _ _ H).
  rewrite bind_unfold, (put_task_upd _ _ _ _ _ H). simpl.
  now destruct (zlookup _ _).
Qed.

Lemma svm_get_arg_value_reg vm a t t1 type :
  cur vm a t -> svm_is_arg_register type = true ->
  svm_get_arg_value type (upd a t1 vm) =
  match zlookup (registers t1) (type - 1) with
  | Some v => Ret v (upd a t1 vm)
  | None => Undefined
  end.
Proof.
  intros H Hr. unfold svm_get_arg_value. rewrite Hr.
  unfold svm_is_arg_register, ARG_NONE, ARG_IMM in Hr.
  apply andb_true_iff in Hr as [H1 H2].
  apply Z.ltb_lt in H1. apply Z.ltb_lt in H2.
  unfold svm_arg_to_reg, ARG_R0, ARG_R15, R_MAX.
  replace (1 <=? type) with true by (symmetry; apply Z.leb_le; lia).
  replace (type <=? 16) with true by (symmetry; apply Z.leb_le; lia).
  simpl.
  replace (type - 1 <? 16) with true by (symmetry; apply Z.ltb_lt; lia).
  apply (read_register_upd _ _ _ _ _ H).
Qed.

End HelperFacts.

(** ** Facts about [svm_cycle] *)

Section CycleFacts.
Context {Ctx : Type}.
Variable handler : Ctx -> list Z -> Z -> Ctx * list Z.
Implicit Types (vm : svm_t Ctx) (t : svm_task_t) (a : positive).

Lemma set_pc_same t : set_pc (pc t) t = t.
Proof. now destruct t. Qed.

Lemma set_flags_same t : set_flags (flags t) t = t.
Proof. now destruct t. Qed.

Lemma wrap_u32_succ z k : wrap_u32 (wrap_u32 z + k) = wrap_u32 (z + k).
Proof. unfold wrap_u32. apply Z.add_mod_idemp_l. lia. Qed.

Lemma wrap_u32_small z : uint32 z -> wrap_u32 z = z.
Proof. intros H. apply Z.mod_small. exact H. Qed.

(** The cycle up to the [switch]: the word at [pc] is decoded and [pc]
    moves past it. *)
Lemma svm_cycle_fetch vm a t w :
  fetches vm a t w ->
  svm_cycle handler vm =
  svm_cycle_switch handler (svm_instruction_of_int32 w)
    (upd a (set_pc (wrap_u32 (pc t + 1)) t) vm).
Proof.
  intros (H & Hrun & Hpc & Hw). unfold svm_cycle. rewrite Hrun. simpl.
  rewrite <- (upd_same _ _ _ H) at 1.
  rewrite bind_unfold, (get_task_upd _ _ _ _ H).
  rewrite bind_unfold, get_code_upd.
  replace (pc t >=? code_size (code vm)) with false
    by (symmetry; rewrite Z.geb_leb; apply Z.leb_gt; exact Hpc).
  rewrite bind_unfold, Hw. simpl.
  rewrite bind_unfold, (put_task_upd _ _ _ _ _ H). reflexivity.
Qed.

(** Fetching an operand changes at most [pc]. *)
Lemma svm_get_arg_value_shape vm a t t1 type x vm1 :
  cur vm a t ->
  svm_get_arg_value type (upd a t1 vm) = Ret x vm1 ->
  exists p, vm1 = upd a (set_pc p t1) vm.
Proof.
  intros H E.
  destruct (svm_is_arg_register type) eqn:Hr.
  - rewrite (svm_get_arg_value_reg _ _ _ _ _ H Hr) in E.
    destruct (zlookup _ _); [|discriminate].
    injection E as _ <-. exists (pc t1). now rewrite set_pc_same.
  - destruct (Z.eq_dec type ARG_IMM) as [->|Hi].
    + rewrite (svm_get_arg_value_imm _ _ _ _ H) in E.
      destruct (zlookup _ _); [|discriminate].
      injection E as _ <-. eauto.
    + rewrite (svm_get_arg_value_none _ _ Hr Hi) in E.
      injection E as _ <-. exists (pc t1). now rewrite set_pc_same.
Qed.

Lemma cmp_flags_sets (x y : Z) f :
  (x = y -> flag_eq (cmp_flags x y f) = true) /\
  (x <> y -> flag_ne (cmp_flags x y f) = true) /\
  (x < y -> flag_lt (cmp_flags x y f) = true) /\
  (x <= y -> flag_le (cmp_flags x y f) = true) /\
  (x > y -> flag_gt (cmp_flags x y f) = true) /\
  (x >= y -> flag_ge (cmp_flags x y f) = true).
Proof.
  unfold cmp_flags; simpl. rewrite Z.gtb_ltb, Z.geb_leb.
  repeat split; intros H.
  - apply Z.eqb_eq in H. now rewrite H.
  - apply Z.eqb_neq in H. now rewrite H.
  - apply Z.ltb_lt in H. now rewrite H.
  - apply Z.leb_le in H. now rewrite H.
  - apply Z.gt_lt, Z.ltb_lt in H. now rewrite H.
  - apply Z.ge_le, Z.leb_le in H. now rewrite H.
Qed.

Lemma cmp_flags_keeps (x y : Z) f :
  (flag_eq f = true -> flag_eq (cmp_flags x y f) = true) /\
  (flag_ne f = true -> flag_ne (cmp_flags x y f) = true) /\
  (flag_lt f = true -> flag_lt (cmp_flags x y f) = true) /\
  (flag_le f = true -> flag_le (cmp_flags x y f) = true) /\
  (flag_gt f = true -> flag_gt (cmp_flags x y f) = true) /\
  (flag_ge f = true -> flag_ge (cmp_flags x y f) = true) /\
  (flag_nz f = true -> flag_nz (cmp_flags x y f) = true) /\
  (flag_z f = true -> flag_z (cmp_flags x y f) = true).
Proof.
  unfold cmp_flags; simpl.
  repeat split; intros ->; try reflexivity;
    match goal with |- (if ?c then _ else _) = _ => now destruct c end.
Qed.

Lemma cmp_flags_exact (x y : Z) f :
  (flag_eq (cmp_flags x y f) = true <-> flag_eq f = true \/ x = y) /\
  (flag_ne (cmp_flags x y f) = true <-> flag_ne f = true \/ x <> y) /\
  (flag_lt (cmp_flags x y f) = true <-> flag_lt f = true \/ x < y) /\
  (flag_le (cmp_flags x y f) = true <-> flag_le f = true \/ x <= y) /\
  (flag_gt (cmp_flags x y f) = true <-> flag_gt f = true \/ x > y) /\
  (flag_ge (cmp_flags x y f) = true <-> flag_ge f = true \/ x >= y) /\
  flag_nz (cmp_flags x y f) = flag_nz f /\
  flag_z (cmp_flags x y f) = flag_z f.
Proof.
  unfold cmp_flags; simpl. rewrite Z.gtb_ltb, Z.geb_leb.
  destruct (Z.eqb_spec x y), (Z.ltb_spec x y), (Z.leb_spec x y),
    (Z.ltb_spec y x), (Z.leb_spec y x); try lia;
    destruct f as [[] [] [] [] [] [] ? ?]; cbn;
    intuition (try discriminate; try lia).
Qed.

(** C5: a cycle on [OP_CMP] whose operands fetch the values [x] and [y]
    returns [SVM_OK] and changes nothing of the task but its flags and
    [pc].  After it a comparison flag is set exactly when it was set
    before or its comparison of [x] with [y], as signed numbers, holds:
    EQ for [x = y], NE for [x <> y], LT for [x < y], LE for [x <= y], GT
    for [x > y], GE for [x >= y].  So each flag whose comparison holds is
    set, no flag that was set is cleared, and a flag that was clear
    stays clear when its comparison fails.  NZ and Z are as before.  The
    suffix of the instruction is not consulted. *)
Theorem cmp_sets_and_never_clears vm a t w x y vm1 vm2 :
  fetches vm a t w ->
  opcode_of_byte (op (svm_instruction_of_int32 w)) = Some OP_CMP ->
  svm_get_arg_value (arg1 (svm_instruction_of_int32 w))
    (upd a (set_pc (wrap_u32 (pc t + 1)) t) vm) = Ret x vm1 ->
  svm_get_arg_value (arg2 (svm_instruction_of_int32 w)) vm1 = Ret y vm2 ->
  exists vm' t',
    svm_cycle handler vm = Ret tt vm' /\ cur vm' a t' /\
    (exists p, vm' = upd a (set_flags (flags t') (set_pc p t)) vm) /\
    flags t' = cmp_flags x y (flags t) /\
    ((flag_eq (flags t') = true <-> flag_eq (flags t) = true \/ x = y) /\
     (flag_ne (flags t') = true <-> flag_ne (flags t) = true \/ x <> y) /\
     (flag_lt (flags t') = true <-> flag_lt (flags t) = true \/ x < y) /\
     (flag_le (flags t') = true <-> flag_le (flags t) = true \/ x <= y) /\
     (flag_gt (flags t') = true <-> flag_gt (flags t) = true \/ x > y) /\
     (flag_ge (flags t') = true <-> flag_ge (flags t) = true \/ x >= y) /\
     flag_nz (flags t') = flag_nz (flags t) /\
     flag_z (flags t') = flag_z (flags t)) /\
    ((x = y -> flag_eq (flags t') = true) /\
     (x <> y -> flag_ne (flags t') = true) /\
     (x < y -> flag_lt (flags t') = true) /\
     (x <= y -> flag_le (flags t') = true) /\
     (x > y -> flag_gt (flags t') = true) /\
     (x >= y -> flag_ge (flags t') = true)) /\
    ((flag_eq (flags t) = true -> flag_eq (flags t') = true) /\
     (flag_ne (flags t) = true -> flag_ne (flags t') = true) /\
     (flag_lt (flags t) = true -> flag_lt (flags t') = true) /\
     (flag_le (flags t) = true -> flag_le (flags t') = true) /\
     (flag_gt (flags t) = true -> flag_gt (flags t') = true) /\
     (flag_ge (flags t) = true -> flag_ge (flags t') = true) /\
     (flag_nz (flags t) = true -> flag_nz (flags t') = true) /\
     (flag_z (flags t) = true -> flag_z (flags t') = true)).
Proof.
  intros F Hop E1 E2. pose proof F as (H & _).
  rewrite (svm_cycle_fetch _ _ _ _ F).
  unfold svm_cycle_switch. rewrite Hop. unfold svm_cycle_cmp.
  destruct (svm_get_arg_value_shape _ _ _ _ _ _ _ H E1) as [p1 ->].
  destruct (svm_get_arg_value_shape _ _ _ _ _ _ _ H E2) as [p2 ->].
  rewrite bind_unfold, E1, bind_unfold, E2.
  rewrite (modify_task_upd _ _ _ _ _ H).
  eexists _, _. split; [reflexivity|]. split; [eapply cur_upd, H|].
  split; [exists p2; reflexivity|].
  split; [reflexivity|]. simpl.
  split; [apply cmp_flags_exact|].
  split; [apply cmp_flags_sets | apply cmp_flags_keeps].
Qed.

Lemma zlookup_registers t r :
  length (registers t) = 16%nat -> 0 <= r < 16 -> is_Some (zlookup (registers t) r).
Proof.
  intros Hl Hr. unfold zlookup.
  replace (r <? 0) with false by (symmetry; apply Z.ltb_ge; lia).
  apply lookup_lt_is_Some. lia.
Qed.

Lemma svm_is_arg_register_range type :
  svm_is_arg_register type = true -> 1 <= type <= 16.
Proof.
  unfold svm_is_arg_register, ARG_NONE, ARG_IMM. intros H.
  apply andb_true_iff in H as [H1 H2].
  apply Z.ltb_lt in H1. apply Z.ltb_lt in H2. lia.
Qed.

(** An operand fetch that stays inside the register file and the code
    buffer returns a value and moves [pc] past the literal, if any. *)
Lemma fetch_operand vm a t t0 z type :
  cur vm a t -> length (registers t0) = 16%nat ->
  (type = ARG_IMM -> is_Some (zlookup (code_buffer (code vm)) (wrap_u32 z))) ->
  exists x,
    svm_get_arg_value type (upd a (set_pc (wrap_u32 z) t0) vm) =
    Ret x (upd a (set_pc (wrap_u32 (z + (if type =? ARG_IMM then 1 else 0))) t0) vm).
Proof.
  intros H Hl Hi.
  destruct (svm_is_arg_register type) eqn:Hr.
  - rewrite (svm_get_arg_value_reg _ _ _ _ _ H Hr).
    apply svm_is_arg_register_range in Hr.
    destruct (zlookup_registers (set_pc (wrap_u32 z) t0) (type - 1) Hl) as [x Hx]; [lia|].
    rewrite Hx. exists x.
    replace (type =? ARG_IMM) with false
      by (symmetry; apply Z.eqb_neq; unfold ARG_IMM; lia).
    now rewrite Z.add_0_r.
  - destruct (Z.eqb_spec type ARG_IMM) as [->|Hn].
    + rewrite (svm_get_arg_value_imm _ _ _ _ H). simpl.
      destruct (Hi eq_refl) as [x Hx]. rewrite Hx. exists x.
      now rewrite wrap_u32_succ.
    + rewrite (svm_get_arg_value_none _ _ Hr Hn). exists 0.
      now rewrite Z.add_0_r.
Qed.

Lemma set_flag_of_ext_false e f :
  flag_of_ext e f = false -> set_flag_of_ext e false f = f.
Proof. destruct e, f; simpl; intros H; try discriminate; now subst. Qed.

Lemma svm_cycle_binop_suppressed f i vm a t t0 z :
  cur vm a t -> length (registers t0) = 16%nat ->
  (arg2 i = ARG_IMM -> is_Some (zlookup (code_buffer (code vm)) (wrap_u32 z))) ->
  condition (ext i) (flags t0) = false ->
  svm_cycle_binop f i (upd a (set_pc (wrap_u32 z) t0) vm) =
  Ret tt (upd a (set_pc (wrap_u32 (z + (if arg2 i =? ARG_IMM then 1 else 0))) t0) vm).
Proof.
  intros H Hl Hi Hc. unfold svm_cycle_binop.
  destruct (fetch_operand _ _ _ _ _ _ H Hl Hi) as [x Hx].
  rewrite bind_unfold, Hx, bind_unfold, (svm_check_condition_upd _ _ _ _ _ H).
  simpl. now rewrite Hc.
Qed.

Lemma svm_cycle_push_suppressed i vm a t t0 z :
  cur vm a t ->
  (arg1 i = ARG_IMM -> is_Some (zlookup (code_buffer (code vm)) (wrap_u32 z))) ->
  condition (ext i) (flags t0) = false ->
  svm_cycle_push i (upd a (set_pc (wrap_u32 z) t0) vm) =
  Ret tt (upd a (set_pc (wrap_u32 (z + (if arg1 i =? ARG_IMM then 1 else 0))) t0) vm).
Proof.
  intros H Hi Hc. unfold svm_cycle_push. rewrite bind_unfold.
  destruct (Z.eqb_spec (arg1 i) ARG_IMM) as [E|E].
  - rewrite E, (svm_get_arg_value_imm _ _ _ _ H). simpl.
    destruct (Hi E) as [x Hx]. rewrite Hx.
    rewrite bind_unfold, (svm_check_condition_upd _ _ _ _ _ H). simpl.
    now rewrite Hc, wrap_u32_succ.
  - rewrite ret_unfold, bind_unfold, (svm_check_condition_upd _ _ _ _ _ H). simpl.
    now rewrite Hc, Z.add_0_r.
Qed.

Lemma svm_cycle_pop_suppressed i vm a t t1 :
  cur vm a t -> condition (ext i) (flags t1) = false ->
  svm_cycle_pop i (upd a t1 vm) = Ret tt (upd a t1 vm).
Proof.
  intros H Hc. unfold svm_cycle_pop.
  rewrite bind_unfold, (svm_check_condition_upd _ _ _ _ _ H).
  now rewrite Hc.
Qed.

Lemma svm_cycle_clf_suppressed i vm a t t1 :
  cur vm a t -> condition (ext i) (flags t1) = false ->
  (svm_set_flag_by_ext (ext i) false;; mret tt) (upd a t1 vm) = Ret tt (upd a t1 vm).
Proof.
  intros H Hc. unfold svm_set_flag_by_ext, condition in *. rewrite bind_unfold.
  destruct (ext_of_byte (ext i)) as [e|]; [|reflexivity].
  rewrite bind_unfold, (modify_task_upd _ _ _ _ _ H).
  now rewrite (set_flag_of_ext_false _ _ Hc), set_flags_same.
Qed.

Lemma svm_cycle_jmp_suppressed i vm a t t0 z :
  cur vm a t -> length (registers t0) = 16%nat ->
  (arg1 i = ARG_IMM -> is_Some (zlookup (code_buffer (code vm)) (wrap_u32 z))) ->
  condition (ext i) (flags t0) = false ->
  svm_cycle_jmp i (upd a (set_pc (wrap_u32 z) t0) vm) =
  Ret tt (upd a (set_pc (wrap_u32 (z + (if arg1 i =? ARG_IMM then 1 else 0))) t0) vm).
Proof.
  intros H Hl Hi Hc. unfold svm_cycle_jmp.
  destruct (fetch_operand _ _ _ _ _ _ H Hl Hi) as [x Hx].
  rewrite bind_unfold, Hx, bind_unfold, (svm_check_condition_upd _ _ _ _ _ H).
  simpl. now rewrite Hc.
Qed.

Lemma svm_cycle_inv_suppressed i vm a t t0 z :
  cur vm a t -> length (registers t0) = 16%nat ->
  (arg1 i = ARG_IMM -> is_Some (zlookup (code_buffer (code vm)) (wrap_u32 z))) ->
  condition (ext i) (flags t0) = false ->
  svm_cycle_inv i (upd a (set_pc (wrap_u32 z) t0) vm) =
  Ret tt (upd a (set_pc (wrap_u32 (z + (if arg1 i =? ARG_IMM then 1 else 0))) t0) vm).
Proof.
  intros H Hl Hi Hc. unfold svm_cycle_inv.
  destruct (fetch_operand _ _ _ _ _ _ H Hl Hi) as [x Hx].
  rewrite bind_unfold, Hx, bind_unfold, (svm_check_condition_upd _ _ _ _ _ H).
  simpl. now rewrite Hc.
Qed.

(** A cycle on an opcode that tests the condition, when the condition is
    false: only [pc] moves, past the instruction and the literal that
    the opcode fetched. *)
Lemma svm_cycle_suppressed vm a t w o :
  fetches vm a t w ->
  opcode_of_byte (op (svm_instruction_of_int32 w)) = Some o ->
  predicated o = true ->
  condition (ext (svm_instruction_of_int32 w)) (flags t) = false ->
  length (registers t) = 16%nat ->
  (fetched_words o (svm_instruction_of_int32 w) = 1 ->
   is_Some (zlookup (code_buffer (code vm)) (wrap_u32 (pc t + 1)))) ->
  svm_cycle handler vm =
  Ret tt (upd a (set_pc (wrap_u32 (pc t + 1 + fetched_words o (svm_instruction_of_int32 w))) t) vm).
Proof.
  intros F Hop Hp Hc Hl Hi. pose proof F as (H & _).
  rewrite (svm_cycle_fetch _ _ _ _ F).
  unfold svm_cycle_switch. rewrite Hop.
  set (i := svm_instruction_of_int32 w) in *.
  assert (Hi2 : arg2 i = ARG_IMM ->
                (if arg2 i =? ARG_IMM then 1 else 0) = 1) by (now intros ->).
  assert (Hi1 : arg1 i = ARG_IMM ->
                (if arg1 i =? ARG_IMM then 1 else 0) = 1) by (now intros ->).
  destruct o; try discriminate Hp; cbn [fetched_words] in *;
    lazymatch goal with
    | |- svm_cycle_binop _ _ _ = _ =>
        apply (svm_cycle_binop_suppressed _ _ _ _ _ _ _ H Hl); auto
    | |- svm_cycle_jmp _ _ = _ =>
        apply (svm_cycle_jmp_suppressed _ _ _ _ _ _ H Hl); auto
    | |- svm_cycle_inv _ _ = _ =>
        apply (svm_cycle_inv_suppressed _ _ _ _ _ _ H Hl); auto
    | |- svm_cycle_push _ _ = _ =>
        apply (svm_cycle_push_suppressed _ _ _ _ _ _ H); auto
    | |- svm_cycle_pop _ _ = _ =>
        rewrite Z.add_0_r;
        apply (svm_cycle_pop_suppressed _ _ _ _ (set_pc (wrap_u32 (pc t + 1)) t) H Hc)
    | |- mret _ _ = _ =>
        rewrite Z.add_0_r; reflexivity
    | |- _ =>
        rewrite Z.add_0_r;
        apply (svm_cycle_clf_suppressed _ _ _ _ (set_pc (wrap_u32 (pc t + 1)) t) H Hc)
    end.
Qed.

(** C1 (amended): when [svm_check_condition] is false for the suffix of
    the fetched instruction and the opcode is one whose [case] tests the
    condition (MOV, PUSH, POP, ADD, SUB, MUL, DIV, AND, OR, XOR, SHL, SHR,
    JMP, INV) or is NOP or CLF, one cycle returns [SVM_OK] and changes
    nothing but [pc], which moves past the instruction word and past the
    literal word of the operand that the opcode fetches: no register, flag,
    stack, call stack, running flag or host context changes.  The
    operand fetch is assumed to stay inside the register file and the
    code buffer. *)
Theorem false_condition_only_advances_pc vm a t w o :
  fetches vm a t w ->
  opcode_of_byte (op (svm_instruction_of_int32 w)) = Some o ->
  predicated o = true ->
  svm_check_condition (ext (svm_instruction_of_int32 w)) vm = Ret false vm ->
  length (registers t) = 16%nat ->
  (fetched_words o (svm_instruction_of_int32 w) = 1 ->
   is_Some (zlookup (code_buffer (code vm)) (wrap_u32 (pc t + 1)))) ->
  svm_cycle handler vm =
  Ret tt (upd a (set_pc (wrap_u32 (pc t + 1 + fetched_words o (svm_instruction_of_int32 w))) t) vm).
Proof.
  intros F Hop Hp Hc Hl Hi. pose proof F as (H & _).
  rewrite (svm_check_condition_cur _ _ _ _ H) in Hc.
  apply Ret_value in Hc.
  now apply svm_cycle_suppressed.
Qed.

(** C6 (amended): a fetched word whose opcode byte is no opcode
    ([>= OP_MAX]) makes the cycle return [SVM_ERR_UNKNOWN_INSTRUCTION],
    with [pc] past the word.  A suffix byte that is no extension
    ([>= EXT_MAX]) makes [svm_check_condition] return false: the
    instruction is treated as one whose condition does not hold, and an
    opcode that tests the condition only moves [pc]. *)
Theorem unknown_opcode_and_extension vm a t w :
  fetches vm a t w ->
  (OP_MAX <= op (svm_instruction_of_int32 w) ->
   svm_cycle handler vm =
   Err SVM_ERR_UNKNOWN_INSTRUCTION (upd a (set_pc (wrap_u32 (pc t + 1)) t) vm)) /\
  (EXT_MAX <= ext (svm_instruction_of_int32 w) ->
   svm_check_condition (ext (svm_instruction_of_int32 w)) vm = Ret false vm /\
   forall o,
     opcode_of_byte (op (svm_instruction_of_int32 w)) = Some o ->
     predicated o = true ->
     length (registers t) = 16%nat ->
     (fetched_words o (svm_instruction_of_int32 w) = 1 ->
      is_Some (zlookup (code_buffer (code vm)) (wrap_u32 (pc t + 1)))) ->
     svm_cycle handler vm =
     Ret tt (upd a (set_pc (wrap_u32 (pc t + 1 + fetched_words o (svm_instruction_of_int32 w))) t) vm)).
Proof.
  intros F. pose proof F as (H & _). split.
  - intros Hop. rewrite (svm_cycle_fetch _ _ _ _ F).
    unfold svm_cycle_switch. now rewrite (opcode_of_byte_ge _ Hop).
  - intros He. split.
    + rewrite (svm_check_condition_cur _ _ _ _ H). now rewrite condition_ge.
    + intros o Hop Hp Hl Hi. apply svm_cycle_suppressed; auto.
      now apply condition_ge.
Qed.

(** C10: an operand whose type byte is neither a register nor [ARG_IMM]
    (so [ARG_NONE] or a byte from [ARG_MAX] on) has the value 0 and its
    fetch leaves the VM, and so [pc], as it was.  Hence a cycle on a CMP
    whose two operands are of that kind compares 0 with 0: it sets EQ, GE
    and LE and changes no other flag. *)
Theorem none_operand_is_zero vm type :
  svm_is_arg_register type = false -> type <> ARG_IMM ->
  svm_get_arg_value type vm = Ret 0 vm /\
  forall a t w,
    fetches vm a t w ->
    opcode_of_byte (op (svm_instruction_of_int32 w)) = Some OP_CMP ->
    arg1 (svm_instruction_of_int32 w) = type ->
    svm_is_arg_register (arg2 (svm_instruction_of_int32 w)) = false ->
    arg2 (svm_instruction_of_int32 w) <> ARG_IMM ->
    svm_cycle handler vm =
    Ret tt (upd a
      (set_flags
         {| flag_eq := true; flag_ne := flag_ne (flags t);
            flag_lt := flag_lt (flags t); flag_le := true;
            flag_gt := flag_gt (flags t); flag_ge := true;
            flag_nz := flag_nz (flags t); flag_z := flag_z (flags t) |}
         (set_pc (wrap_u32 (pc t + 1)) t)) vm).
Proof.
  intros Hr Hi. split; [now apply svm_get_arg_value_none|].
  intros a t w F Hop H1 Hr2 Hi2. pose proof F as (H & _).
  rewrite (svm_cycle_fetch _ _ _ _ F).
  unfold svm_cycle_switch. rewrite Hop. unfold svm_cycle_cmp.
  rewrite bind_unfold, H1, (svm_get_arg_value_none _ _ Hr Hi).
  rewrite bind_unfold, (svm_get_arg_value_none _ _ Hr2 Hi2).
  now rewrite (modify_task_upd _ _ _ _ _ H).
Qed.

(** *** The data stack: [PUSH Rlo,Rhi] followed by [POP Rlo,Rhi] *)

Lemma zinsert_Some {A} i (x : A) l l' :
  zinsert i x l = Some l' ->
  0 <= i < Z.of_nat (length l) /\ l' = <[Z.to_nat i := x]> l.
Proof.
  unfold zinsert. destruct (0 <=? i) eqn:E1; [|discriminate].
  destruct (i <? Z.of_nat (length l)) eqn:E2; [|discriminate].
  simpl. intros [= <-]. apply Z.leb_le in E1. apply Z.ltb_lt in E2. auto.
Qed.

Lemma zlookup_zinsert_eq {A} i (x : A) l l' :
  zinsert i x l = Some l' -> zlookup l' i = Some x.
Proof.
  intros H. apply zinsert_Some in H as [Hi ->]. unfold zlookup.
  replace (i <? 0) with false by (symmetry; apply Z.ltb_ge; lia).
  apply list_lookup_insert_eq. lia.
Qed.

Lemma zlookup_zinsert_ne {A} i j (x : A) l l' :
  zinsert i x l = Some l' -> j <> i -> zlookup l' j = zlookup l j.
Proof.
  intros H Hne. apply zinsert_Some in H as [Hi ->]. unfold zlookup.
  destruct (j <? 0) eqn:E; [reflexivity|]. apply Z.ltb_ge in E.
  apply list_lookup_insert_ne. lia.
Qed.

Lemma zinsert_same {A} i (x : A) l :
  zlookup l i = Some x -> zinsert i x l = Some l.
Proof.
  unfold zlookup, zinsert. destruct (i <? 0) eqn:E; [discriminate|].
  apply Z.ltb_ge in E. intros H.
  pose proof (lookup_lt_Some _ _ _ H) as Hlt.
  replace (0 <=? i) with true by (symmetry; apply Z.leb_le; lia).
  replace (i <? Z.of_nat (length l)) with true by (symmetry; apply Z.ltb_lt; lia).
  simpl. f_equal. now apply list_insert_id.
Qed.

Lemma svm_arg_to_reg_register r :
  0 <= r <= 15 -> svm_arg_to_reg (ARG_R0 + r) = r.
Proof.
  intros H. unfold svm_arg_to_reg, ARG_R0, ARG_R15.
  replace (1 <=? 1 + r) with true by (symmetry; apply Z.leb_le; lia).
  replace (1 + r <=? 16) with true by (symmetry; apply Z.leb_le; lia).
  simpl. lia.
Qed.

Lemma svm_is_arg_register_register r :
  0 <= r <= 15 -> svm_is_arg_register (ARG_R0 + r) = true.
Proof.
  intros H. unfold svm_is_arg_register, ARG_R0, ARG_NONE, ARG_IMM.
  apply andb_true_iff. split; apply Z.ltb_lt; lia.
Qed.

Lemma set_sp_stack_same t : set_sp (sp t) (set_stack_buffer (buffer (stack t)) t) = t.
Proof. destruct t as [? ? ? ? ? ? [] ?]. reflexivity. Qed.

Lemma set_sp_same t : set_sp (sp t) t = t.
Proof. now destruct t. Qed.

Lemma set_registers_same t : set_registers (registers t) t = t.
Proof. now destruct t. Qed.

(** [n] pushes starting at register [r]: [sp] grows by [n], the slots
    below the old [sp] keep their contents, and slot [sp + k] receives
    register [r + k]. *)
Lemma svm_push_range_spec n :
  forall r t1 vm a t vm',
    cur vm a t -> 0 <= sp t1 -> sp t1 + Z.of_nat n < 2 ^ 32 ->
    svm_push_range n r (upd a t1 vm) = Ret tt vm' ->
    exists b,
      vm' = upd a (set_sp (sp t1 + Z.of_nat n) (set_stack_buffer b t1)) vm /\
      (forall j, 0 <= j < sp t1 -> zlookup b j = zlookup (buffer (stack t1)) j) /\
      (forall k, 0 <= k < Z.of_nat n ->
         exists v, zlookup (registers t1) (r + k) = Some v /\
                   zlookup b (sp t1 + k) = Some v).
Proof.
  induction n as [|n IH]; intros r t1 vm a t vm' H Hs Hn E.
  - simpl in E. injection E as <-. exists (buffer (stack t1)).
    split; [|split].
    + now rewrite Z.add_0_r, set_sp_stack_same.
    + reflexivity.
    + intros k Hk. lia.
  - cbn [svm_push_range] in E.
    rewrite bind_unfold, (read_register_upd _ _ _ _ _ H) in E.
    destruct (zlookup (registers t1) r) as [v|] eqn:Hv; [|discriminate].
    rewrite bind_unfold, (stack_push_upd _ _ _ _ _ H) in E.
    destruct (zinsert (sp t1) v (buffer (stack t1))) as [b1|] eqn:Hb1; [|discriminate].
    rewrite (wrap_u32_small (sp t1 + 1)) in E by (unfold uint32; lia).
    set (t2 := set_sp (sp t1 + 1) (set_stack_buffer b1 t1)) in E.
    destruct (IH (r + 1) t2 vm a t vm' H) as (b & -> & Hlow & Hval).
    { simpl. lia. }
    { simpl. lia. }
    { exact E. }
    exists b. split; [|split].
    + replace (sp t1 + Z.of_nat (S n)) with (sp t1 + 1 + Z.of_nat n) by lia.
      reflexivity.
    + intros j Hj. rewrite Hlow by (simpl; lia). simpl.
      apply (zlookup_zinsert_ne _ _ _ _ _ Hb1). lia.
    + intros k Hk. destruct (Z.eq_dec k 0) as [->|Hk0].
      * exists v. rewrite !Z.add_0_r. split; [exact Hv|].
        rewrite Hlow by (simpl; lia). simpl.
        apply (zlookup_zinsert_eq _ _ _ _ Hb1).
      * destruct (Hval (k - 1)) as (x & Hx1 & Hx2); [lia|].
        exists x. simpl in Hx1, Hx2.
        replace (r + 1 + (k - 1)) with (r + k) in Hx1 by lia.
        replace (sp t1 + 1 + (k - 1)) with (sp t1 + k) in Hx2 by lia.
        auto.
Qed.

(** [n] pops ending at register [lo], on a stack whose [n] top slots
    hold the values that the registers [lo ..] already have: the registers
    keep their values and [sp] drops by [n]. *)
Lemma svm_pop_range_restore n :
  forall lo s t1 vm a t,
    cur vm a t -> 0 <= s -> s + Z.of_nat n < 2 ^ 32 ->
    sp t1 = s + Z.of_nat n ->
    (forall k, 0 <= k < Z.of_nat n ->
       exists v, zlookup (registers t1) (lo + k) = Some v /\
                 zlookup (buffer (stack t1)) (s + k) = Some v) ->
    svm_pop_range n (lo + Z.of_nat n - 1) (upd a t1 vm) =
    Ret tt (upd a (set_sp s t1) vm).
Proof.
  induction n as [|n IH]; intros lo s t1 vm a t H Hs Hn Hsp Hval.
  - simpl. rewrite Z.add_0_r in Hsp. now rewrite <- Hsp, set_sp_same.
  - cbn [svm_pop_range].
    rewrite bind_unfold, (stack_pop_upd _ _ _ _ H).
    replace (wrap_u32 (sp t1 - 1)) with (s + Z.of_nat n)
      by (rewrite wrap_u32_small; unfold uint32; lia).
    destruct (Hval (Z.of_nat n)) as (v & Hv1 & Hv2); [lia|].
    rewrite Hv2, bind_unfold, (write_register_upd _ _ _ _ _ _ H).
    replace (lo + Z.of_nat (S n) - 1) with (lo + Z.of_nat n) by lia.
    cbn [registers set_sp].
    rewrite (zinsert_same _ _ _ Hv1).
    change (set_registers (registers t1) (set_sp (s + Z.of_nat n) t1))
      with (set_sp (s + Z.of_nat n) (set_registers (registers t1) t1)).
    rewrite set_registers_same.
    rewrite (IH lo s (set_sp (s + Z.of_nat n) t1) vm a t H Hs); try reflexivity.
    + lia.
    + intros k Hk. apply Hval. lia.
Qed.

Lemma zlookup_same_length {A} (l l' : list A) i v :
  zlookup l i = Some v -> length l' = length l -> is_Some (zlookup l' i).
Proof.
  unfold zlookup. destruct (i <? 0); [discriminate|].
  intros Hv Hl. apply lookup_lt_is_Some. rewrite Hl.
  exact (lookup_lt_Some _ _ _ Hv).
Qed.

Lemma zlookup_ext {A} (l l' : list A) :
  (forall j, zlookup l j = zlookup l' j) -> l = l'.
Proof.
  intros H. apply list_eq. intros i. specialize (H (Z.of_nat i)).
  unfold zlookup in H.
  replace (Z.of_nat i <? 0) with false in H by (symmetry; apply Z.ltb_ge; lia).
  now rewrite Nat2Z.id in H.
Qed.

(** [n] pops ending at register [lo], whatever the registers hold: the
    first pop takes the top slot into the highest register, and so on
    downwards, so that register [lo + k] receives slot [s + k]; the
    other registers keep their values and [sp] drops by [n]. *)
Lemma svm_pop_range_loads n :
  forall lo s t1 vm a t,
    cur vm a t -> 0 <= s -> s + Z.of_nat n < 2 ^ 32 -> 0 <= lo ->
    sp t1 = s + Z.of_nat n ->
    (forall k, 0 <= k < Z.of_nat n ->
       is_Some (zlookup (buffer (stack t1)) (s + k)) /\
       is_Some (zlookup (registers t1) (lo + k))) ->
    exists regs,
      svm_pop_range n (lo + Z.of_nat n - 1) (upd a t1 vm) =
        Ret tt (upd a (set_sp s (set_registers regs t1)) vm) /\
      length regs = length (registers t1) /\
      (forall k, 0 <= k < Z.of_nat n ->
         zlookup regs (lo + k) = zlookup (buffer (stack t1)) (s + k)) /\
      (forall j, j < lo \/ lo + Z.of_nat n <= j ->
         zlookup regs j = zlookup (registers t1) j).
Proof.
  induction n as [|n IH]; intros lo s t1 vm a t H Hs Hn Hlo Hsp Hval.
  - exists (registers t1). simpl. rewrite Z.add_0_r in Hsp.
    rewrite set_registers_same, <- Hsp, set_sp_same.
    repeat split; try reflexivity. intros k Hk. lia.
  - cbn [svm_pop_range].
    rewrite bind_unfold, (stack_pop_upd _ _ _ _ H).
    replace (wrap_u32 (sp t1 - 1)) with (s + Z.of_nat n)
      by (rewrite wrap_u32_small; unfold uint32; lia).
    destruct (Hval (Z.of_nat n)) as ([v Hv] & [old Hold]); [lia|].
    rewrite Hv, bind_unfold, (write_register_upd _ _ _ _ _ _ H).
    replace (lo + Z.of_nat (S n) - 1) with (lo + Z.of_nat n) by lia.
    cbn [registers set_sp].
    destruct (zinsert (lo + Z.of_nat n) v (registers t1)) as [rs|] eqn:Ers.
    2:{ exfalso. unfold zinsert, zlookup in *.
        destruct (lo + Z.of_nat n <? 0) eqn:E0; [discriminate|].
        apply Z.ltb_ge in E0. apply lookup_lt_Some in Hold.
        replace (0 <=? lo + Z.of_nat n) with true in Ers
          by (symmetry; apply Z.leb_le; lia).
        replace (lo + Z.of_nat n <? Z.of_nat (length (registers t1))) with true in Ers
          by (symmetry; apply Z.ltb_lt; lia).
        discriminate. }
    pose proof (zinsert_Some _ _ _ _ Ers) as [_ Hrs].
    destruct (IH lo s (set_registers rs (set_sp (s + Z.of_nat n) t1)) vm a t H Hs)
      as (regs & E & Hlen & Hin & Hout); [lia | exact Hlo | reflexivity | |].
    { intros k Hk. destruct (Hval k) as [Hb Hr]; [lia|]. split; [exact Hb|].
      cbn [registers set_registers].
      rewrite (zlookup_zinsert_ne _ _ _ _ _ Ers) by lia. exact Hr. }
    exists regs. split; [exact E|].
    cbn [registers set_registers stack set_sp buffer] in Hlen, Hin, Hout.
    split; [rewrite Hlen, Hrs; apply length_insert|]. split.
    + intros k Hk. destruct (Z.eq_dec k (Z.of_nat n)) as [->|Hne].
      * rewrite Hout by lia. rewrite (zlookup_zinsert_eq _ _ _ _ Ers). now rewrite Hv.
      * apply Hin. lia.
    + intros j Hj. rewrite Hout by lia.
      apply (zlookup_zinsert_ne _ _ _ _ _ Ers). lia.
Qed.

(** C3: let the current task fetch [PUSH Rlo,Rhi] with [Rlo < Rhi] under
    a condition that holds, and let the cycle return [SVM_OK].  Then the
    PUSH has stored [Rlo .. Rhi] in ascending order from the old [sp]
    upwards, has raised [sp] by their number and has left the registers
    alone.  Let the task then fetch [POP Rlo,Rhi], again under a
    condition that holds, with [sp] and the stack as the PUSH left them
    and with any values in the registers (as the PUSH left them, when the
    POP follows immediately).  Then the cycle on the POP returns
    [SVM_OK]; it has loaded [Rhi] from the top slot and so on downwards
    to [Rlo], so that each of [Rlo .. Rhi] has its value from before the
    PUSH, whatever it held at the POP; the other registers are as the
    POP found them, and [sp] is the [sp] from before the PUSH.  When the
    POP follows immediately, every register has its value from before the
    PUSH. *)
Theorem push_pop_range_roundtrip vm a t w1 vm1 t1 t1' w2 lo hi :
  0 <= lo < hi -> hi <= 15 ->
  uint32 (sp t) -> uint32 (size (stack t)) ->
  fetches vm a t w1 ->
  opcode_of_byte (op (svm_instruction_of_int32 w1)) = Some OP_PUSH ->
  arg1 (svm_instruction_of_int32 w1) = ARG_R lo ->
  arg2 (svm_instruction_of_int32 w1) = ARG_R hi ->
  svm_check_condition (ext (svm_instruction_of_int32 w1)) vm = Ret true vm ->
  svm_cycle handler vm = Ret tt vm1 ->
  cur vm1 a t1 ->
  sp t1' = sp t1 -> stack t1' = stack t1 ->
  length (registers t1') = length (registers t) ->
  fetches (upd a t1' vm1) a t1' w2 ->
  opcode_of_byte (op (svm_instruction_of_int32 w2)) = Some OP_POP ->
  arg1 (svm_instruction_of_int32 w2) = ARG_R lo ->
  arg2 (svm_instruction_of_int32 w2) = ARG_R hi ->
  svm_check_condition (ext (svm_instruction_of_int32 w2)) (upd a t1' vm1) =
    Ret true (upd a t1' vm1) ->
  sp t1 = sp t + (hi - lo + 1) /\
  registers t1 = registers t /\
  (forall k, 0 <= k <= hi - lo ->
     exists v, zlookup (registers t) (lo + k) = Some v /\
               zlookup (buffer (stack t1)) (sp t + k) = Some v) /\
  exists vm2 t2,
    svm_cycle handler (upd a t1' vm1) = Ret tt vm2 /\
    cur vm2 a t2 /\
    sp t2 = sp t /\
    (forall k, 0 <= k <= hi - lo ->
       zlookup (registers t2) (hi - k) =
         zlookup (buffer (stack t1)) (sp t1 - 1 - k) /\
       zlookup (registers t2) (lo + k) = zlookup (registers t) (lo + k)) /\
    (forall j, j < lo \/ hi < j ->
       zlookup (registers t2) j = zlookup (registers t1') j) /\
    (registers t1' = registers t -> registers t2 = registers t).
Proof.
  intros Hlo Hhi Hsp Hsz F Hop1 Ha1 Hb1 Hc1 E Hcur1 Hsp' Hst' Hlen' F1
    Hop2 Ha2 Hb2 Hc2.
  pose proof F as (H & Hrun & _). unfold ARG_R in *.
  rewrite (svm_check_condition_cur _ _ _ _ H) in Hc1.
  apply Ret_value in Hc1.
  (* the PUSH *)
  rewrite (svm_cycle_fetch _ _ _ _ F) in E.
  unfold svm_cycle_switch in E. rewrite Hop1 in E.
  unfold svm_cycle_push in E. rewrite Ha1, Hb1 in E.
  replace (ARG_R0 + lo =? ARG_IMM) with false in E
    by (symmetry; apply Z.eqb_neq; unfold ARG_R0, ARG_IMM; lia).
  replace (ARG_R0 + hi =? ARG_NONE) with false in E
    by (symmetry; apply Z.eqb_neq; unfold ARG_R0, ARG_NONE; lia).
  rewrite bind_unfold, ret_unfold, bind_unfold in E.
  rewrite (svm_check_condition_upd _ _ _ _ _ H) in E.
  cbn [flags set_pc] in E. rewrite Hc1 in E. cbn [negb] in E.
  rewrite !svm_arg_to_reg_register in E by lia.
  replace (lo <? hi) with true in E by (symmetry; apply Z.ltb_lt; lia).
  cbn [negb] in E.
  rewrite bind_unfold, (get_task_upd _ _ _ _ H) in E.
  cbn [sp stack set_pc] in E.
  destruct (sp t + hi - lo >=? size (stack t)) eqn:Hroom; [discriminate|].
  rewrite Z.geb_leb in Hroom. apply Z.leb_gt in Hroom.
  unfold uint32 in Hsp, Hsz.
  set (n := Z.to_nat (hi - lo + 1)) in *.
  assert (Hn : Z.of_nat n = hi - lo + 1) by (unfold n; lia).
  set (t0 := set_pc (wrap_u32 (pc t + 1)) t) in *.
  destruct (svm_push_range_spec n lo t0 vm a t vm1 H) as (b & -> & Hlow & Hval);
    [simpl; lia | simpl; lia | exact E |].
  cbn [sp set_pc t0] in Hval, Hlow.
  change (registers t0) with (registers t) in Hval.
  (* the task that the PUSH leaves, and the one that the POP finds *)
  destruct (cur_inj _ _ _ _ _ Hcur1 (cur_upd _ _ _ _ H)) as [_ ->].
  cbn [sp stack set_sp set_stack_buffer set_pc t0] in Hsp', Hst'.
  rewrite upd_upd in F1, Hc2. rewrite upd_upd.
  rewrite (svm_check_condition_upd _ _ _ _ _ H) in Hc2.
  apply Ret_value in Hc2.
  split; [cbn; lia|].
  split; [reflexivity|].
  split; [intros k Hk; apply Hval; lia|].
  (* the POP *)
  pose proof (svm_cycle_fetch _ _ _ _ F1) as E2.
  rewrite upd_upd in E2.
  unfold svm_cycle_switch in E2. rewrite Hop2 in E2.
  unfold svm_cycle_pop in E2. rewrite Ha2, Hb2 in E2.
  rewrite bind_unfold, (svm_check_condition_upd _ _ _ _ _ H) in E2.
  cbn [flags set_pc] in E2.
  rewrite Hc2 in E2. cbn [negb] in E2.
  rewrite !svm_is_arg_register_register in E2 by lia.
  replace (ARG_R0 + hi =? ARG_NONE) with false in E2
    by (symmetry; apply Z.eqb_neq; unfold ARG_R0, ARG_NONE; lia).
  cbn [andb negb] in E2.
  rewrite !svm_arg_to_reg_register in E2 by lia.
  replace (lo <? hi) with true in E2 by (symmetry; apply Z.ltb_lt; lia).
  cbn [negb] in E2.
  rewrite bind_unfold, (get_task_upd _ _ _ _ H) in E2.
  cbn [sp set_pc] in E2. rewrite Hsp' in E2.
  replace (sp t + Z.of_nat n <? hi - lo) with false in E2
    by (symmetry; apply Z.ltb_ge; lia).
  fold n in E2.
  replace hi with (lo + Z.of_nat n - 1) in E2 at 1 by lia.
  destruct (svm_pop_range_loads n lo (sp t)
              (set_pc (wrap_u32 (pc t1' + 1)) t1') vm a t H)
    as (regs & Epop & Hlen & Hin & Hout);
    [lia | lia | lia | cbn [sp set_pc]; exact Hsp' | |].
  { intros k Hk. cbn [stack registers set_pc]. rewrite Hst'.
    cbn [stack buffer set_sp set_stack_buffer].
    destruct (Hval k) as (v & Hv1 & Hv2); [lia|].
    split; [now exists v | exact (zlookup_same_length _ _ _ _ Hv1 Hlen')]. }
  rewrite Epop in E2.
  cbn [stack registers set_pc] in Hlen, Hin, Hout.
  rewrite Hst' in Hin. cbn [stack buffer set_sp set_stack_buffer] in Hin.
  assert (Hregs : forall k, 0 <= k <= hi - lo ->
            zlookup regs (lo + k) = zlookup (registers t) (lo + k)).
  { intros k Hk. rewrite Hin by lia.
    destruct (Hval k) as (v & Hv1 & Hv2); [lia|]. congruence. }
  eexists _, _. split; [exact E2|].
  split; [eapply cur_upd, H|].
  cbn [sp registers set_sp set_registers stack buffer set_stack_buffer].
  split; [reflexivity|]. split; [|split].
  - intros k Hk. split; [|apply Hregs; exact Hk].
    replace (hi - k) with (lo + (hi - lo - k)) by lia.
    rewrite Hin by lia. change (sp t0) with (sp t). f_equal. lia.
  - intros j Hj. apply Hout. lia.
  - intros Hsame. apply zlookup_ext. intros j.
    destruct (Z_lt_dec j lo) as [Hj|Hj]; [rewrite Hout by lia; now rewrite Hsame|].
    destruct (Z_lt_dec hi j) as [Hj'|Hj']; [rewrite Hout by lia; now rewrite Hsame|].
    replace j with (lo + (j - lo)) by lia. apply Hregs. lia.
Qed.

(** *** The single-register POP *)

(** What [POP Rd] does when its condition holds and [sp >= 1]: [Rd]
    receives the slot at index [sp], the slot above the top of the stack,
    and [sp] drops by one.  The top of the stack, slot [sp - 1], is not
    read. *)
Lemma svm_cycle_pop_single vm a t w r v :
  fetches vm a t w ->
  opcode_of_byte (op (svm_instruction_of_int32 w)) = Some OP_POP ->
  arg1 (svm_instruction_of_int32 w) = ARG_R r ->
  arg2 (svm_instruction_of_int32 w) = ARG_NONE ->
  condition (ext (svm_instruction_of_int32 w)) (flags t) = true ->
  0 <= r <= 15 -> length (registers t) = 16%nat ->
  1 <= sp t ->
  zlookup (buffer (stack t)) (sp t) = Some v ->
  svm_cycle handler vm =
  Ret tt (upd a (set_sp (wrap_u32 (sp t - 1))
                  (set_registers (<[Z.to_nat r := v]> (registers t))
                     (set_pc (wrap_u32 (pc t + 1)) t))) vm).
Proof.
  intros F Hop Ha Hb Hc Hr Hl Hsp Hv. pose proof F as (H & _).
  rewrite (svm_cycle_fetch _ _ _ _ F).
  unfold svm_cycle_switch. rewrite Hop. unfold svm_cycle_pop.
  rewrite Ha, Hb. unfold ARG_R.
  rewrite bind_unfold, (svm_check_condition_upd _ _ _ _ _ H).
  cbn [flags set_pc]. rewrite Hc. cbn [negb].
  rewrite svm_is_arg_register_register by lia.
  cbn [andb Z.eqb ARG_NONE].
  rewrite bind_unfold, (get_task_upd _ _ _ _ H).
  cbn [sp stack set_pc].
  replace (sp t <? 1) with false by (symmetry; apply Z.ltb_ge; lia).
  rewrite Hv. cbn [defined]. rewrite bind_unfold, ret_unfold.
  rewrite svm_arg_to_reg_register by lia.
  rewrite bind_unfold, (write_register_upd _ _ _ _ _ _ H).
  cbn [registers set_pc]. unfold zinsert.
  replace (0 <=? r) with true by (symmetry; apply Z.leb_le; lia).
  replace (r <? Z.of_nat (length (registers t))) with true
    by (symmetry; apply Z.ltb_lt; lia).
  cbn [andb].
  now rewrite (modify_task_upd _ _ _ _ _ H).
Qed.

(** *** Errors leave the task as it was, up to [pc] *)

Lemma no_err_ret {A} (x : A) : no_err (mret x : M Ctx A).
Proof. intros vm e vm'. discriminate. Qed.

Lemma no_err_bind {A B} (m : M Ctx A) (k : A -> M Ctx B) :
  no_err m -> (forall x, no_err (k x)) -> no_err (m ≫= k).
Proof.
  intros Hm Hk vm e vm'. rewrite bind_unfold.
  destruct (m vm) as [|x vm1|e1 vm1] eqn:E; [discriminate|apply Hk|].
  exfalso. exact (Hm _ _ _ E).
Qed.

Lemma no_err_defined {A} (o : option A) : no_err (defined o : M Ctx A).
Proof. intros vm e vm'. destruct o; discriminate. Qed.

Lemma no_err_modify f : no_err (modify f : M Ctx unit).
Proof. intros vm e vm'. discriminate. Qed.

Lemma no_err_get_code : no_err (get_code : M Ctx svm_code_t).
Proof. intros vm e vm'. discriminate. Qed.

Lemma no_err_get_ctx : no_err (get_ctx : M Ctx Ctx).
Proof. intros vm e vm'. discriminate. Qed.

Lemma no_err_get_task : no_err (get_task : M Ctx svm_task_t).
Proof.
  intros vm e vm'. unfold get_task.
  destruct (task_current vm); [|discriminate].
  destruct (tasks vm !! _); discriminate.
Qed.

Lemma no_err_put_task t : no_err (put_task t : M Ctx unit).
Proof.
  intros vm e vm'. unfold put_task.
  destruct (task_current vm); [|discriminate].
  destruct (tasks vm !! _); discriminate.
Qed.

Create HintDb no_err.
Hint Resolve no_err_ret no_err_defined no_err_modify no_err_get_code
  no_err_get_ctx no_err_get_task no_err_put_task : no_err.

Ltac solve_no_err :=
  repeat first
    [ apply no_err_bind; [|intros]
    | progress auto with no_err
    | match goal with
      | |- no_err (if ?c then _ else _) => destruct c
      | |- no_err (match ?o with _ => _ end) => destruct o
      end ].

Lemma no_err_modify_task f : no_err (modify_task f : M Ctx unit).
Proof. unfold modify_task. solve_no_err. Qed.

Lemma no_err_read_register r : no_err (read_register r : M Ctx Z).
Proof. unfold read_register. solve_no_err. Qed.

Lemma no_err_write_register r v : no_err (write_register r v : M Ctx unit).
Proof. unfold write_register. solve_no_err. Qed.

Lemma no_err_stack_push v : no_err (stack_push v : M Ctx unit).
Proof. unfold stack_push. solve_no_err. Qed.

Lemma no_err_stack_pop : no_err (stack_pop : M Ctx Z).
Proof. unfold stack_pop. solve_no_err. Qed.

Hint Resolve no_err_modify_task no_err_read_register no_err_write_register
  no_err_stack_push no_err_stack_pop : no_err.

Lemma no_err_svm_get_arg_value type : no_err (svm_get_arg_value type : M Ctx Z).
Proof. unfold svm_get_arg_value. solve_no_err. Qed.

Lemma no_err_svm_check_condition e : no_err (svm_check_condition e : M Ctx bool).
Proof. unfold svm_check_condition. solve_no_err. Qed.

Lemma no_err_svm_check_value_set_nz_z_flags v :
  no_err (svm_check_value_set_nz_z_flags v : M Ctx unit).
Proof. unfold svm_check_value_set_nz_z_flags. solve_no_err. Qed.

Lemma no_err_svm_set_flag_by_ext e b : no_err (svm_set_flag_by_ext e b : M Ctx Z).
Proof. unfold svm_set_flag_by_ext. solve_no_err. Qed.

Hint Resolve no_err_svm_get_arg_value no_err_svm_check_condition
  no_err_svm_check_value_set_nz_z_flags no_err_svm_set_flag_by_ext : no_err.

Lemma no_err_svm_push_range n : forall r, no_err (svm_push_range n r : M Ctx unit).
Proof. induction n; intros r; cbn [svm_push_range]; solve_no_err. Qed.

Lemma no_err_svm_pop_range n : forall r, no_err (svm_pop_range n r : M Ctx unit).
Proof. induction n; intros r; cbn [svm_pop_range]; solve_no_err. Qed.

Hint Resolve no_err_svm_push_range no_err_svm_pop_range : no_err.

Lemma no_err_svm_cycle_cmp i : no_err (svm_cycle_cmp i : M Ctx unit).
Proof. unfold svm_cycle_cmp. solve_no_err. Qed.

Lemma no_err_svm_cycle_sys i : no_err (svm_cycle_sys handler i).
Proof. unfold svm_cycle_sys. solve_no_err. Qed.

(** The operand fetch either is undefined or returns with [pc] moved. *)
Lemma svm_get_arg_value_cases vm a t t1 type :
  cur vm a t ->
  svm_get_arg_value type (upd a t1 vm) = Undefined \/
  exists x p, svm_get_arg_value type (upd a t1 vm) = Ret x (upd a (set_pc p t1) vm).
Proof.
  intros H.
  destruct (svm_get_arg_value type (upd a t1 vm)) as [|x vm1|e vm1] eqn:E.
  - now left.
  - right. destruct (svm_get_arg_value_shape _ _ _ _ _ _ _ H E) as [p ->]. eauto.
  - exfalso. exact (no_err_svm_get_arg_value _ _ _ _ E).
Qed.

(** An equation [Err e s = Err e' vm'] in [E] settles the goal. *)
Ltac err_here E :=
  injection E as _ <-; eexists; reflexivity.

Lemma svm_cycle_binop_error f i vm a t t1 e vm' :
  cur vm a t ->
  svm_cycle_binop f i (upd a t1 vm) = Err e vm' ->
  exists p, vm' = upd a (set_pc p t1) vm.
Proof.
  intros H E. unfold svm_cycle_binop in E. rewrite bind_unfold in E.
  destruct (svm_get_arg_value_cases vm a t t1 (arg2 i) H) as [U|(x & p & R)];
    [rewrite U in E; discriminate|rewrite R in E].
  rewrite bind_unfold, (svm_check_condition_upd _ _ _ _ _ H) in E.
  destruct (condition _ _); cbn [negb] in E; [|discriminate].
  destruct (svm_arg_to_reg (arg1 i) <? R_MAX); cbn [negb] in E.
  - exfalso. revert E. generalize (upd a (set_pc p t1) vm). intros s.
    generalize s e vm'. change (no_err
      (old ← read_register (svm_arg_to_reg (arg1 i));
       v ← defined (f old x);
       write_register (svm_arg_to_reg (arg1 i)) v;;
       v' ← read_register (svm_arg_to_reg (arg1 i));
       (svm_check_value_set_nz_z_flags v' : M Ctx unit))).
    solve_no_err.
  - err_here E.
Qed.

Lemma svm_cycle_push_error i vm a t t1 e vm' :
  cur vm a t ->
  svm_cycle_push i (upd a t1 vm) = Err e vm' ->
  exists p, vm' = upd a (set_pc p t1) vm.
Proof.
  intros H E. unfold svm_cycle_push in E. rewrite bind_unfold in E.
  assert (exists p,
    (if arg1 i =? ARG_IMM then svm_get_arg_value (arg1 i) else mret 0) (upd a t1 vm)
      = Undefined \/
    exists x, (if arg1 i =? ARG_IMM then svm_get_arg_value (arg1 i) else mret 0)
                (upd a t1 vm) = Ret x (upd a (set_pc p t1) vm)) as (p & [U|(x & R)]).
  { destruct (arg1 i =? ARG_IMM).
    - destruct (svm_get_arg_value_cases vm a t t1 (arg1 i) H) as [U|(x & p & R)];
        [exists 0; now left | exists p; right; eauto].
    - exists (pc t1). right. exists 0. now rewrite set_pc_same. }
  { rewrite U in E. discriminate. }
  rewrite R in E. clear R.
  rewrite bind_unfold, (svm_check_condition_upd _ _ _ _ _ H) in E.
  destruct (condition _ _); cbn [negb] in E; [|discriminate].
  destruct (arg1 i =? ARG_IMM).
  { rewrite bind_unfold, (get_task_upd _ _ _ _ H) in E.
    destruct (_ >=? _); [err_here E|].
    exfalso. exact (no_err_stack_push _ _ _ _ E). }
  destruct (arg2 i =? ARG_NONE).
  { rewrite bind_unfold, (get_task_upd _ _ _ _ H) in E.
    destruct (_ >=? _); [err_here E|].
    exfalso. revert E. generalize (upd a (set_pc p t1) vm). intros s.
    generalize s e vm'. change (no_err
      (v ← read_register (svm_arg_to_reg (arg1 i)); (stack_push v : M Ctx unit))).
    solve_no_err. }
  destruct (svm_arg_to_reg (arg1 i) <? svm_arg_to_reg (arg2 i));
    cbn [negb] in E; [|err_here E].
  rewrite bind_unfold, (get_task_upd _ _ _ _ H) in E.
  destruct (_ >=? _); [err_here E|].
  exfalso. exact (no_err_svm_push_range _ _ _ _ _ E).
Qed.

Lemma svm_cycle_pop_error i vm a t t1 e vm' :
  cur vm a t ->
  svm_cycle_pop i (upd a t1 vm) = Err e vm' ->
  vm' = upd a t1 vm.
Proof.
  intros H E. unfold svm_cycle_pop in E.
  rewrite bind_unfold, (svm_check_condition_upd _ _ _ _ _ H) in E.
  destruct (condition _ _); cbn [negb] in E; [|discriminate].
  destruct (svm_is_arg_register (arg1 i) && (arg2 i =? ARG_NONE)).
  { rewrite bind_unfold, (get_task_upd _ _ _ _ H) in E.
    destruct (_ <? _); [now injection E as _ <-|].
    exfalso. revert E. generalize (upd a t1 vm). intros s.
    generalize s e vm'. change (no_err
      (v ← defined (zlookup (buffer (stack t1)) (sp t1));
       write_register (svm_arg_to_reg (arg1 i)) v;;
       (modify_task (fun t => set_sp (wrap_u32 (sp t - 1)) t) : M Ctx unit))).
    solve_no_err. }
  destruct (svm_is_arg_register (arg1 i)); cbn [negb] in E;
    [|now injection E as _ <-].
  destruct (svm_is_arg_register (arg2 i)); cbn [negb] in E;
    [|now injection E as _ <-].
  destruct (svm_arg_to_reg (arg1 i) <? svm_arg_to_reg (arg2 i));
    cbn [negb] in E; [|now injection E as _ <-].
  rewrite bind_unfold, (get_task_upd _ _ _ _ H) in E.
  destruct (_ <? _); [now injection E as _ <-|].
  exfalso. exact (no_err_svm_pop_range _ _ _ _ _ E).
Qed.

Lemma svm_cycle_jmp_error i vm a t t1 e vm' :
  cur vm a t ->
  svm_cycle_jmp i (upd a t1 vm) = Err e vm' ->
  exists p, vm' = upd a (set_pc p t1) vm.
Proof.
  intros H E. unfold svm_cycle_jmp in E. rewrite bind_unfold in E.
  destruct (svm_get_arg_value_cases vm a t t1 (arg1 i) H) as [U|(x & p & R)];
    [rewrite U in E; discriminate|rewrite R in E].
  rewrite bind_unfold, (svm_check_condition_upd _ _ _ _ _ H) in E.
  destruct (condition _ _); cbn [negb] in E; [|discriminate].
  rewrite bind_unfold, get_code_upd in E.
  destruct (_ <? _); [|err_here E].
  rewrite (modify_task_upd _ _ _ _ _ H) in E. discriminate.
Qed.

(** [OP_INV] is the one case that reports an error after it has changed
    more than [pc]: the return address is pushed before the target is
    tested. *)
Lemma svm_cycle_inv_error i vm a t t1 e vm' :
  cur vm a t ->
  svm_cycle_inv i (upd a t1 vm) = Err e vm' ->
  (exists p, vm' = upd a (set_pc p t1) vm) \/
  (e = SVM_ERR_JMP_OVERFLOW /\
   exists p b, vm' = upd a (set_rpc (wrap_u32 (rpc t1 + 1))
                             (set_call_stack_buffer b (set_pc p t1))) vm).
Proof.
  intros H E. unfold svm_cycle_inv in E. rewrite bind_unfold in E.
  destruct (svm_get_arg_value_cases vm a t t1 (arg1 i) H) as [U|(x & p & R)];
    [rewrite U in E; discriminate|rewrite R in E].
  rewrite bind_unfold, (svm_check_condition_upd _ _ _ _ _ H) in E.
  destruct (condition _ _); cbn [negb] in E; [|discriminate].
  rewrite bind_unfold, (get_task_upd _ _ _ _ H) in E.
  destruct (_ >=? _); [left; err_here E|].
  rewrite bind_unfold in E.
  destruct (zinsert _ _ _) as [b|]; cbn [defined] in E; [|discriminate].
  rewrite ret_unfold, bind_unfold, (put_task_upd _ _ _ _ _ H) in E.
  rewrite bind_unfold, get_code_upd in E.
  destruct (_ <? _).
  - rewrite (modify_task_upd _ _ _ _ _ H) in E. discriminate.
  - right. injection E as <- <-. split; [reflexivity|]. eexists _, _. reflexivity.
Qed.

Lemma svm_cycle_ret_error vm a t t1 e vm' :
  cur vm a t ->
  svm_cycle_ret (upd a t1 vm) = Err e vm' ->
  vm' = upd a t1 vm.
Proof.
  intros H E. unfold svm_cycle_ret in E.
  rewrite bind_unfold, (get_task_upd _ _ _ _ H) in E.
  destruct (_ >? _); [|now injection E as _ <-].
  rewrite bind_unfold in E.
  destruct (zlookup _ _); cbn [defined] in E; [|discriminate].
  rewrite ret_unfold, (put_task_upd _ _ _ _ _ H) in E. discriminate.
Qed.

(** Every error of a cycle leaves the current task as it was up to [pc],
    with two exceptions: the code overflow clears the running flag of the
    VM, and [OP_INV] with a target outside the code has pushed the return
    address. *)
Lemma svm_cycle_error_frame vm a t e vm' :
  cur vm a t ->
  svm_cycle handler vm = Err e vm' ->
  (exists p, vm' = upd a (set_pc p t) vm) \/
  (e = SVM_ERR_CODE_OVERFLOW /\ vm' = set_running false vm) \/
  (e = SVM_ERR_JMP_OVERFLOW /\
   exists p b, vm' = upd a (set_rpc (wrap_u32 (rpc t + 1))
                             (set_call_stack_buffer b (set_pc p t))) vm).
Proof.
  intros H E. unfold svm_cycle in E.
  destruct (running vm); cbn [negb] in E.
  2:{ left. exists (pc t). injection E as _ <-.
      now rewrite set_pc_same, (upd_same _ _ _ H). }
  rewrite <- (upd_same _ _ _ H) in E at 1.
  rewrite bind_unfold, (get_task_upd _ _ _ _ H) in E.
  rewrite bind_unfold, get_code_upd in E.
  destruct (pc t >=? code_size (code vm)).
  { right. left. rewrite (upd_same _ _ _ H) in E.
    injection E as <- <-. auto. }
  rewrite bind_unfold in E.
  destruct (zlookup _ _) as [w|]; cbn [defined] in E; [|discriminate].
  rewrite ret_unfold, bind_unfold, (put_task_upd _ _ _ _ _ H) in E.
  set (t0 := set_pc (wrap_u32 (pc t + 1)) t) in *.
  set (i := svm_instruction_of_int32 w) in *.
  unfold svm_cycle_switch in E.
  assert (Hpc : forall p, set_pc p t0 = set_pc p t) by reflexivity.
  destruct (opcode_of_byte (op i)) as [[]|];
    try discriminate E;
    try (left; destruct (svm_cycle_binop_error _ _ _ _ _ _ _ _ H E) as [p ->];
         exists p; now rewrite Hpc).
  - left. destruct (svm_cycle_push_error _ _ _ _ _ _ _ H E) as [p ->].
    exists p. now rewrite Hpc.
  - left. rewrite (svm_cycle_pop_error _ _ _ _ _ _ _ H E). now exists (pc t0).
  - exfalso. exact (no_err_svm_cycle_cmp _ _ _ _ E).
  - exfalso. revert E. generalize (upd a t0 vm). intros s.
    generalize s e vm'. change (no_err
      (svm_set_flag_by_ext (ext i) false;; (mret tt : M Ctx unit))).
    solve_no_err.
  - left. destruct (svm_cycle_jmp_error _ _ _ _ _ _ _ H E) as [p ->].
    exists p. now rewrite Hpc.
  - destruct (svm_cycle_inv_error _ _ _ _ _ _ _ H E) as [[p ->]|(-> & p & b & ->)].
    + left. exists p. now rewrite Hpc.
    + right. right. split; [reflexivity|]. exists p, b. reflexivity.
  - left. rewrite (svm_cycle_ret_error _ _ _ _ _ _ H E). now exists (pc t0).
  - exfalso. exact (no_err_svm_cycle_sys _ _ _ _ E).
  - left. injection E as _ <-. now exists (pc t0).
Qed.

End CycleFacts.

(** ** Facts about the task list *)

Section SchedulerFacts.
Context {Ctx : Type}.
Implicit Types (vm : svm_t Ctx) (m : gmap positive svm_task_t).

(** The loop of [svm_task_remove] tests [task->next == task], which does
    not depend on [tmp]: unless the task is its own successor the loop
    runs to the end of the list. *)
Lemma svm_task_remove_scan_end m p tp tmp :
  m !! p = Some tp -> next tp <> Some p ->
  null_terminated m tmp ->
  exists n, forall fuel, (n <= fuel)%nat ->
    svm_task_remove_scan fuel m p tmp = ScanEnd None.
Proof.
  intros Hp Hn Hnt. induction Hnt as [|q t Hq Hnt [n IH]].
  - exists O. intros fuel _. now destruct fuel.
  - exists (S n). intros fuel Hf.
    destruct fuel as [|fuel]; [lia|].
    cbn [svm_task_remove_scan]. rewrite Hp.
    destruct (decide (next tp = Some p)) as [E|_]; [contradiction|].
    rewrite Hq. apply IH. lia.
Qed.

(** Removing the head: the head pointer moves to the successor and the
    stacks of the task are released. *)
Lemma svm_task_remove_head fuel vm p tp :
  task_head vm = Some p -> tasks vm !! p = Some tp ->
  svm_task_remove fuel (Some p) vm =
  Some (Ret tt
    (set_tasks (<[p := set_stack_buffer [] (set_call_stack_buffer [] tp)]> (tasks vm))
       (set_task_head (next tp) vm))).
Proof.
  intros Hh Hp. unfold svm_task_remove.
  destruct (decide (task_head vm = Some p)) as [_|N]; [|contradiction].
  f_equal. rewrite bind_unfold. unfold deref at 1. rewrite Hh, Hp.
  rewrite bind_unfold. unfold modify. unfold svm_task_deinit.
  rewrite bind_unfold. unfold deref, store.
  cbn. rewrite Hp. cbn. now rewrite Hp.
Qed.

(** C7, what the code does: in a VM whose task list is well formed,
    [svm_task_remove] of a task that is not the head (and is not its own
    successor) returns [SVM_ERR_TASK_NOT_FOUND] and leaves the VM as it
    was, whether or not the task is in the list: it is neither unlinked
    nor deinitialized. *)
Theorem svm_task_remove_misses_listed_task vm h th p tp :
  task_head vm = Some h -> tasks vm !! h = Some th -> h <> p ->
  tasks vm !! p = Some tp -> next tp <> Some p ->
  null_terminated (tasks vm) (next th) ->
  exists n, forall fuel, (n <= fuel)%nat ->
    svm_task_remove fuel (Some p) vm = Some (Err SVM_ERR_TASK_NOT_FOUND vm).
Proof.
  intros Hh Hth Hne Hp Hn Hnt.
  destruct (svm_task_remove_scan_end _ _ _ _ Hp Hn Hnt) as [n Hscan].
  exists n. intros fuel Hf. unfold svm_task_remove.
  destruct (decide (task_head vm = Some p)) as [E|_]; [congruence|].
  unfold deref. rewrite Hh, Hth. now rewrite (Hscan fuel Hf).
Qed.

End SchedulerFacts.

(** ** Facts about [svm_to_int32] *)

(** The first branch of the loop tests [c < '9']: the digit 9 falls
    through all three branches, so a text that contains it is rejected
    in every base. *)
Lemma svm_to_int32_loop_nine base s1 s2 :
  forall v, fst (svm_to_int32_loop base (String.append s1 (String "9" s2)) v) = false.
Proof.
  induction s1 as [|ch s1 IH]; intros v.
  - reflexivity.
  - change (String.append (String ch s1) (String "9" s2))
      with (String ch (String.append s1 (String "9" s2))).
    cbn [svm_to_int32_loop].
    repeat match goal with
           | |- context [if ?c then _ else _] => destruct c
           end; try apply IH; reflexivity.
Qed.

(** C8, what the code does: the digit 9 is rejected, the letters
    [a .. f] and [A .. F] count from 0 instead of from 10, and they are
    accepted whatever the base, as is every digit below 9. *)
Theorem svm_to_int32_wrong_digits :
  (forall base s1 s2 v,
     fst (svm_to_int32_loop base (String.append s1 (String "9" s2)) v) = false) /\
  svm_to_int32 "9" = (false, 0) /\
  spec_literal_value 10 "9" 0 = Some 9 /\
  svm_to_int32 "0xff" = (true, 85) /\
  spec_literal_value 16 "ff" 0 = Some 255 /\
  svm_to_int32 "12a" = (true, 120) /\
  spec_literal_value 10 "12a" 0 = None /\
  svm_to_int32 "0b12" = (true, 4) /\
  spec_literal_value 2 "12" 0 = None.
Proof.
  split; [intros; apply svm_to_int32_loop_nine|].
  repeat split; reflexivity.
Qed.

(** ** Facts about [svm_asm_next_token] *)

(** No character is both a newline and a NUL, so the condition of the
    comment loop is always true: the loop runs off the buffer. *)
Lemma skip_comment_runs_off l : forall p, skip_comment l p = None.
Proof.
  induction l as [|c l IH]; intros p; [reflexivity|].
  cbn [skip_comment].
  destruct (Ascii.eqb_spec c LF) as [->|_]; cbn; apply IH.
Qed.

(** C9, what the code does: whenever the first character that is not a
    space or a newline is ['#'], [svm_asm_next_token] never returns a
    token: its comment loop reads past the end of the buffer. *)
Theorem svm_asm_next_token_comment_runs_off buf source source_end :
  (source < source_end)%nat ->
  first_nonblank buf source = Some "#"%char ->
  svm_asm_next_token buf source source_end = TokUndefined.
Proof.
  intros Hlt Hc. unfold svm_asm_next_token, first_nonblank in *.
  replace (source_end <=? source)%nat with false
    by (symmetry; apply Nat.leb_gt; exact Hlt).
  destruct (skip_blank (drop source buf) source) as [p1|]; [|reflexivity].
  rewrite Hc. cbn. now rewrite skip_comment_runs_off.
Qed.

(** ** The statements on concrete machines *)

Lemma fetches_vm_with words t w :
  pc t = 0 -> words !! 0%nat = Some w -> fetches (vm_with words t) 1 t w.
Proof.
  intros Hpc Hw. unfold fetches, cur. cbn. rewrite Hpc.
  repeat split; try reflexivity.
  - destruct words; [discriminate|]. cbn. lia.
  - exact Hw.
Qed.

(** C1, as stated, fails.  [end.eq] on a task whose EQ flag is false
    clears the running flag of the VM.  [ret.eq] on such a task, after an
    [inv], returns: [pc] becomes the return address 2 and [rpc] drops to 0.
    [mov.eq 5 r0] moves [pc] past the instruction word only: the literal
    of its first operand is not fetched. *)
Lemma end_ignores_false_condition :
  (svm_check_condition
     (ext (svm_instruction_of_int32 (word OP_END EXT_EQ ARG_NONE ARG_NONE)))
     vm_end_eq = Ret false vm_end_eq /\
   svm_cycle weak_sys_handler vm_end_eq =
     Ret tt (set_running false (upd 1 (set_pc 1 (fresh_task zero_registers)) vm_end_eq)) /\
   svm_cycle weak_sys_handler vm_end_eq <>
     Ret tt (upd 1 (set_pc 1 (fresh_task zero_registers)) vm_end_eq)) /\
  (svm_cycle weak_sys_handler vm_ret_eq = Ret tt (upd 1 task_called vm_ret_eq) /\
   svm_check_condition
     (ext (svm_instruction_of_int32 (word OP_RET EXT_EQ ARG_NONE ARG_NONE)))
     (upd 1 task_called vm_ret_eq) = Ret false (upd 1 task_called vm_ret_eq) /\
   svm_cycle weak_sys_handler (upd 1 task_called vm_ret_eq) =
     Ret tt (upd 1 (set_pc 2 (set_rpc 0 task_called)) vm_ret_eq)) /\
  (svm_check_condition
     (ext (svm_instruction_of_int32 (word OP_MOV EXT_EQ ARG_IMM (ARG_R 0))))
     vm_mov_imm_first = Ret false vm_mov_imm_first /\
   svm_cycle weak_sys_handler vm_mov_imm_first =
     Ret tt (upd 1 (set_pc 1 (fresh_task zero_registers)) vm_mov_imm_first)).
Proof.
  split; [|split].
  - split; [reflexivity|]. split; [vm_compute; reflexivity|].
    intros E. vm_compute in E. discriminate E.
  - repeat split; vm_compute; reflexivity.
  - repeat split; vm_compute; reflexivity.
Qed.

Lemma false_condition_only_advances_pc_witness :
  svm_cycle weak_sys_handler vm_mov_eq =
  Ret tt (upd 1 (set_pc 2 (fresh_task zero_registers)) vm_mov_eq).
Proof.
  apply (false_condition_only_advances_pc weak_sys_handler vm_mov_eq 1
           (fresh_task zero_registers) (word OP_MOV EXT_EQ (ARG_R 0) ARG_IMM) OP_MOV).
  - apply fetches_vm_with; reflexivity.
  - reflexivity.
  - reflexivity.
  - reflexivity.
  - reflexivity.
  - intros _. exists 99. reflexivity.
Defined.

(** C6, as stated, fails: with the suffix byte 9 the condition is false
    and [mov r0 5] leaves [r0] at 0, whereas with the suffix NONE it
    writes 5. *)
Lemma invalid_extension_is_not_none :
  EXT_MAX <= ext (svm_instruction_of_int32 (raw_word 2 9 (ARG_R 0) ARG_IMM)) /\
  svm_check_condition 9 vm_mov_ext9 = Ret false vm_mov_ext9 /\
  registers <$> result_task (svm_cycle weak_sys_handler vm_mov_ext9) 1 =
    Some zero_registers /\
  registers <$> result_task (svm_cycle weak_sys_handler vm_mov_none) 1 =
    Some (5 :: replicate 15 0).
Proof.
  split; [apply Z.leb_le; reflexivity|].
  repeat split; vm_compute; reflexivity.
Qed.

Lemma unknown_opcode_and_extension_witness :
  svm_cycle weak_sys_handler vm_op20 =
    Err SVM_ERR_UNKNOWN_INSTRUCTION (upd 1 (set_pc 1 (fresh_task zero_registers)) vm_op20) /\
  svm_check_condition 9 vm_mov_ext9 = Ret false vm_mov_ext9 /\
  svm_cycle weak_sys_handler vm_mov_ext9 =
    Ret tt (upd 1 (set_pc 2 (fresh_task zero_registers)) vm_mov_ext9).
Proof.
  split.
  - apply (unknown_opcode_and_extension weak_sys_handler vm_op20 1
             (fresh_task zero_registers) (raw_word 20 0 0 0)).
    + apply fetches_vm_with; reflexivity.
    + apply Z.leb_le. reflexivity.
  - destruct (unknown_opcode_and_extension weak_sys_handler vm_mov_ext9 1
                (fresh_task zero_registers) (raw_word 2 9 (ARG_R 0) ARG_IMM))
      as [_ H2].
    + apply fetches_vm_with; reflexivity.
    + destruct H2 as [Hc Hs]; [apply Z.leb_le; reflexivity|].
      split; [exact Hc|].
      apply (Hs OP_MOV); try reflexivity.
      intros _. exists 5. reflexivity.
Defined.

Lemma cmp_sets_and_never_clears_witness :
  exists vm' t',
    svm_cycle weak_sys_handler vm_cmp_flagged = Ret tt vm' /\ cur vm' 1 t' /\
    flag_eq (flags t') = true /\ flag_ne (flags t') = true /\
    flag_lt (flags t') = true /\ flag_le (flags t') = true /\
    flag_gt (flags t') = true /\ flag_ge (flags t') <> true /\
    flag_nz (flags t') = false /\ flag_z (flags t') = true.
Proof.
  destruct (cmp_sets_and_never_clears weak_sys_handler vm_cmp_flagged 1
              (set_flags eq_gt_z_flags task_r0_5)
              (word OP_CMP EXT_NONE (ARG_R 0) ARG_IMM) 5 7
              (upd 1 (set_pc 1 (set_flags eq_gt_z_flags task_r0_5)) vm_cmp_flagged)
              (upd 1 (set_pc 2 (set_flags eq_gt_z_flags task_r0_5)) vm_cmp_flagged))
    as (vm' & t' & E & Hc & _ & _ &
        (Heq & Hne & Hlt & Hle & Hgt & Hge & Hnz & Hz) & _ & _).
  - apply fetches_vm_with; reflexivity.
  - reflexivity.
  - vm_compute. reflexivity.
  - vm_compute. reflexivity.
  - exists vm', t'.
    split; [exact E|]. split; [exact Hc|].
    split; [apply Heq; left; reflexivity|].
    split; [apply Hne; right; lia|].
    split; [apply Hlt; right; lia|].
    split; [apply Hle; right; lia|].
    split; [apply Hgt; left; reflexivity|].
    split; [intros Hset; apply Hge in Hset as [Hset|Hset];
            [discriminate Hset | lia]|].
    split; [exact Hnz | exact Hz].
Defined.

Lemma none_operand_is_zero_witness :
  svm_get_arg_value ARG_NONE vm_cmp_none = Ret 0 vm_cmp_none /\
  svm_cycle weak_sys_handler vm_cmp_none =
  Ret tt (upd 1
    (set_flags
       {| flag_eq := true; flag_ne := false; flag_lt := false; flag_le := true;
          flag_gt := false; flag_ge := true; flag_nz := false; flag_z := false |}
       (set_pc 1 (fresh_task zero_registers))) vm_cmp_none).
Proof.
  destruct (none_operand_is_zero weak_sys_handler vm_cmp_none ARG_NONE) as [H0 Hc].
  - reflexivity.
  - discriminate.
  - split; [exact H0|].
    apply (Hc 1%positive (fresh_task zero_registers)
             (word OP_CMP EXT_NONE ARG_NONE ARG_NONE)).
    + apply fetches_vm_with; reflexivity.
    + reflexivity.
    + reflexivity.
    + reflexivity.
    + discriminate.
Defined.

Lemma push_pop_range_roundtrip_witness :
  exists vm2 t2,
    svm_cycle weak_sys_handler (upd 1 task_r123_clobbered vm_push_pop) = Ret tt vm2 /\
    cur vm2 1 t2 /\
    sp t2 = 0 /\
    zlookup (registers t2) 0 = Some 1 /\
    zlookup (registers t2) 1 = Some 2 /\
    zlookup (registers t2) 2 = Some 3 /\
    zlookup (registers t2) 3 = Some 9.
Proof.
  destruct (push_pop_range_roundtrip weak_sys_handler vm_push_pop 1 task_r123
              (word OP_PUSH EXT_NONE (ARG_R 0) (ARG_R 2))
              (upd 1 task_r123_pushed vm_push_pop) task_r123_pushed
              task_r123_clobbered
              (word OP_POP EXT_NONE (ARG_R 0) (ARG_R 2)) 0 2)
    as (_ & _ & _ & vm2 & t2 & E & Hc & Hs & Hk & Hj & _).
  - lia.
  - lia.
  - split; [apply Z.leb_le | apply Z.ltb_lt]; reflexivity.
  - split; [apply Z.leb_le | apply Z.ltb_lt]; reflexivity.
  - apply fetches_vm_with; reflexivity.
  - reflexivity.
  - reflexivity.
  - reflexivity.
  - reflexivity.
  - vm_compute. reflexivity.
  - split; reflexivity.
  - reflexivity.
  - reflexivity.
  - reflexivity.
  - repeat split; reflexivity.
  - reflexivity.
  - reflexivity.
  - reflexivity.
  - reflexivity.
  - exists vm2, t2.
    split; [exact E|]. split; [exact Hc|]. split; [exact Hs|].
    split; [exact (proj2 (Hk 0 ltac:(lia)))|].
    split; [exact (proj2 (Hk 1 ltac:(lia)))|].
    split; [exact (proj2 (Hk 2 ltac:(lia)))|].
    exact (Hj 3 ltac:(lia)).
Defined.

(** C2, at the failing input: [inv 100] in an image of two words returns
    [SVM_ERR_JMP_OVERFLOW] after it has stored the return address 2 in
    the call stack and raised [rpc] from 0 to 1. *)
Theorem inv_jump_overflow_keeps_return_address :
  svm_cycle weak_sys_handler vm_inv =
  Err SVM_ERR_JMP_OVERFLOW
    (upd 1 (set_rpc 1 (set_call_stack_buffer [2; 0]
              (set_pc 2 (fresh_task zero_registers)))) vm_inv).
Proof. vm_compute. reflexivity. Qed.

(** C4, at the failing input: after [push 7], [push 9], [pop r1] the
    stack holds one value, 7, at slot [sp - 1 = 0]; the cycle on
    [pop r0] returns [SVM_OK] with [r0 = 9], the contents of slot
    [sp = 1], and [sp = 0]. *)
Theorem pop_single_reads_above_top :
  svm_run weak_sys_handler 3 vm_pop = Ret tt (upd 1 task_pop_3 vm_pop) /\
  sp task_pop_3 = 1 /\
  zlookup (buffer (stack task_pop_3)) (sp task_pop_3 - 1) = Some 7 /\
  zlookup (buffer (stack task_pop_3)) (sp task_pop_3) = Some 9 /\
  svm_cycle weak_sys_handler (upd 1 task_pop_3 vm_pop) =
    Ret tt (upd 1 task_pop_4 vm_pop) /\
  zlookup (registers task_pop_4) 0 = Some 9 /\
  sp task_pop_4 = 0.
Proof. repeat split; vm_compute; reflexivity. Qed.

Lemma svm_task_remove_misses_listed_task_witness :
  task_list 3 (tasks vm_two_tasks) (task_head vm_two_tasks) = [1; 2]%positive /\
  exists n, forall fuel, (n <= fuel)%nat ->
    svm_task_remove fuel (Some 2%positive) vm_two_tasks =
    Some (Err SVM_ERR_TASK_NOT_FOUND vm_two_tasks).
Proof.
  split; [vm_compute; reflexivity|].
  apply (svm_task_remove_misses_listed_task vm_two_tasks 1
           (set_next (Some 2%positive) (fresh_task zero_registers)) 2
           (fresh_task zero_registers)).
  - reflexivity.
  - reflexivity.
  - discriminate.
  - reflexivity.
  - discriminate.
  - apply (nt_next _ 2%positive (fresh_task zero_registers)).
    + reflexivity.
    + apply nt_null.
Defined.

Lemma svm_asm_next_token_comment_runs_off_witness :
  svm_asm_next_token comment_source 0 7 = TokUndefined.
Proof.
  apply svm_asm_next_token_comment_runs_off.
  - lia.
  - reflexivity.
Defined.

(** ** The instruction word *)

Lemma wrap_i32_mod z : wrap_i32 z mod 2 ^ 32 = z mod 2 ^ 32.
Proof.
  unfold wrap_i32.
  rewrite Zminus_mod, Zmod_mod, <- Zminus_mod.
  f_equal. lia.
Qed.

Lemma wrap_i32_testbit z n :
  0 <= n < 32 -> Z.testbit (wrap_i32 z) n = Z.testbit z n.
Proof.
  intros Hn.
  rewrite <- (Z.mod_pow2_bits_low (wrap_i32 z) 32 n) by lia.
  rewrite wrap_i32_mod. apply Z.mod_pow2_bits_low. lia.
Qed.

Lemma testbit_255 n : 0 <= n -> Z.testbit 255 n = (n <? 8).
Proof.
  intros Hn. change 255 with (Z.ones 8).
  destruct (Z.ltb_spec n 8).
  - apply Z.ones_spec_low. lia.
  - apply Z.ones_spec_high. lia.
Qed.

Lemma byte_land z : byte z -> Z.land z 255 = z.
Proof.
  intros H. change 255 with (Z.ones 8).
  rewrite Z.land_ones by lia. apply Z.mod_small. exact H.
Qed.

Lemma byte_testbit_high z n : byte z -> 8 <= n -> Z.testbit z n = false.
Proof.
  intros H Hn. rewrite <- (byte_land z H), Z.land_spec, testbit_255 by lia.
  replace (n <? 8) with false by (symmetry; apply Z.ltb_ge; lia).
  apply andb_false_r.
Qed.

(** The bits of the packed word: bit [n] of the field that covers it. *)
Lemma packed_testbit o e a1 a2 n :
  0 <= n ->
  Z.testbit
    (Z.lor (Z.land o 255)
       (Z.lor (Z.shiftl (Z.land e 255) 8)
          (Z.lor (Z.shiftl (Z.land a1 255) 16) (Z.shiftl (Z.land a2 255) 24)))) n =
  if n <? 8 then Z.testbit o n
  else if n <? 16 then Z.testbit e (n - 8)
  else if n <? 24 then Z.testbit a1 (n - 16)
  else if n <? 32 then Z.testbit a2 (n - 24)
  else false.
Proof.
  intros Hn.
  rewrite !Z.lor_spec, !Z.shiftl_spec, !Z.land_spec by lia.
  destruct (Z.ltb_spec n 8).
  { rewrite testbit_255 by lia.
    replace (n <? 8) with true by (symmetry; apply Z.ltb_lt; lia).
    rewrite !(Z.testbit_neg_r _ (n - 8)), !(Z.testbit_neg_r _ (n - 16)),
      !(Z.testbit_neg_r _ (n - 24)) by lia.
    now rewrite andb_true_r, !orb_false_r. }
  rewrite (testbit_255 n) by lia.
  replace (n <? 8) with false by (symmetry; apply Z.ltb_ge; lia).
  rewrite andb_false_r, orb_false_l.
  destruct (Z.ltb_spec n 16).
  { rewrite testbit_255 by lia.
    replace (n - 8 <? 8) with true by (symmetry; apply Z.ltb_lt; lia).
    rewrite !(Z.testbit_neg_r _ (n - 16)), !(Z.testbit_neg_r _ (n - 24)) by lia.
    now rewrite andb_true_r, !orb_false_r. }
  rewrite (testbit_255 (n - 8)) by lia.
  replace (n - 8 <? 8) with false by (symmetry; apply Z.ltb_ge; lia).
  rewrite andb_false_r, orb_false_l.
  destruct (Z.ltb_spec n 24).
  { rewrite testbit_255 by lia.
    replace (n - 16 <? 8) with true by (symmetry; apply Z.ltb_lt; lia).
    rewrite !(Z.testbit_neg_r _ (n - 24)) by lia.
    now rewrite andb_true_r, !orb_false_r. }
  rewrite (testbit_255 (n - 16)) by lia.
  replace (n - 16 <? 8) with false by (symmetry; apply Z.ltb_ge; lia).
  rewrite andb_false_r, orb_false_l.
  rewrite (testbit_255 (n - 24)) by lia.
  destruct (Z.ltb_spec n 32).
  - replace (n - 24 <? 8) with true by (symmetry; apply Z.ltb_lt; lia).
    apply andb_true_r.
  - replace (n - 24 <? 8) with false by (symmetry; apply Z.ltb_ge; lia).
    apply andb_false_r.
Qed.

(** The field at bit offset [k] of the word of an instruction. *)
Lemma decode_field i k :
  (k = 0 \/ k = 8 \/ k = 16 \/ k = 24) ->
  forall n, 0 <= n ->
    Z.testbit (Z.land (Z.shiftr (svm_instruction_to_int32 i) k) 255) n =
    if n <? 8 then
      Z.testbit
        (Z.lor (Z.land (op i) 255)
           (Z.lor (Z.shiftl (Z.land (ext i) 255) 8)
              (Z.lor (Z.shiftl (Z.land (arg1 i) 255) 16)
                 (Z.shiftl (Z.land (arg2 i) 255) 24)))) (n + k)
    else false.
Proof.
  intros Hk n Hn. unfold svm_instruction_to_int32.
  rewrite Z.land_spec, testbit_255, Z.shiftr_spec by lia.
  destruct (Z.ltb_spec n 8).
  - rewrite andb_true_r. apply wrap_i32_testbit. lia.
  - apply andb_false_r.
Qed.

Lemma svm_instruction_of_to_int32 i :
  byte (op i) -> byte (ext i) -> byte (arg1 i) -> byte (arg2 i) ->
  svm_instruction_of_int32 (svm_instruction_to_int32 i) = i.
Proof.
  intros Ho He H1 H2. destruct i as [o e a1 a2]. cbn [op ext arg1 arg2] in *.
  unfold svm_instruction_of_int32.
  rewrite <- (Z.shiftr_0_r (svm_instruction_to_int32 _)) at 1.
  f_equal; apply Z.bits_inj'; intros n Hn;
    rewrite decode_field by auto; cbn [op ext arg1 arg2];
    rewrite packed_testbit by lia;
    (destruct (Z.ltb_spec n 8);
     [ repeat match goal with
              | |- context [?x <? ?y] =>
                  first [ replace (x <? y) with true by (symmetry; apply Z.ltb_lt; lia)
                        | replace (x <? y) with false by (symmetry; apply Z.ltb_ge; lia) ]
              end; f_equal; lia
     | symmetry; apply byte_testbit_high; [assumption | lia] ]).
Qed.

(** X1: decoding the word that [svm_pack_instruction] and
    [svm_instruction_to_int32] build gives back the four fields, whenever
    each of them is a byte. *)
Theorem instruction_word_roundtrip i :
  byte (op i) -> byte (ext i) -> byte (arg1 i) -> byte (arg2 i) ->
  svm_instruction_of_int32 (svm_instruction_to_int32 i) = i.
Proof.
  intros Ho He H1 H2. now apply svm_instruction_of_to_int32.
Qed.

Lemma instruction_word_roundtrip_witness :
  svm_instruction_of_int32
    (svm_instruction_to_int32 {| op := 14; ext := 3; arg1 := 1; arg2 := 17 |}) =
  {| op := 14; ext := 3; arg1 := 1; arg2 := 17 |}.
Proof.
  apply instruction_word_roundtrip; unfold byte; cbn; lia.
Defined.

(** ** What a cycle leaves alone *)

Section FrameFacts.
Context {Ctx : Type}.
Variable handler : Ctx -> list Z -> Z -> Ctx * list Z.
Implicit Types (vm : svm_t Ctx) (t : svm_task_t) (a : positive).

Lemma vm_frame_refl vm : vm_frame vm vm.
Proof. unfold vm_frame. repeat split; auto. Qed.

Lemma vm_frame_trans vm1 vm2 vm3 :
  vm_frame vm1 vm2 -> vm_frame vm2 vm3 -> vm_frame vm1 vm3.
Proof.
  intros (A1 & A2 & A3 & A4 & A5 & A6 & A7) (B1 & B2 & B3 & B4 & B5 & B6 & B7).
  unfold vm_frame. repeat split; try congruence; auto.
  - intros H. apply A6, B6, H.
  - intros H. apply B6, A6, H.
  - intros b Hb. rewrite B7 by congruence. now apply A7.
Qed.

Lemma keeps_frame_ret {A} (x : A) : keeps_frame (mret x : M Ctx A).
Proof. intros vm. apply vm_frame_refl. Qed.

Lemma keeps_frame_fail {A} e : keeps_frame (fail e : M Ctx A).
Proof. intros vm. apply vm_frame_refl. Qed.

Lemma keeps_frame_undefined {A} : keeps_frame (undefined : M Ctx A).
Proof. intros vm. exact I. Qed.

Lemma keeps_frame_bind {A B} (m : M Ctx A) (k : A -> M Ctx B) :
  keeps_frame m -> (forall x, keeps_frame (k x)) -> keeps_frame (m ≫= k).
Proof.
  intros Hm Hk vm. rewrite bind_unfold. specialize (Hm vm).
  destruct (m vm) as [|x vm1|e vm1]; [exact I| |exact Hm].
  specialize (Hk x vm1).
  destruct (k x vm1); [exact I| |]; eapply vm_frame_trans; eauto.
Qed.

Lemma keeps_frame_defined {A} (o : option A) : keeps_frame (defined o : M Ctx A).
Proof. destruct o; [apply keeps_frame_ret | apply keeps_frame_undefined]. Qed.

Lemma keeps_frame_get_code : keeps_frame (get_code : M Ctx svm_code_t).
Proof. intros vm. apply vm_frame_refl. Qed.

Lemma keeps_frame_get_ctx : keeps_frame (get_ctx : M Ctx Ctx).
Proof. intros vm. apply vm_frame_refl. Qed.

Lemma keeps_frame_get_task : keeps_frame (get_task : M Ctx svm_task_t).
Proof.
  intros vm. unfold get_task.
  destruct (task_current vm); [|exact I].
  destruct (tasks vm !! _); [apply vm_frame_refl | exact I].
Qed.

Lemma keeps_frame_put_task t : keeps_frame (put_task t : M Ctx unit).
Proof.
  intros vm. unfold put_task.
  destruct (task_current vm) as [a|] eqn:Hc; [|exact I].
  destruct (tasks vm !! a) as [t0|] eqn:Ht; [|exact I].
  unfold vm_frame. cbn. repeat split; auto.
  - destruct (decide (b = a)) as [->|Hne].
    + intros _. rewrite Ht. eauto.
    + now rewrite lookup_insert_ne by congruence.
  - destruct (decide (b = a)) as [->|Hne].
    + intros _. rewrite lookup_insert_eq. eauto.
    + now rewrite lookup_insert_ne by congruence.
  - intros b Hb. rewrite Hc in Hb. apply lookup_insert_ne. congruence.
Qed.

Lemma keeps_frame_stop : keeps_frame (modify (set_running false) : M Ctx unit).
Proof. intros vm. unfold vm_frame. cbn. repeat split; auto. discriminate. Qed.

Lemma keeps_frame_set_ctx c : keeps_frame (modify (set_ctx c) : M Ctx unit).
Proof. intros vm. unfold vm_frame. cbn. repeat split; auto. Qed.

Create HintDb keeps_frame.
Hint Resolve keeps_frame_ret keeps_frame_fail keeps_frame_undefined
  keeps_frame_defined keeps_frame_get_code keeps_frame_get_ctx
  keeps_frame_get_task keeps_frame_put_task keeps_frame_stop
  keeps_frame_set_ctx : keeps_frame.

Ltac solve_keeps_frame :=
  repeat first
    [ apply keeps_frame_bind; [|intros]
    | progress auto with keeps_frame
    | match goal with
      | |- keeps_frame (if ?c then _ else _) => destruct c
      | |- keeps_frame (match ?o with _ => _ end) => destruct o
      | |- keeps_frame (let _ := _ in _) => cbv zeta
      end ].

Lemma keeps_frame_modify_task f : keeps_frame (modify_task f : M Ctx unit).
Proof. unfold modify_task. solve_keeps_frame. Qed.

Lemma keeps_frame_read_register r : keeps_frame (read_register r : M Ctx Z).
Proof. unfold read_register. solve_keeps_frame. Qed.

Lemma keeps_frame_write_register r v : keeps_frame (write_register r v : M Ctx unit).
Proof. unfold write_register. solve_keeps_frame. Qed.

Lemma keeps_frame_stack_push v : keeps_frame (stack_push v : M Ctx unit).
Proof. unfold stack_push. solve_keeps_frame. Qed.

Lemma keeps_frame_stack_pop : keeps_frame (stack_pop : M Ctx Z).
Proof. unfold stack_pop. solve_keeps_frame. Qed.

Hint Resolve keeps_frame_modify_task keeps_frame_read_register
  keeps_frame_write_register keeps_frame_stack_push keeps_frame_stack_pop
  : keeps_frame.

Lemma keeps_frame_svm_get_arg_value type :
  keeps_frame (svm_get_arg_value type : M Ctx Z).
Proof. unfold svm_get_arg_value. solve_keeps_frame. Qed.

Lemma keeps_frame_svm_check_condition e :
  keeps_frame (svm_check_condition e : M Ctx bool).
Proof. unfold svm_check_condition. solve_keeps_frame. Qed.

Lemma keeps_frame_svm_check_value_set_nz_z_flags v :
  keeps_frame (svm_check_value_set_nz_z_flags v : M Ctx unit).
Proof. unfold svm_check_value_set_nz_z_flags. solve_keeps_frame. Qed.

Lemma keeps_frame_svm_set_flag_by_ext e b :
  keeps_frame (svm_set_flag_by_ext e b : M Ctx Z).
Proof. unfold svm_set_flag_by_ext. solve_keeps_frame. Qed.

Hint Resolve keeps_frame_svm_get_arg_value keeps_frame_svm_check_condition
  keeps_frame_svm_check_value_set_nz_z_flags keeps_frame_svm_set_flag_by_ext
  : keeps_frame.

Lemma keeps_frame_svm_push_range n :
  forall r, keeps_frame (svm_push_range n r : M Ctx unit).
Proof. induction n; intros r; cbn [svm_push_range]; solve_keeps_frame. Qed.

Lemma keeps_frame_svm_pop_range n :
  forall r, keeps_frame (svm_pop_range n r : M Ctx unit).
Proof. induction n; intros r; cbn [svm_pop_range]; solve_keeps_frame. Qed.

Hint Resolve keeps_frame_svm_push_range keeps_frame_svm_pop_range : keeps_frame.

Lemma keeps_frame_svm_cycle_switch i : keeps_frame (svm_cycle_switch handler i).
Proof.
  unfold svm_cycle_switch.
  destruct (opcode_of_byte (op i)) as [[]|];
    unfold svm_cycle_binop, svm_cycle_push, svm_cycle_pop, svm_cycle_cmp,
      svm_cycle_jmp, svm_cycle_inv, svm_cycle_ret, svm_cycle_sys;
    solve_keeps_frame.
Qed.

Lemma keeps_frame_svm_cycle : keeps_frame (svm_cycle handler).
Proof.
  intros vm. unfold svm_cycle.
  destruct (running vm); cbn [negb]; [|apply vm_frame_refl].
  revert vm.
  change (keeps_frame
    (t ← get_task;
     cd ← get_code;
     if pc t >=? code_size cd
     then modify (set_running false);; fail SVM_ERR_CODE_OVERFLOW
     else w ← defined (zlookup (code_buffer cd) (pc t));
          put_task (set_pc (wrap_u32 (pc t + 1)) t);;
          svm_cycle_switch handler (svm_instruction_of_int32 w))).
  pose proof keeps_frame_svm_cycle_switch.
  solve_keeps_frame.
Qed.

Lemma keeps_frame_svm_run n : keeps_frame (svm_run handler n).
Proof.
  induction n; cbn [svm_run]; [apply keeps_frame_ret|].
  apply keeps_frame_bind; [apply keeps_frame_svm_cycle | auto].
Qed.

(** X2: whatever a cycle returns, [SVM_OK] or an error, it has not
    switched tasks: the current-task and head pointers, the image, the
    switch block and every task other than the current one are as
    before, no task was allocated or released, and the running flag was
    not turned on.  The same holds for any number of cycles in a row. *)
Theorem svm_cycle_never_switches_tasks :
  (forall vm vm',
     svm_cycle handler vm = Ret tt vm' \/ (exists e, svm_cycle handler vm = Err e vm') ->
     vm_frame vm vm') /\
  (forall n vm vm',
     svm_run handler n vm = Ret tt vm' \/ (exists e, svm_run handler n vm = Err e vm') ->
     vm_frame vm vm').
Proof.
  split.
  - intros vm vm' H. pose proof (keeps_frame_svm_cycle vm) as K.
    destruct H as [E|[e E]]; rewrite E in K; exact K.
  - intros n vm vm' H. pose proof (keeps_frame_svm_run n vm) as K.
    destruct H as [E|[e E]]; rewrite E in K; exact K.
Qed.

End FrameFacts.

(** ** What the instructions do when their condition holds *)

Section ExecutionFacts.
Context {Ctx : Type}.
Variable handler : Ctx -> list Z -> Z -> Ctx * list Z.
Implicit Types (vm : svm_t Ctx) (t : svm_task_t) (a : positive).

Lemma wrap_u32_range z : uint32 (wrap_u32 z).
Proof. unfold uint32, wrap_u32. apply Z.mod_pos_bound. lia. Qed.

Lemma wrap_u32_wrap_i32 z : wrap_u32 (wrap_i32 z) = wrap_u32 z.
Proof. apply wrap_i32_mod. Qed.

Lemma zinsert_of_zlookup {A} i (x y : A) l :
  zlookup l i = Some x -> zinsert i y l = Some (<[Z.to_nat i := y]> l).
Proof.
  unfold zlookup, zinsert. destruct (i <? 0) eqn:E; [discriminate|].
  apply Z.ltb_ge in E. intros H.
  pose proof (lookup_lt_Some _ _ _ H) as Hlt.
  replace (0 <=? i) with true by (symmetry; apply Z.leb_le; lia).
  replace (i <? Z.of_nat (length l)) with true by (symmetry; apply Z.ltb_lt; lia).
  reflexivity.
Qed.

(** The operand fetch moves [pc] by at most one word. *)
Lemma svm_get_arg_value_shape_pc vm a t t1 type x vm1 :
  cur vm a t ->
  svm_get_arg_value type (upd a t1 vm) = Ret x vm1 ->
  exists p, vm1 = upd a (set_pc p t1) vm /\
            (p = pc t1 \/ p = wrap_u32 (pc t1 + 1)).
Proof.
  intros H E.
  destruct (svm_is_arg_register type) eqn:Hr.
  - rewrite (svm_get_arg_value_reg _ _ _ _ _ H Hr) in E.
    destruct (zlookup _ _); [|discriminate].
    injection E as _ <-. exists (pc t1). rewrite set_pc_same. auto.
  - destruct (Z.eq_dec type ARG_IMM) as [->|Hi].
    + rewrite (svm_get_arg_value_imm _ _ _ _ H) in E.
      destruct (zlookup _ _); [|discriminate].
      injection E as _ <-. eauto.
    + rewrite (svm_get_arg_value_none _ _ Hr Hi) in E.
      injection E as _ <-. exists (pc t1). rewrite set_pc_same. auto.
Qed.

Lemma svm_cycle_of_stopped vm : running vm = false ->
  forall n, svm_run handler (S n) vm = Err SVM_ERR_NOT_RUNNING vm.
Proof.
  intros Hr n. cbn [svm_run]. rewrite bind_unfold. unfold svm_cycle.
  now rewrite Hr.
Qed.

(** X3: a cycle on END returns [SVM_OK] and a cycle with [pc] at or
    beyond the size of the image returns [SVM_ERR_CODE_OVERFLOW]; both
    clear the running flag (END also moves [pc] past its word, the
    overflow changes nothing else), and from then on every cycle returns
    [SVM_ERR_NOT_RUNNING] and changes nothing. *)
Theorem end_and_overflow_halt vm a t :
  cur vm a t -> running vm = true ->
  (code_size (code vm) <= pc t ->
   svm_cycle handler vm = Err SVM_ERR_CODE_OVERFLOW (set_running false vm) /\
   forall n, svm_run handler (S n) (set_running false vm) =
             Err SVM_ERR_NOT_RUNNING (set_running false vm)) /\
  (forall w,
     pc t < code_size (code vm) ->
     zlookup (code_buffer (code vm)) (pc t) = Some w ->
     opcode_of_byte (op (svm_instruction_of_int32 w)) = Some OP_END ->
     let vm' := set_running false (upd a (set_pc (wrap_u32 (pc t + 1)) t) vm) in
     svm_cycle handler vm = Ret tt vm' /\
     forall n, svm_run handler (S n) vm' = Err SVM_ERR_NOT_RUNNING vm').
Proof.
  intros H Hrun. split.
  - intros Hpc. split; [|now apply svm_cycle_of_stopped].
    unfold svm_cycle. rewrite Hrun. cbn [negb].
    rewrite <- (upd_same _ _ _ H) at 1.
    rewrite bind_unfold, (get_task_upd _ _ _ _ H), bind_unfold, get_code_upd.
    replace (pc t >=? code_size (code vm)) with true
      by (symmetry; rewrite Z.geb_leb; apply Z.leb_le; exact Hpc).
    now rewrite (upd_same _ _ _ H).
  - intros w Hpc Hw Hop vm'. split; [|now apply svm_cycle_of_stopped].
    assert (F : fetches vm a t w) by (repeat split; auto; apply H).
    rewrite (svm_cycle_fetch _ _ _ _ _ F).
    unfold svm_cycle_switch. now rewrite Hop.
Qed.

(** X4: a two-operand instruction (MOV, ADD, SUB, MUL, DIV, AND, OR, XOR,
    SHL, SHR) whose condition holds and whose first operand is the
    register [r]: the second operand is fetched first, register [r]
    receives the result [v] of the operator on its old value and the
    operand, NZ is set when [v <> 0] and Z when [v = 0] (the other one is
    not cleared), and nothing else but [pc] changes. *)
Theorem binop_executes vm a t w o f r x vm1 old v :
  fetches vm a t w ->
  opcode_of_byte (op (svm_instruction_of_int32 w)) = Some o ->
  alu_of_opcode o = Some f ->
  svm_check_condition (ext (svm_instruction_of_int32 w)) vm = Ret true vm ->
  arg1 (svm_instruction_of_int32 w) = ARG_R r -> 0 <= r <= 15 ->
  svm_get_arg_value (arg2 (svm_instruction_of_int32 w))
    (upd a (set_pc (wrap_u32 (pc t + 1)) t) vm) = Ret x vm1 ->
  zlookup (registers t) r = Some old ->
  f old x = Some v ->
  exists p,
    vm1 = upd a (set_pc p t) vm /\
    svm_cycle handler vm =
    Ret tt (upd a
      (set_flags (nz_z_flags v (flags t))
         (set_registers (<[Z.to_nat r := v]> (registers t)) (set_pc p t))) vm).
Proof.
  intros F Hop Hf Hc Ha Hr E1 Hold Hv. pose proof F as (H & _).
  rewrite (svm_check_condition_cur _ _ _ _ H) in Hc. apply Ret_value in Hc.
  destruct (svm_get_arg_value_shape _ _ _ _ _ _ _ H E1) as [p ->].
  exists p. split; [reflexivity|].
  rewrite (svm_cycle_fetch _ _ _ _ _ F).
  set (i := svm_instruction_of_int32 w) in *.
  assert (Hsw : svm_cycle_switch handler i = svm_cycle_binop f i).
  { unfold svm_cycle_switch. rewrite Hop.
    destruct o; try discriminate Hf; injection Hf as <-; reflexivity. }
  rewrite Hsw. unfold svm_cycle_binop.
  rewrite bind_unfold, E1, bind_unfold, (svm_check_condition_upd _ _ _ _ _ H).
  cbn [flags set_pc]. rewrite Hc. cbn [negb].
  rewrite Ha. unfold ARG_R. rewrite svm_arg_to_reg_register by lia.
  replace (r <? R_MAX) with true by (symmetry; apply Z.ltb_lt; unfold R_MAX; lia).
  cbn [negb].
  rewrite bind_unfold, (read_register_upd _ _ _ _ _ H).
  cbn [registers set_pc]. rewrite Hold.
  rewrite bind_unfold, Hv. cbn [defined]. rewrite ret_unfold.
  rewrite bind_unfold, (write_register_upd _ _ _ _ _ _ H).
  cbn [registers set_pc]. rewrite (zinsert_of_zlookup _ _ v _ Hold).
  rewrite bind_unfold, (read_register_upd _ _ _ _ _ H).
  cbn [registers set_registers].
  rewrite (zlookup_zinsert_eq _ _ _ _ (zinsert_of_zlookup _ _ v _ Hold)).
  unfold svm_check_value_set_nz_z_flags, nz_z_flags.
  destruct (negb (v =? 0)); now rewrite (modify_task_upd _ _ _ _ _ H).
Qed.

(** X5: a two-operand instruction whose first operand is no register
    (the assembler accepts [mov 5 r0]) returns [SVM_ERR_ARG_NOT_REG] when
    its condition holds, after the second operand has been fetched: only
    [pc] has changed.  The register test is not reached when the
    condition is false. *)
Theorem binop_first_operand_not_register vm a t w o f x vm1 :
  fetches vm a t w ->
  opcode_of_byte (op (svm_instruction_of_int32 w)) = Some o ->
  alu_of_opcode o = Some f ->
  svm_is_arg_register (arg1 (svm_instruction_of_int32 w)) = false ->
  svm_get_arg_value (arg2 (svm_instruction_of_int32 w))
    (upd a (set_pc (wrap_u32 (pc t + 1)) t) vm) = Ret x vm1 ->
  (exists p, vm1 = upd a (set_pc p t) vm) /\
  (svm_check_condition (ext (svm_instruction_of_int32 w)) vm = Ret true vm ->
   svm_cycle handler vm = Err SVM_ERR_ARG_NOT_REG vm1) /\
  (svm_check_condition (ext (svm_instruction_of_int32 w)) vm = Ret false vm ->
   svm_cycle handler vm = Ret tt vm1).
Proof.
  intros F Hop Hf Ha E1. pose proof F as (H & _).
  destruct (svm_get_arg_value_shape _ _ _ _ _ _ _ H E1) as [p ->].
  split; [eauto|].
  rewrite (svm_cycle_fetch _ _ _ _ _ F).
  set (i := svm_instruction_of_int32 w) in *.
  assert (Hsw : svm_cycle_switch handler i = svm_cycle_binop f i).
  { unfold svm_cycle_switch. rewrite Hop.
    destruct o; try discriminate Hf; injection Hf as <-; reflexivity. }
  rewrite Hsw. unfold svm_cycle_binop.
  rewrite bind_unfold, E1, bind_unfold, (svm_check_condition_upd _ _ _ _ _ H).
  cbn [flags set_pc].
  assert (Hreg : (svm_arg_to_reg (arg1 i) <? R_MAX) = false).
  { unfold svm_is_arg_register, ARG_NONE, ARG_IMM in Ha.
    unfold svm_arg_to_reg, ARG_R0, ARG_R15, R_MAX.
    destruct (1 <=? arg1 i) eqn:E2; destruct (arg1 i <=? 16) eqn:E3;
      cbn [andb]; try reflexivity.
    apply Z.leb_le in E2. apply Z.leb_le in E3.
    apply andb_false_iff in Ha as [Ha|Ha]; apply Z.ltb_ge in Ha; lia. }
  split; intros Hc; rewrite (svm_check_condition_cur _ _ _ _ H) in Hc;
    apply Ret_value in Hc; rewrite Hc; cbn [negb]; [|reflexivity].
  now rewrite Hreg.
Qed.

(** X6: JMP whose condition holds sets [pc] to its operand when the
    operand, read as an unsigned number, is below the size of the image,
    and returns [SVM_ERR_JMP_OVERFLOW] otherwise, with only [pc] moved
    past the instruction.  A negative operand is always out of range for
    an image of at most [2^31] words. *)
Theorem jmp_executes vm a t w x vm1 :
  fetches vm a t w ->
  opcode_of_byte (op (svm_instruction_of_int32 w)) = Some OP_JMP ->
  svm_check_condition (ext (svm_instruction_of_int32 w)) vm = Ret true vm ->
  svm_get_arg_value (arg1 (svm_instruction_of_int32 w))
    (upd a (set_pc (wrap_u32 (pc t + 1)) t) vm) = Ret x vm1 ->
  (wrap_u32 x < code_size (code vm) ->
   svm_cycle handler vm = Ret tt (upd a (set_pc (wrap_u32 x) t) vm)) /\
  (code_size (code vm) <= wrap_u32 x ->
   svm_cycle handler vm = Err SVM_ERR_JMP_OVERFLOW vm1) /\
  (- 2 ^ 31 <= x < 0 -> code_size (code vm) <= 2 ^ 31 ->
   svm_cycle handler vm = Err SVM_ERR_JMP_OVERFLOW vm1).
Proof.
  intros F Hop Hc E1. pose proof F as (H & _).
  rewrite (svm_check_condition_cur _ _ _ _ H) in Hc. apply Ret_value in Hc.
  destruct (svm_get_arg_value_shape _ _ _ _ _ _ _ H E1) as [p ->].
  rewrite (svm_cycle_fetch _ _ _ _ _ F).
  unfold svm_cycle_switch. rewrite Hop. unfold svm_cycle_jmp.
  rewrite bind_unfold, E1, bind_unfold, (svm_check_condition_upd _ _ _ _ _ H).
  cbn [flags set_pc]. rewrite Hc. cbn [negb].
  rewrite bind_unfold, get_code_upd.
  assert (Hover : code_size (code vm) <= wrap_u32 x ->
                  (if wrap_u32 x <? code_size (code vm)
                   then modify_task (set_pc (wrap_u32 x))
                   else fail SVM_ERR_JMP_OVERFLOW) (upd a (set_pc p (set_pc (wrap_u32 (pc t + 1)) t)) vm) =
                  Err SVM_ERR_JMP_OVERFLOW (upd a (set_pc p (set_pc (wrap_u32 (pc t + 1)) t)) vm)).
  { intros Hx.
    replace (wrap_u32 x <? code_size (code vm)) with false
      by (symmetry; apply Z.ltb_ge; exact Hx).
    reflexivity. }
  split; [|split].
  - intros Hx.
    replace (wrap_u32 x <? code_size (code vm)) with true
      by (symmetry; apply Z.ltb_lt; exact Hx).
    now rewrite (modify_task_upd _ _ _ _ _ H).
  - exact Hover.
  - intros Hneg Hsz. apply Hover.
    assert (wrap_u32 x = x + 2 ^ 32).
    { unfold wrap_u32. symmetry. apply Z.mod_unique with (q := -1); lia. }
    lia.
Qed.

(** X7: INV whose condition holds and that returns [SVM_OK] has stored
    the address of the word after the instruction and its operand in the
    call stack, raised [rpc] by one and set [pc] to the target; a RET
    fetched there returns [SVM_OK], and after it [pc] is that stored
    address, [rpc] is what it was before the INV, and registers, flags
    and data stack are untouched.  ([rpc + 1] is taken in [uint32]
    range.) *)
Theorem inv_ret_roundtrip vm a t w1 x vm1 vm2 t2 w2 :
  fetches vm a t w1 ->
  opcode_of_byte (op (svm_instruction_of_int32 w1)) = Some OP_INV ->
  svm_check_condition (ext (svm_instruction_of_int32 w1)) vm = Ret true vm ->
  svm_get_arg_value (arg1 (svm_instruction_of_int32 w1))
    (upd a (set_pc (wrap_u32 (pc t + 1)) t) vm) = Ret x vm1 ->
  0 <= rpc t -> uint32 (rpc t + 1) ->
  svm_cycle handler vm = Ret tt vm2 ->
  fetches vm2 a t2 w2 ->
  opcode_of_byte (op (svm_instruction_of_int32 w2)) = Some OP_RET ->
  exists p vm3 t3,
    vm1 = upd a (set_pc p t) vm /\
    pc t2 = wrap_u32 x /\ rpc t2 = rpc t + 1 /\
    zlookup (buffer (call_stack t2)) (rpc t) = Some (wrap_i32 p) /\
    svm_cycle handler vm2 = Ret tt vm3 /\
    cur vm3 a t3 /\
    pc t3 = p /\ rpc t3 = rpc t /\
    registers t3 = registers t /\ flags t3 = flags t /\
    sp t3 = sp t /\ stack t3 = stack t.
Proof.
  intros F Hop Hc E1 Hrpc Hr1 E F2 Hop2. pose proof F as (H & Hrun & _).
  rewrite (svm_check_condition_cur _ _ _ _ H) in Hc. apply Ret_value in Hc.
  destruct (svm_get_arg_value_shape_pc _ _ _ _ _ _ _ H E1) as (p & -> & Hp).
  assert (Hpr : uint32 p) by (destruct Hp as [->| ->]; apply wrap_u32_range).
  exists p.
  (* the INV *)
  rewrite (svm_cycle_fetch _ _ _ _ _ F) in E.
  unfold svm_cycle_switch in E. rewrite Hop in E. unfold svm_cycle_inv in E.
  rewrite bind_unfold, E1, bind_unfold, (svm_check_condition_upd _ _ _ _ _ H) in E.
  cbn [flags set_pc] in E. rewrite Hc in E. cbn [negb] in E.
  rewrite bind_unfold, (get_task_upd _ _ _ _ H) in E.
  cbn [rpc pc call_stack set_pc] in E.
  rewrite (wrap_u32_small _ Hr1) in E.
  destruct (rpc t + 1 >=? size (call_stack t)); [discriminate|].
  rewrite bind_unfold in E.
  destruct (zinsert (rpc t) (wrap_i32 p) (buffer (call_stack t))) as [b|] eqn:Hb;
    cbn [defined] in E; [|discriminate].
  rewrite ret_unfold, bind_unfold, (put_task_upd _ _ _ _ _ H) in E.
  rewrite bind_unfold, get_code_upd in E.
  destruct (wrap_u32 x <? code_size (code vm)); [|discriminate].
  rewrite (modify_task_upd _ _ _ _ _ H) in E. injection E as <-.
  (* the task that the RET finds *)
  pose proof F2 as (H2 & _).
  destruct (cur_inj _ _ _ _ _ H2 (cur_upd _ _ _ _ H)) as [_ ->].
  cbn [pc rpc call_stack buffer set_pc set_rpc set_call_stack_buffer].
  (* the RET *)
  pose proof (svm_cycle_fetch handler _ _ _ _ F2) as E2.
  rewrite upd_upd in E2.
  unfold svm_cycle_switch in E2. rewrite Hop2 in E2. unfold svm_cycle_ret in E2.
  rewrite bind_unfold, (get_task_upd _ _ _ _ H) in E2.
  cbn [pc rpc call_stack buffer set_pc set_rpc set_call_stack_buffer] in E2.
  replace (rpc t + 1 >? 0) with true in E2
    by (symmetry; rewrite Z.gtb_ltb; apply Z.ltb_lt; lia).
  replace (rpc t + 1 - 1) with (rpc t) in E2 by lia.
  rewrite (wrap_u32_small (rpc t)) in E2 by (unfold uint32 in *; lia).
  rewrite (zlookup_zinsert_eq _ _ _ _ Hb) in E2.
  rewrite bind_unfold in E2. cbn [defined] in E2. rewrite ret_unfold in E2.
  rewrite (put_task_upd _ _ _ _ _ H) in E2.
  rewrite wrap_u32_wrap_i32, (wrap_u32_small p Hpr) in E2.
  eexists _, _. split; [reflexivity|].
  split; [reflexivity|]. split; [reflexivity|].
  split; [apply (zlookup_zinsert_eq _ _ _ _ Hb)|].
  split; [exact E2|].
  split; [eapply cur_upd, H|].
  cbn. repeat split; reflexivity.
Qed.

(** X8: the bounds of the call stack.  INV whose condition holds returns
    [SVM_ERR_CALL_STK_OVERFLOW] as soon as [rpc + 1 >= call_stack.size],
    so the last slot is never used, and RET returns
    [SVM_ERR_CALL_STK_UNDERFLOW] when [rpc = 0], whatever its suffix; in
    both cases only [pc] has moved. *)
Theorem call_stack_bounds vm a t w :
  fetches vm a t w ->
  (forall x vm1,
     opcode_of_byte (op (svm_instruction_of_int32 w)) = Some OP_INV ->
     svm_check_condition (ext (svm_instruction_of_int32 w)) vm = Ret true vm ->
     svm_get_arg_value (arg1 (svm_instruction_of_int32 w))
       (upd a (set_pc (wrap_u32 (pc t + 1)) t) vm) = Ret x vm1 ->
     size (call_stack t) <= wrap_u32 (rpc t + 1) ->
     (exists p, vm1 = upd a (set_pc p t) vm) /\
     svm_cycle handler vm = Err SVM_ERR_CALL_STK_OVERFLOW vm1) /\
  (opcode_of_byte (op (svm_instruction_of_int32 w)) = Some OP_RET ->
   rpc t <= 0 ->
   svm_cycle handler vm =
   Err SVM_ERR_CALL_STK_UNDERFLOW (upd a (set_pc (wrap_u32 (pc t + 1)) t) vm)).
Proof.
  intros F. pose proof F as (H & _). split.
  - intros x vm1 Hop Hc E1 Hfull.
    rewrite (svm_check_condition_cur _ _ _ _ H) in Hc. apply Ret_value in Hc.
    destruct (svm_get_arg_value_shape _ _ _ _ _ _ _ H E1) as [p ->].
    split; [eauto|].
    rewrite (svm_cycle_fetch _ _ _ _ _ F).
    unfold svm_cycle_switch. rewrite Hop. unfold svm_cycle_inv.
    rewrite bind_unfold, E1, bind_unfold, (svm_check_condition_upd _ _ _ _ _ H).
    cbn [flags set_pc]. rewrite Hc. cbn [negb].
    rewrite bind_unfold, (get_task_upd _ _ _ _ H).
    cbn [rpc call_stack set_pc].
    replace (wrap_u32 (rpc t + 1) >=? size (call_stack t)) with true
      by (symmetry; rewrite Z.geb_leb; apply Z.leb_le; exact Hfull).
    reflexivity.
  - intros Hop Hrpc.
    rewrite (svm_cycle_fetch _ _ _ _ _ F).
    unfold svm_cycle_switch. rewrite Hop. unfold svm_cycle_ret.
    rewrite bind_unfold, (get_task_upd _ _ _ _ H).
    cbn [rpc set_pc].
    replace (rpc t >? 0) with false
      by (symmetry; rewrite Z.gtb_ltb; apply Z.ltb_ge; exact Hrpc).
    reflexivity.
Qed.

Lemma ext_of_byte_none e : ext_of_byte e = Some EXT_NONE -> e = 0.
Proof.
  unfold ext_of_byte, zlookup. destruct (e <? 0) eqn:E; [discriminate|].
  apply Z.ltb_ge in E. intros H.
  destruct (Z.to_nat e) as [|n] eqn:En; [lia|].
  exfalso. cbn in H.
  do 8 (destruct n as [|n]; [discriminate|]). discriminate.
Qed.

Lemma flag_of_ext_cleared x y f :
  x <> EXT_NONE -> y <> x ->
  flag_of_ext y (set_flag_of_ext x false f) = flag_of_ext y f.
Proof. intros Hx Hy. destruct x, y; try reflexivity; contradiction. Qed.

(** X9: CLF returns [SVM_OK] whatever the flags are.  With the suffix
    NONE it clears all eight flags, so that afterwards
    [svm_check_condition] is false for every suffix other than NONE; with
    the suffix of a flag it clears that flag and leaves the seven others;
    with a byte that is no suffix it clears nothing.  Nothing else but
    [pc] changes. *)
Theorem clf_clears vm a t w :
  fetches vm a t w ->
  opcode_of_byte (op (svm_instruction_of_int32 w)) = Some OP_CLF ->
  exists f',
    svm_cycle handler vm =
    Ret tt (upd a (set_flags f' (set_pc (wrap_u32 (pc t + 1)) t)) vm) /\
    (ext (svm_instruction_of_int32 w) = 0 ->
     forall e, e <> 0 -> condition e f' = false) /\
    (forall x, ext_of_byte (ext (svm_instruction_of_int32 w)) = Some x ->
       x <> EXT_NONE ->
       flag_of_ext x f' = false /\
       forall y, y <> x -> flag_of_ext y f' = flag_of_ext y (flags t)) /\
    (EXT_MAX <= ext (svm_instruction_of_int32 w) -> f' = flags t).
Proof.
  intros F Hop. pose proof F as (H & _).
  rewrite (svm_cycle_fetch _ _ _ _ _ F).
  unfold svm_cycle_switch. rewrite Hop.
  set (i := svm_instruction_of_int32 w) in *.
  unfold svm_set_flag_by_ext. rewrite bind_unfold.
  destruct (ext_of_byte (ext i)) as [x|] eqn:Hx.
  - rewrite bind_unfold, (modify_task_upd _ _ _ _ _ H).
    exists (set_flag_of_ext x false (flags t)).
    split; [reflexivity|]. split; [|split].
    + intros He e Hne. rewrite He in Hx. injection Hx as <-.
      unfold condition. destruct (ext_of_byte e) as [y|] eqn:Hy; [|reflexivity].
      destruct y; try reflexivity.
      apply ext_of_byte_none in Hy. contradiction.
    + intros x' [= <-] Hn. split.
      * now destruct x.
      * intros y Hy. now apply flag_of_ext_cleared.
    + intros Hge. rewrite (ext_of_byte_ge _ Hge) in Hx. discriminate.
  - exists (flags (set_pc (wrap_u32 (pc t + 1)) t)).
    rewrite ret_unfold, set_flags_same.
    split; [reflexivity|]. split; [|split].
    + intros He. rewrite He in Hx. discriminate.
    + intros x [=].
    + reflexivity.
Qed.

(** X10: CLF with the suffix NONE followed by CMP: after the two cycles
    the comparison flags are exactly those of the comparison of the two
    operand values [x] and [y] (EQ iff [x = y], LT iff [x < y], and so
    on), and NZ and Z are clear. *)
Theorem clf_cmp_exact vm a t w1 vm1 t1 w2 x y vm2 vm3 :
  fetches vm a t w1 ->
  opcode_of_byte (op (svm_instruction_of_int32 w1)) = Some OP_CLF ->
  ext (svm_instruction_of_int32 w1) = 0 ->
  svm_cycle handler vm = Ret tt vm1 ->
  fetches vm1 a t1 w2 ->
  opcode_of_byte (op (svm_instruction_of_int32 w2)) = Some OP_CMP ->
  svm_get_arg_value (arg1 (svm_instruction_of_int32 w2))
    (upd a (set_pc (wrap_u32 (pc t1 + 1)) t1) vm1) = Ret x vm2 ->
  svm_get_arg_value (arg2 (svm_instruction_of_int32 w2)) vm2 = Ret y vm3 ->
  exists vm' t',
    svm_cycle handler vm1 = Ret tt vm' /\ cur vm' a t' /\
    flags t' =
    {| flag_eq := x =? y; flag_ne := negb (x =? y);
       flag_lt := x <? y; flag_le := x <=? y;
       flag_gt := x >? y; flag_ge := x >=? y;
       flag_nz := false; flag_z := false |}.
Proof.
  intros F Hop He E F1 Hop2 E1 E2. pose proof F as (H & _).
  rewrite (svm_cycle_fetch _ _ _ _ _ F) in E.
  unfold svm_cycle_switch in E. rewrite Hop in E.
  unfold svm_set_flag_by_ext in E. rewrite He in E.
  change (ext_of_byte 0) with (Some EXT_NONE) in E.
  rewrite bind_unfold, bind_unfold, (modify_task_upd _ _ _ _ _ H) in E.
  injection E as <-.
  pose proof F1 as (H1 & _).
  destruct (cur_inj _ _ _ _ _ H1 (cur_upd _ _ _ _ H)) as [_ ->].
  rewrite upd_upd in E1.
  destruct (svm_get_arg_value_shape _ _ _ _ _ _ _ H E1) as [p1 ->].
  destruct (svm_get_arg_value_shape _ _ _ _ _ _ _ H E2) as [p2 ->].
  rewrite (svm_cycle_fetch _ _ _ _ _ F1), upd_upd.
  unfold svm_cycle_switch. rewrite Hop2. unfold svm_cycle_cmp.
  rewrite bind_unfold, E1, bind_unfold, E2.
  rewrite (modify_task_upd _ _ _ _ _ H).
  eexists _, _. split; [reflexivity|]. split; [eapply cur_upd, H|].
  cbn. unfold cmp_flags; cbn.
  f_equal; match goal with |- (if ?c then _ else _) = _ => now destruct c end.
Qed.

Lemma length_fresh_buffer bytes junk :
  length (fresh_buffer bytes junk) = Z.to_nat (bytes / 4).
Proof. unfold fresh_buffer. now rewrite length_map, length_seq. Qed.

(** The cycle on [PUSH] of a literal whose condition holds, up to the
    store into the stack. *)
Lemma svm_cycle_push_imm vm a t w v :
  fetches vm a t w ->
  opcode_of_byte (op (svm_instruction_of_int32 w)) = Some OP_PUSH ->
  arg1 (svm_instruction_of_int32 w) = ARG_IMM ->
  svm_check_condition (ext (svm_instruction_of_int32 w)) vm = Ret true vm ->
  zlookup (code_buffer (code vm)) (wrap_u32 (pc t + 1)) = Some v ->
  svm_cycle handler vm =
  (if wrap_u32 (sp t + 1) >=? size (stack t) then fail SVM_ERR_STK_OVERFLOW
   else stack_push v) (upd a (set_pc (wrap_u32 (pc t + 2)) t) vm).
Proof.
  intros F Hop Ha Hc Hv. pose proof F as (H & _).
  rewrite (svm_check_condition_cur _ _ _ _ H) in Hc. apply Ret_value in Hc.
  rewrite (svm_cycle_fetch _ _ _ _ _ F).
  unfold svm_cycle_switch. rewrite Hop. unfold svm_cycle_push.
  rewrite Ha. cbn [Z.eqb ARG_IMM Pos.eqb].
  rewrite bind_unfold, (svm_get_arg_value_imm _ _ _ _ H).
  cbn [pc set_pc]. rewrite Hv, wrap_u32_succ.
  replace (pc t + 1 + 1) with (pc t + 2) by lia.
  rewrite bind_unfold, (svm_check_condition_upd _ _ _ _ _ H).
  cbn [flags set_pc]. rewrite Hc. cbn [negb].
  now rewrite bind_unfold, (get_task_upd _ _ _ _ H).
Qed.

(** X11: PUSH of a literal whose condition holds.  It returns
    [SVM_ERR_STK_OVERFLOW] when [sp + 1 >= stack.size], so the last slot
    is never used; otherwise it stores the literal at slot [sp] and
    raises [sp], provided the buffer has that slot, and is undefined (a
    write outside the buffer) when it has not. *)
Theorem push_imm_executes vm a t w v :
  fetches vm a t w ->
  opcode_of_byte (op (svm_instruction_of_int32 w)) = Some OP_PUSH ->
  arg1 (svm_instruction_of_int32 w) = ARG_IMM ->
  svm_check_condition (ext (svm_instruction_of_int32 w)) vm = Ret true vm ->
  zlookup (code_buffer (code vm)) (wrap_u32 (pc t + 1)) = Some v ->
  0 <= sp t ->
  (size (stack t) <= wrap_u32 (sp t + 1) ->
   svm_cycle handler vm =
   Err SVM_ERR_STK_OVERFLOW (upd a (set_pc (wrap_u32 (pc t + 2)) t) vm)) /\
  (wrap_u32 (sp t + 1) < size (stack t) ->
   sp t < Z.of_nat (length (buffer (stack t))) ->
   svm_cycle handler vm =
   Ret tt (upd a
     (set_sp (wrap_u32 (sp t + 1))
        (set_stack_buffer (<[Z.to_nat (sp t) := v]> (buffer (stack t)))
           (set_pc (wrap_u32 (pc t + 2)) t))) vm)) /\
  (wrap_u32 (sp t + 1) < size (stack t) ->
   Z.of_nat (length (buffer (stack t))) <= sp t ->
   svm_cycle handler vm = Undefined).
Proof.
  intros F Hop Ha Hc Hv Hsp. pose proof F as (H & _).
  rewrite (svm_cycle_push_imm _ _ _ _ _ F Hop Ha Hc Hv).
  split; [|split].
  - intros Hfull.
    replace (wrap_u32 (sp t + 1) >=? size (stack t)) with true
      by (symmetry; rewrite Z.geb_leb; apply Z.leb_le; exact Hfull).
    reflexivity.
  - intros Hroom Hslot.
    replace (wrap_u32 (sp t + 1) >=? size (stack t)) with false
      by (symmetry; rewrite Z.geb_leb; apply Z.leb_gt; exact Hroom).
    rewrite (stack_push_upd _ _ _ _ _ H). cbn [sp stack set_pc]. unfold zinsert.
    replace (0 <=? sp t) with true by (symmetry; apply Z.leb_le; lia).
    replace (sp t <? Z.of_nat (length (buffer (stack t)))) with true
      by (symmetry; apply Z.ltb_lt; lia).
    reflexivity.
  - intros Hroom Hslot.
    replace (wrap_u32 (sp t + 1) >=? size (stack t)) with false
      by (symmetry; rewrite Z.geb_leb; apply Z.leb_gt; exact Hroom).
    rewrite (stack_push_upd _ _ _ _ _ H). cbn [sp stack set_pc]. unfold zinsert.
    replace (sp t <? Z.of_nat (length (buffer (stack t)))) with false
      by (symmetry; apply Z.ltb_ge; lia).
    now rewrite andb_false_r.
Qed.

(** X12: the data stack of a task that [svm_task_init] made has
    [stack.size / 4] slots, because the size is handed to [realloc] as a
    number of bytes, while PUSH compares [sp] with [stack.size].  Hence,
    for such a stack, a PUSH of a literal at [stack.size / 4 <= sp] with
    [sp + 1 < stack.size] is not rejected: it writes outside the buffer.
    With the default size 32 this is the ninth push. *)
Theorem push_beyond_allocation vm a t w v cd pc0 regs junk_call junk_stack :
  fetches vm a t w ->
  opcode_of_byte (op (svm_instruction_of_int32 w)) = Some OP_PUSH ->
  arg1 (svm_instruction_of_int32 w) = ARG_IMM ->
  svm_check_condition (ext (svm_instruction_of_int32 w)) vm = Ret true vm ->
  zlookup (code_buffer (code vm)) (wrap_u32 (pc t + 1)) = Some v ->
  stack t = stack (svm_task_init cd pc0 regs junk_call junk_stack) ->
  0 <= size (stack t) ->
  size (stack t) / 4 <= sp t ->
  wrap_u32 (sp t + 1) < size (stack t) ->
  svm_cycle handler vm = Undefined.
Proof.
  intros F Hop Ha Hc Hv Hst Hsz Hsp Hroom. pose proof F as (H & _).
  rewrite (svm_cycle_push_imm _ _ _ _ _ F Hop Ha Hc Hv).
  replace (wrap_u32 (sp t + 1) >=? size (stack t)) with false
    by (symmetry; rewrite Z.geb_leb; apply Z.leb_gt; exact Hroom).
  rewrite (stack_push_upd _ _ _ _ _ H). cbn [sp stack set_pc]. unfold zinsert.
  assert (Hlen : Z.of_nat (length (buffer (stack t))) = size (stack t) / 4).
  { rewrite Hst. cbn [stack buffer size svm_task_init].
    rewrite length_fresh_buffer. apply Z2Nat.id.
    rewrite Hst in Hsz. cbn [stack size svm_task_init] in Hsz.
    apply Z.div_pos; lia. }
  replace (sp t <? Z.of_nat (length (buffer (stack t)))) with false
    by (symmetry; apply Z.ltb_ge; lia).
  now rewrite andb_false_r.
Qed.

End ExecutionFacts.

(** ** Facts about the task list: switching, creating, removing, loading *)

Section TaskListFacts.
Context {Ctx : Type}.
Implicit Types (vm : svm_t Ctx) (m : gmap positive svm_task_t)
  (l : list positive) (p : task_ptr).

Lemma chain_head m p l : chain m p l -> p = head l.
Proof. destruct l; cbn; [auto | now intros [-> _]]. Qed.

Lemma chain_drop m l : forall p i a,
  chain m p l -> l !! i = Some a ->
  exists t, m !! a = Some t /\ chain m (next t) (drop (S i) l).
Proof.
  induction l as [|b l IH]; intros p i a Hc Hi; [discriminate|].
  destruct Hc as (-> & t & Ht & Hc). destruct i as [|i].
  - injection Hi as <-. exists t. split; [exact Ht | exact Hc].
  - exact (IH _ _ _ Hc Hi).
Qed.

Lemma chain_functional m l : forall p l', chain m p l -> chain m p l' -> l = l'.
Proof.
  induction l as [|a l IH]; intros p [|a' l'] H H'; cbn in *.
  - reflexivity.
  - destruct H' as [-> _]. discriminate.
  - destruct H as [-> _]. discriminate.
  - destruct H as (-> & t & Ht & H), H' as (E & t' & Ht' & H').
    injection E as <-. rewrite Ht in Ht'. injection Ht' as <-.
    f_equal. exact (IH _ _ H H').
Qed.

(** A list that ends with [NULL] has no cycle: no task occurs twice. *)
Lemma chain_head_not_in_tail m p a l : chain m p (a :: l) -> a ∉ l.
Proof.
  intros (-> & t & Ht & Hc) Hin.
  apply list_elem_of_lookup in Hin as [i Hi].
  destruct (chain_drop _ _ _ _ _ Hc Hi) as (t' & Ht' & Hc').
  rewrite Ht in Ht'. injection Ht' as <-.
  pose proof (chain_functional _ _ _ _ Hc Hc') as E.
  apply (f_equal length) in E. rewrite length_drop in E.
  apply lookup_lt_Some in Hi. lia.
Qed.

Lemma chain_insert_fresh m a t l : forall p,
  a ∉ l -> chain m p l -> chain (<[a := t]> m) p l.
Proof.
  induction l as [|b l IH]; intros p Hn Hc; [exact Hc|].
  destruct Hc as (-> & tb & Hb & Hc).
  apply not_elem_of_cons in Hn as [Hab Hn].
  split; [reflexivity|]. exists tb.
  split; [now rewrite lookup_insert_ne | now apply IH].
Qed.

Lemma chain_allocated m l : forall p b, chain m p l -> b ∈ l -> is_Some (m !! b).
Proof.
  induction l as [|a l IH]; intros p b Hc Hb; [now apply elem_of_nil in Hb|].
  destruct Hc as (-> & t & Ht & Hc).
  apply elem_of_cons in Hb as [->|Hb]; [now exists t | exact (IH _ _ Hc Hb)].
Qed.

Lemma set_task_current_same vm : set_task_current (task_current vm) vm = vm.
Proof. now destruct vm. Qed.

(** One switch: the cursor moves to the successor in the list, and from
    the last task to the head. *)
Lemma svm_task_switch_step vm l i a :
  task_switch_block vm = false ->
  chain (tasks vm) (task_head vm) l ->
  l !! i = Some a -> task_current vm = Some a ->
  svm_task_switch vm = Ret tt (set_task_current (l !! (S i mod length l)%nat) vm).
Proof.
  intros Hb Hc Hi Ha. unfold svm_task_switch. rewrite Hb, Ha.
  destruct (chain_drop _ _ _ _ _ Hc Hi) as (t & Ht & Hd).
  rewrite bind_unfold. unfold deref. rewrite Ht.
  apply chain_head in Hd. rewrite head_lookup, lookup_drop, Nat.add_0_r in Hd.
  pose proof (lookup_lt_Some _ _ _ Hi) as Hlt.
  destruct (next t) as [n|] eqn:En.
  - symmetry in Hd. pose proof (lookup_lt_Some _ _ _ Hd) as Hlt'.
    rewrite Nat.mod_small by exact Hlt'. now rewrite Hd.
  - symmetry in Hd. apply lookup_ge_None in Hd.
    replace (S i) with (length l) by lia.
    rewrite Nat.Div0.mod_same.
    rewrite (chain_head _ _ _ Hc). unfold modify. cbn.
    now rewrite head_lookup.
Qed.

(** X13: round robin.  In a VM whose task list is [l] and whose switch
    block is off, with the cursor on the task at position [i], [k] calls
    of [svm_task_switch] all succeed, change nothing but the cursor, and
    leave it on the task at position [(i + k) mod length l]; a full round
    of [length l] calls leaves the VM as it was. *)
Theorem svm_task_switch_round_robin vm l i a :
  task_switch_block vm = false ->
  chain (tasks vm) (task_head vm) l ->
  l !! i = Some a -> task_current vm = Some a ->
  (forall k, svm_task_switches k vm =
     Ret tt (set_task_current (l !! ((i + k) mod length l)%nat) vm)) /\
  svm_task_switches (length l) vm = Ret tt vm.
Proof.
  intros Hb Hc Hi Ha.
  assert (Hk : forall k vm i a,
    task_switch_block vm = false -> chain (tasks vm) (task_head vm) l ->
    l !! i = Some a -> task_current vm = Some a ->
    svm_task_switches k vm =
    Ret tt (set_task_current (l !! ((i + k) mod length l)%nat) vm)).
  { clear. induction k as [|k IH]; intros vm i a Hb Hc Hi Ha.
    - pose proof (lookup_lt_Some _ _ _ Hi) as Hlt.
      rewrite Nat.add_0_r, Nat.mod_small, Hi, <- Ha by exact Hlt.
      cbn [svm_task_switches]. now rewrite ret_unfold, set_task_current_same.
    - cbn [svm_task_switches]. rewrite bind_unfold.
      rewrite (svm_task_switch_step _ _ _ _ Hb Hc Hi Ha).
      pose proof (lookup_lt_Some _ _ _ Hi) as Hlt.
      assert (Hj : (S i mod length l < length l)%nat)
        by (apply Nat.mod_upper_bound; lia).
      destruct (lookup_lt_is_Some_2 _ _ Hj) as [b Hj'].
      rewrite (IH _ (S i mod length l)%nat b);
        [ | exact Hb | exact Hc | exact Hj' | cbn; now rewrite Hj' ].
      rewrite Nat.Div0.add_mod_idemp_l.
      replace (S i + k)%nat with (i + S k)%nat by lia.
      now destruct vm. }
  split; [intros k; exact (Hk k _ _ _ Hb Hc Hi Ha)|].
  rewrite (Hk _ _ _ _ Hb Hc Hi Ha).
  pose proof (lookup_lt_Some _ _ _ Hi) as Hlt.
  replace ((i + length l) mod length l)%nat with i.
  - now rewrite Hi, <- Ha, set_task_current_same.
  - rewrite <- Nat.Div0.add_mod_idemp_r, Nat.Div0.mod_same, Nat.add_0_r.
    symmetry. now apply Nat.mod_small.
Qed.

(** The walk of [svm_task_create] ends on the last task of the list. *)
Lemma svm_task_last_chain m l : forall h fuel,
  chain m (Some h) (h :: l) -> (length l <= fuel)%nat ->
  svm_task_last fuel m h = ScanEnd (last (h :: l)).
Proof.
  induction l as [|b l IH]; intros h fuel (_ & t & Ht & Hc) Hf.
  - cbn in Hc. destruct fuel; cbn; now rewrite Ht, Hc.
  - pose proof Hc as (En & _). destruct fuel as [|fuel]; [cbn in Hf; lia|].
    cbn [svm_task_last]. rewrite Ht, En.
    rewrite En in Hc. rewrite (IH _ _ Hc) by (cbn in Hf; lia).
    reflexivity.
Qed.

(** Linking a task [a] that is not in use behind the last task of a
    list. *)
Lemma chain_append m a task l : forall p,
  chain m p l -> l <> [] -> m !! a = None -> next task = None ->
  exists lst t, last l = Some lst /\ m !! lst = Some t /\
    chain (<[lst := set_next (Some a) t]> (<[a := task]> m)) p (l ++ [a]).
Proof.
  induction l as [|h l IH]; intros p Hc Hne Ha Hn; [contradiction|].
  pose proof (chain_head_not_in_tail _ _ _ _ Hc) as Hh.
  destruct Hc as (-> & t & Ht & Hc).
  assert (Hha : h <> a) by congruence.
  destruct l as [|h2 l].
  - exists h, t. split; [reflexivity|]. split; [exact Ht|].
    cbn in Hc. cbn. split; [reflexivity|].
    exists (set_next (Some a) t). rewrite lookup_insert_eq.
    split; [reflexivity|]. cbn. split; [reflexivity|].
    exists task. rewrite lookup_insert_ne, lookup_insert_eq by congruence.
    split; [reflexivity | exact Hn].
  - destruct (IH _ Hc ltac:(discriminate) Ha Hn) as (lst & tl & Hl & Htl & Hc').
    exists lst, tl. split; [exact Hl|]. split; [exact Htl|].
    assert (Hin : lst ∈ h2 :: l).
    { apply last_Some in Hl as [l' ->]. apply elem_of_app. right. left. }
    assert (Hhl : h <> lst) by (intros ->; contradiction).
    change ((h :: h2 :: l) ++ [a]) with (h :: ((h2 :: l) ++ [a])).
    split; [reflexivity|]. exists t.
    rewrite !lookup_insert_ne by congruence. split; [exact Ht | exact Hc'].
Qed.

(** X14: [svm_task_create] appends.  In a VM whose task list is [l], with
    [a] the address that [svm_malloc] returns, the call succeeds once the
    walk to the end of the list is done, the new list is [l] followed by
    [a], the task at [a] is the one [svm_task_init] makes (it starts at
    the given [pc] with the given registers), and the cursor is not
    moved. *)
Theorem svm_task_create_appends vm l a pc0 regs junk_call junk_stack :
  chain (tasks vm) (task_head vm) l ->
  tasks vm !! a = None ->
  exists vm',
    (forall fuel, (length l <= fuel)%nat ->
       svm_task_create fuel (Some a) pc0 regs junk_call junk_stack vm =
       Some (Ret tt vm')) /\
    chain (tasks vm') (task_head vm') (l ++ [a]) /\
    tasks vm' !! a = Some (svm_task_init (code vm) pc0 regs junk_call junk_stack) /\
    task_current vm' = task_current vm /\
    running vm' = running vm /\ code vm' = code vm.
Proof.
  intros Hc Ha. unfold svm_task_create.
  set (task := svm_task_init (code vm) pc0 regs junk_call junk_stack).
  destruct l as [|h l].
  - cbn in Hc. cbn [task_head set_tasks]. rewrite Hc.
    eexists. split; [intros fuel _; reflexivity|].
    cbn. rewrite lookup_insert_eq.
    split; [|auto]. split; [reflexivity|]. now exists task.
  - pose proof Hc as (Hh & _). cbn [task_head set_tasks]. rewrite Hh.
    destruct (chain_append _ a task _ _ Hc ltac:(discriminate) Ha eq_refl)
      as (lst & t & Hl & Ht & Hc').
    assert (Hla : lst <> a) by congruence.
    exists (set_tasks (<[lst := set_next (Some a) t]> (<[a := task]> (tasks vm))) vm).
    split; [|split; [exact Hc'|]].
    + intros fuel Hf. cbn [tasks set_tasks].
      rewrite (svm_task_last_chain _ l).
      * rewrite Hl. f_equal. rewrite bind_unfold. unfold deref, store.
        cbn [tasks set_tasks].
        rewrite !lookup_insert_ne by congruence. rewrite Ht.
        cbn [tasks set_tasks].
        rewrite lookup_insert_ne by congruence. now rewrite Ht.
      * rewrite <- Hh. apply chain_insert_fresh; [|exact Hc].
        intros Hin. destruct (chain_allocated _ _ _ _ Hc Hin) as [x Hx]. congruence.
      * cbn in Hf. lia.
    + cbn. rewrite lookup_insert_ne, lookup_insert_eq by congruence. auto.
Qed.

(** X15: removing the head.  In a VM whose task list is [a :: l],
    [svm_task_remove] of [a] succeeds and the list becomes [l].  The
    cursor is not moved, whatever it points to, and the record of [a]
    stays allocated with both of its stacks released: a cursor that was
    on [a] is left on a task without stacks. *)
Theorem svm_task_remove_head_chain fuel vm a l :
  chain (tasks vm) (task_head vm) (a :: l) ->
  exists t vm',
    tasks vm !! a = Some t /\
    svm_task_remove fuel (Some a) vm = Some (Ret tt vm') /\
    chain (tasks vm') (task_head vm') l /\
    task_current vm' = task_current vm /\
    tasks vm' !! a = Some (set_stack_buffer [] (set_call_stack_buffer [] t)).
Proof.
  intros Hc. pose proof (chain_head_not_in_tail _ _ _ _ Hc) as Hn.
  destruct Hc as (Hh & t & Ht & Hc).
  exists t. eexists. split; [exact Ht|].
  split; [exact (svm_task_remove_head fuel vm a t Hh Ht)|].
  cbn. rewrite lookup_insert_eq.
  split; [now apply chain_insert_fresh | auto].
Qed.

(** X16: [svm_load] on a VM as [svm_init] leaves it.  With [a] the
    address that [svm_malloc] returns, the call succeeds; afterwards the
    VM runs the image, its only task is the new one at [a], at [pc = 0]
    with sixteen zero registers and no flag set, and the cursor is on
    it.  When the allocation fails the call returns [SVM_ERR_BAD_ALLOC]
    and the VM is not running, but the image stays installed. *)
Theorem svm_load_starts_first_task fuel cd junk_call junk_stack vm :
  initialized vm ->
  (forall a, exists vm',
     svm_load fuel cd (Some a) junk_call junk_stack vm = Some (Ret tt vm') /\
     running vm' = true /\ code vm' = cd /\
     chain (tasks vm') (task_head vm') [a] /\
     cur vm' a (svm_task_init cd 0 (replicate 16 0) junk_call junk_stack) /\
     task_switch_block vm' = false) /\
  (exists vm',
     svm_load fuel cd None junk_call junk_stack vm =
     Some (Err SVM_ERR_BAD_ALLOC vm') /\
     running vm' = false /\ code vm' = cd /\ task_head vm' = None).
Proof.
  intros (Hr & Hb & Hcur & Hh). split.
  - intros a. unfold svm_load, svm_task_create. cbn [task_head set_tasks].
    rewrite Hh. eexists. split.
    + unfold svm_task_switch. cbn. rewrite Hb, Hcur. reflexivity.
    + cbn. rewrite lookup_insert_eq. unfold cur. cbn. rewrite lookup_insert_eq.
      repeat split; try reflexivity; try exact Hb.
      now eexists.
  - unfold svm_load, svm_task_create. eexists. split; [reflexivity|].
    cbn. auto.
Qed.

End TaskListFacts.

(** ** Facts about a cycle that fails *)

Section FailureFacts.
Context {Ctx : Type}.
Variable handler : Ctx -> list Z -> Z -> Ctx * list Z.
Implicit Types (vm : svm_t Ctx) (t : svm_task_t) (a : positive).

(** X17: a cycle that returns an error has no partial effect on the
    data of the current task: its registers, flags, data stack and stack
    pointer are as before, and so are the call stack and [rpc] unless
    the error is [SVM_ERR_JMP_OVERFLOW].  The VM keeps the running state
    it had, so that the next cycle goes on behind the instruction that
    failed; only [SVM_ERR_CODE_OVERFLOW] stops it. *)
Theorem failed_cycle_keeps_task vm a t e vm' :
  cur vm a t ->
  svm_cycle handler vm = Err e vm' ->
  exists t',
    cur vm' a t' /\
    registers t' = registers t /\ flags t' = flags t /\
    sp t' = sp t /\ stack t' = stack t /\ next t' = next t /\
    (e <> SVM_ERR_JMP_OVERFLOW -> rpc t' = rpc t /\ call_stack t' = call_stack t) /\
    (running vm' = running vm \/
     e = SVM_ERR_CODE_OVERFLOW /\ running vm' = false).
Proof.
  intros H E.
  destruct (svm_cycle_error_frame handler _ _ _ _ _ H E)
    as [[p ->]|[[-> ->]|(-> & p & b & ->)]].
  - exists (set_pc p t). split; [exact (cur_upd _ _ _ _ H)|].
    repeat split; try reflexivity. now left.
  - exists t. split; [exact H|]. repeat split; try reflexivity. now right.
  - eexists. split; [exact (cur_upd _ _ _ _ H)|].
    repeat split; try reflexivity; try congruence. now left.
Qed.

End FailureFacts.

(** ** Facts about the tokenizer *)

Lemma skip_token_test c :
  negb (Ascii.eqb c " ") && negb (Ascii.eqb c LF)
    && negb (Ascii.eqb c ".") && negb (Ascii.eqb c NUL) = negb (is_separator c).
Proof.
  unfold is_separator.
  now destruct (Ascii.eqb c " "), (Ascii.eqb c LF), (Ascii.eqb c "."), (Ascii.eqb c NUL).
Qed.

Lemma skip_blank_spec l : forall p q,
  skip_blank l p = Some q ->
  exists k, q = (p + k)%nat /\
    Forall (fun c => c = " "%char \/ c = LF) (take k l) /\
    exists c, l !! k = Some c /\ (Ascii.eqb c " " || Ascii.eqb c LF) = false.
Proof.
  induction l as [|c l IH]; intros p q Hs; [discriminate|].
  cbn [skip_blank] in Hs.
  destruct (Ascii.eqb c " " || Ascii.eqb c LF) eqn:E.
  - destruct (IH _ _ Hs) as (k & -> & Hf & Hc).
    exists (S k). split; [lia|]. split; [|exact Hc].
    cbn. constructor; [|exact Hf].
    apply orb_true_iff in E as [E|E]; apply Ascii.eqb_eq in E; auto.
  - injection Hs as <-. exists O. split; [lia|]. split; [constructor|].
    now exists c.
Qed.

Lemma skip_token_spec l : forall p q,
  skip_token l p = Some q ->
  exists k, q = (p + k)%nat /\
    Forall (fun c => is_separator c = false) (take k l) /\
    exists c, l !! k = Some c /\ is_separator c = true.
Proof.
  induction l as [|c l IH]; intros p q Hs; [discriminate|].
  cbn [skip_token] in Hs. rewrite skip_token_test in Hs.
  destruct (is_separator c) eqn:E; cbn [negb] in Hs.
  - injection Hs as <-. exists O. split; [lia|]. split; [constructor|].
    now exists c.
  - destruct (IH _ _ Hs) as (k & -> & Hf & Hc).
    exists (S k). split; [lia|]. split; [|exact Hc].
    cbn. now constructor.
Qed.

Lemma skip_token_stop k : forall l p c,
  Forall (fun c => is_separator c = false) (take k l) ->
  l !! k = Some c -> is_separator c = true ->
  skip_token l p = Some (p + k)%nat.
Proof.
  induction k as [|k IH]; intros [|x l] p c Hf Hk Hc; try discriminate.
  - injection Hk as ->. cbn [skip_token]. rewrite skip_token_test, Hc.
    cbn. f_equal. lia.
  - cbn in Hf. apply Forall_cons in Hf as [Hx Hf].
    cbn [skip_token]. rewrite skip_token_test, Hx. cbn [negb].
    rewrite (IH _ _ _ Hf Hk Hc). f_equal. lia.
Qed.

Lemma c_string_at_insert k : forall l,
  (k < length l)%nat ->
  Forall (fun c => is_separator c = false) (take k l) ->
  c_string_at (<[k := NUL]> l) = take k l.
Proof.
  induction k as [|k IH]; intros [|x l] Hk Hf; cbn in Hk; try lia.
  - reflexivity.
  - cbn in Hf. apply Forall_cons in Hf as [Hx Hf].
    cbn. unfold is_separator in Hx.
    apply orb_false_elim in Hx as [_ Hx]. rewrite Hx.
    f_equal. apply IH; [lia | exact Hf].
Qed.

(** What a call that returns a token has done. *)
Lemma svm_asm_next_token_inv buf source source_end token buf' source' :
  svm_asm_next_token buf source source_end = Tok token buf' source' ->
  exists k1 k2 c sep,
    (source < source_end)%nat /\
    token = (source + k1)%nat /\ source' = S (token + k2) /\
    buf' = <[(token + k2)%nat := NUL]> buf /\
    Forall (fun c => c = " "%char \/ c = LF) (take k1 (drop source buf)) /\
    buf !! token = Some c /\
    (Ascii.eqb c " " || Ascii.eqb c LF) = false /\ Ascii.eqb c "#" = false /\
    Forall (fun c => is_separator c = false) (take k2 (drop token buf)) /\
    buf !! (token + k2)%nat = Some sep /\ is_separator sep = true.
Proof.
  unfold svm_asm_next_token. intros Hn.
  destruct (Nat.leb_spec source_end source) as [|Hlt]; [discriminate|].
  destruct (skip_blank (drop source buf) source) as [p1|] eqn:E1; [|discriminate].
  destruct (buf !! p1) as [c|] eqn:Ec; [|discriminate].
  destruct (Ascii.eqb c "#") eqn:Eh.
  { now rewrite skip_comment_runs_off in Hn. }
  destruct (skip_token (drop p1 buf) p1) as [p3|] eqn:E3; [|discriminate].
  injection Hn as <- <- <-.
  destruct (skip_blank_spec _ _ _ E1) as (k1 & -> & Hf1 & c1 & Hc1 & Hb1).
  destruct (skip_token_spec _ _ _ E3) as (k2 & -> & Hf2 & sep & Hs & Hsep).
  rewrite lookup_drop in Hc1, Hs.
  assert (c1 = c) as -> by congruence.
  exists k1, k2, c, sep. repeat split; auto.
Qed.

(** X18: a call of [svm_asm_next_token] that returns a token.  The
    token starts at or after the old [source], behind blanks only, and
    the new [source] is behind it, at most one past the buffer: the call
    makes progress.  One character has changed: the separator that ended
    the token is now a NUL, so the token is the C string of the
    characters in between, none of which is a separator. *)
Theorem svm_asm_next_token_token buf source source_end token buf' source' :
  svm_asm_next_token buf source source_end = Tok token buf' source' ->
  (source <= token < source')%nat /\ (source' <= length buf)%nat /\
  buf' = <[pred source' := NUL]> buf /\
  (exists sep, buf !! pred source' = Some sep /\ is_separator sep = true) /\
  c_string_at (drop token buf') = take (pred source' - token) (drop token buf) /\
  Forall (fun c => is_separator c = false) (c_string_at (drop token buf')) /\
  Forall (fun c => c = " "%char \/ c = LF) (take (token - source) (drop source buf)).
Proof.
  intros Hn.
  destruct (svm_asm_next_token_inv _ _ _ _ _ _ Hn)
    as (k1 & k2 & c & sep & Hlt & -> & -> & -> & Hf1 & Hc & Hb & Hh & Hf2 & Hs & Hsep).
  pose proof (lookup_lt_Some _ _ _ Hs) as Hlen.
  cbn [pred].
  replace (source + k1 + k2 - (source + k1))%nat with k2 by lia.
  replace (source + k1 - source)%nat with k1 by lia.
  assert (Hstr : c_string_at (drop (source + k1) (<[(source + k1 + k2)%nat := NUL]> buf))
                 = take k2 (drop (source + k1) buf)).
  { rewrite drop_insert_ge by lia.
    replace (source + k1 + k2 - (source + k1))%nat with k2 by lia.
    apply c_string_at_insert; [rewrite length_drop; lia | exact Hf2]. }
  rewrite Hstr.
  split; [lia|]. split; [lia|]. split; [reflexivity|].
  split; [now exists sep|]. auto.
Qed.

(** X19: [svm_asm_rollback_token] undoes the reading of a token.  After
    a call of [svm_asm_next_token] that returned a token that is not
    empty and starts before [source_end], rolling back succeeds and puts
    [source] on the token, and the next call returns the same token and
    ends in the same state as the first one.  (The separator that ended
    the token is a space in between.) *)
Theorem rollback_then_next_token buf source source_end token buf1 source1 :
  svm_asm_next_token buf source source_end = Tok token buf1 source1 ->
  (token < source_end)%nat ->
  (S token < source1)%nat ->
  exists buf2,
    svm_asm_rollback_token token buf1 source1 = Some (buf2, token) /\
    buf2 = <[pred source1 := " "%char]> buf /\
    svm_asm_next_token buf2 token source_end = Tok token buf1 source1.
Proof.
  intros Hn Hend Hne.
  destruct (svm_asm_next_token_inv _ _ _ _ _ _ Hn)
    as (k1 & k2 & c & sep & Hlt & Ht & -> & -> & Hf1 & Hc & Hb & Hh & Hf2 & Hs & Hsep).
  clear Ht Hf1 Hn.
  pose proof (lookup_lt_Some _ _ _ Hs) as Hlen.
  assert (Hk2 : (0 < k2)%nat) by lia.
  exists (<[(token + k2)%nat := " "%char]> buf).
  unfold svm_asm_rollback_token. rewrite length_insert.
  replace (token + k2 <? length buf)%nat with true
    by (symmetry; apply Nat.ltb_lt; exact Hlen).
  rewrite list_insert_insert_eq.
  split; [reflexivity|]. split; [reflexivity|].
  set (buf2 := <[(token + k2)%nat := " "%char]> buf).
  assert (Hc2 : buf2 !! token = Some c).
  { unfold buf2. rewrite list_lookup_insert_ne by lia. exact Hc. }
  unfold svm_asm_next_token.
  replace (source_end <=? token)%nat with false
    by (symmetry; apply Nat.leb_gt; exact Hend).
  rewrite (drop_S _ _ _ Hc2) at 1. cbn [skip_blank]. rewrite Hb, Hc2, Hh.
  assert (Hd : drop token buf2 = <[k2 := " "%char]> (drop token buf)).
  { unfold buf2. rewrite drop_insert_ge by lia. f_equal. lia. }
  rewrite (skip_token_stop k2 _ _ " "%char).
  - unfold buf2. now rewrite list_insert_insert_eq.
  - rewrite Hd, take_insert_ge by lia. exact Hf2.
  - rewrite Hd. apply list_lookup_insert_eq. rewrite length_drop. lia.
  - reflexivity.
Qed.

(** ** Facts about the front end of the assembler *)

Lemma svm_str2arg_range s : ARG_R0 <= svm_str2arg (Some s) <= ARG_IMM.
Proof.
  unfold svm_str2arg, ARG_R, ARG_R0, ARG_IMM.
  repeat match goal with
         | |- context [if ?c then _ else _] => destruct c
         end; lia.
Qed.

(** X20: the operand check of [svm_asm] never rejects.  For every opcode
    and every token, [svm_asm_check_constraint] accepts the operand type
    of the token for exactly the operand slots that the opcode uses, and
    these are the only ones [svm_asm] checks: a literal where a register
    is needed passes the assembler. *)
Theorem argument_constraints_never_reject o s :
  svm_asm_check_constraint (arg1_restrict (opcode_meta o)) (svm_str2arg (Some s))
    = (0 <? arg_count (opcode_meta o)) /\
  svm_asm_check_constraint (arg2_restrict (opcode_meta o)) (svm_str2arg (Some s))
    = (1 <? arg_count (opcode_meta o)).
Proof.
  pose proof (svm_str2arg_range s) as H. unfold ARG_R0, ARG_IMM in H.
  assert (E : (svm_str2arg (Some s) =? ARG_NONE) = false)
    by (apply Z.eqb_neq; unfold ARG_NONE; lia).
  destruct o; cbn [opcode_meta arg_count arg1_restrict arg2_restrict
                   svm_asm_check_constraint]; rewrite E; split; reflexivity.
Qed.

(** X22: the mnemonics.  [svm_str2opcode] never returns [OP_PUSH],
    [OP_POP], [OP_AND], [OP_OR], [OP_XOR], [OP_SHL] or [OP_SHR]: the
    assembler has no way to emit these opcodes.  And no name that
    [svm_opcode2str] prints is a mnemonic that [svm_str2opcode] reads. *)
Theorem assembler_mnemonics :
  (forall s o, svm_str2opcode s = Some o ->
     o ∉ [OP_PUSH; OP_POP; OP_AND; OP_OR; OP_XOR; OP_SHL; OP_SHR]) /\
  (forall o, svm_str2opcode (Some (svm_opcode2str o)) = None).
Proof.
  split.
  - intros [s|] o; [|discriminate]. unfold svm_str2opcode.
    repeat match goal with
           | |- context [if ?c then _ else _] => destruct c
           end; intros E; try discriminate E; injection E as <-;
      intros Hin; repeat (apply elem_of_cons in Hin as [Hin|Hin]; [discriminate|]);
      now apply elem_of_nil in Hin.
  - now intros [].
Qed.

Lemma svm_str2ext_value sx :
  exists e, (if svm_str2ext sx =? EXT_MAX then ext_value EXT_NONE else svm_str2ext sx)
            = ext_value e.
Proof.
  destruct sx as [s|]; [|now exists EXT_NONE].
  unfold svm_str2ext.
  repeat match goal with
         | |- context [if String.eqb ?a ?b then _ else _] => destruct (String.eqb a b)
         end;
    first [ now exists EXT_EQ | now exists EXT_NE | now exists EXT_LT
          | now exists EXT_LE | now exists EXT_GT | now exists EXT_GE
          | now exists EXT_NZ | now exists EXT_Z | now exists EXT_NONE ].
Qed.

(** X23: every word that [svm_asm] emits for an instruction decodes to
    the opcode it was built from, to a condition suffix that
    [svm_check_condition] knows, and to operand types below [ARG_MAX];
    an operand type is [ARG_NONE] exactly when its token is missing. *)
Theorem assembled_word_decodes o sx s1 s2 :
  let i := svm_instruction_of_int32
             (svm_asm_encode o (svm_str2ext sx) (svm_str2arg s1) (svm_str2arg s2)) in
  opcode_of_byte (op i) = Some o /\
  is_Some (ext_of_byte (ext i)) /\
  ARG_NONE <= arg1 i < ARG_MAX /\ ARG_NONE <= arg2 i < ARG_MAX /\
  (arg1 i = ARG_NONE <-> s1 = None) /\ (arg2 i = ARG_NONE <-> s2 = None).
Proof.
  unfold svm_asm_encode.
  destruct (svm_str2ext_value sx) as [e ->].
  assert (Ha : forall s : c_string,
    let a := if svm_str2arg s =? ARG_MAX then ARG_NONE else svm_str2arg s in
    ARG_NONE <= a < ARG_MAX /\ (a = ARG_NONE <-> s = None)).
  { intros [s|]; cbn zeta.
    - pose proof (svm_str2arg_range s) as H.
      unfold ARG_R0, ARG_IMM, ARG_NONE, ARG_MAX in *.
      destruct (Z.eqb_spec (svm_str2arg (Some s)) 18); [lia|].
      split; [lia|]. split; [lia | discriminate].
    - cbn. unfold ARG_NONE, ARG_MAX. split; [lia | tauto]. }
  pose proof (Ha s1) as [R1 N1]. pose proof (Ha s2) as [R2 N2].
  cbn zeta in *.
  rewrite svm_instruction_of_to_int32; cbn [op ext arg1 arg2].
  - rewrite opcode_of_byte_value, ext_of_byte_value. eauto 10.
  - unfold byte. destruct o; cbn; lia.
  - unfold byte. destruct e; cbn; lia.
  - unfold byte, ARG_NONE, ARG_MAX in *. lia.
  - unfold byte, ARG_NONE, ARG_MAX in *. lia.
Qed.

(** ** Facts about [svm_to_int32] on decimal literals *)

Lemma spec_literal_value_digits s : forall acc n,
  Forall (fun ch => is_digit_0_8 ch = true) (list_ascii_of_string s) ->
  spec_literal_value 10 s acc = Some n -> 0 <= acc -> n < 2 ^ 31 ->
  svm_to_int32_loop 10 s acc = (true, n) /\ acc <= n.
Proof.
  induction s as [|ch s IH]; intros acc n Hd Hv Hacc Hn.
  - injection Hv as <-. split; [reflexivity | lia].
  - cbn [list_ascii_of_string] in Hd. apply Forall_cons in Hd as [Hch Hd].
    cbn [spec_literal_value svm_to_int32_loop] in *.
    unfold is_digit_0_8 in Hch. rewrite Hch.
    apply andb_true_iff in Hch as [H0 H9].
    apply Z.leb_le in H0. apply Z.ltb_lt in H9.
    unfold spec_digit_value in Hv.
    replace ((char_code "0" <=? char_code ch) && (char_code ch <=? char_code "9"))
      with true in Hv
      by (symmetry; apply andb_true_iff; split; apply Z.leb_le; lia).
    cbn zeta in Hv.
    change (char_code "0") with 48 in *. change (char_code "9") with 57 in *.
    replace (char_code ch - 48 <? 10) with true in Hv
      by (symmetry; apply Z.ltb_lt; lia).
    destruct (IH _ _ Hd Hv ltac:(lia) Hn) as [Hl Hle].
    assert (Hw : wrap_i32 (acc * 10 + (char_code ch - 48)) = acc * 10 + (char_code ch - 48)).
    { unfold wrap_i32. rewrite Z.mod_small; lia. }
    rewrite Hw. split; [exact Hl | lia].
Qed.

(** X21: [svm_to_int32] reads a decimal literal correctly when it has no
    digit 9 and its value fits [int32_t]: for a text of the characters
    ['0'] to ['8'] whose decimal value [n] is below [2^31], the result is
    [true] with [n] stored. *)
Theorem svm_to_int32_decimal s n :
  Forall (fun ch => is_digit_0_8 ch = true) (list_ascii_of_string s) ->
  spec_literal_value 10 s 0 = Some n ->
  n < 2 ^ 31 ->
  svm_to_int32 s = (true, n).
Proof.
  intros Hd Hv Hn.
  assert (E : svm_to_int32 s = svm_to_int32_loop 10 s 0).
  { destruct s as [|c1 [|c2 r]]; try reflexivity.
    - unfold svm_to_int32. now destruct c1 as [[] [] [] [] [] [] [] []].
    - cbn [list_ascii_of_string] in Hd.
      apply Forall_cons in Hd as [_ Hd]. apply Forall_cons in Hd as [H2 _].
      unfold svm_to_int32.
      destruct c2 as [[] [] [] [] [] [] [] []]; try discriminate H2;
        destruct c1 as [[] [] [] [] [] [] [] []]; now destruct r. }
  rewrite E. now apply spec_literal_value_digits.
Qed.

(** ** Facts about the system call *)

Section SysFacts.
Context {Ctx : Type}.
Variable handler : Ctx -> list Z -> Z -> Ctx * list Z.
Implicit Types (vm : svm_t Ctx) (t : svm_task_t) (a : positive).

(** X24: SYS calls the handler with the user context, the registers of
    the current task and the value of its operand, and installs the
    context and the registers that the handler leaves; only [pc] changes
    besides.  The call is made whatever the condition suffix of the
    instruction and the flags are. *)
Theorem sys_executes vm a t w num vm1 :
  fetches vm a t w ->
  opcode_of_byte (op (svm_instruction_of_int32 w)) = Some OP_SYS ->
  svm_get_arg_value (arg1 (svm_instruction_of_int32 w))
    (upd a (set_pc (wrap_u32 (pc t + 1)) t) vm) = Ret num vm1 ->
  exists p,
    vm1 = upd a (set_pc p t) vm /\
    svm_cycle handler vm =
    Ret tt (upd a (set_registers (snd (handler (ctx vm) (registers t) num)) (set_pc p t))
              (set_ctx (fst (handler (ctx vm) (registers t) num)) vm)).
Proof.
  intros F Hop E1. pose proof F as (H & _).
  destruct (svm_get_arg_value_shape _ _ _ _ _ _ _ H E1) as [p ->].
  exists p. split; [reflexivity|].
  rewrite (svm_cycle_fetch handler _ _ _ _ F).
  unfold svm_cycle_switch. rewrite Hop. unfold svm_cycle_sys.
  rewrite bind_unfold, E1, bind_unfold, (get_task_upd _ _ _ _ H).
  rewrite bind_unfold. unfold get_ctx, modify. rewrite bind_unfold.
  destruct H as [Hc Ht]. unfold put_task. cbn. rewrite Hc.
  rewrite lookup_insert_eq. unfold upd. cbn. now rewrite insert_insert_eq.
Qed.

End SysFacts.

(** ** Facts about operators without a result *)

Section UncheckedFacts.
Context {Ctx : Type}.
Variable handler : Ctx -> list Z -> Z -> Ctx * list Z.
Implicit Types (vm : svm_t Ctx) (t : svm_task_t) (a : positive).

(** X25: no cycle reports a division by zero or a shift count out of
    range.  DIV whose condition holds, with a register as first operand
    and a second operand 0 (or with [INT32_MIN] divided by [-1]), and
    SHL and SHR with a second operand below 0 or above 31, evaluate the C
    operator on these operands: the behaviour of the cycle is
    undefined. *)
Theorem div_and_shift_unchecked vm a t w o f r x vm1 old :
  fetches vm a t w ->
  opcode_of_byte (op (svm_instruction_of_int32 w)) = Some o ->
  alu_of_opcode o = Some f ->
  svm_check_condition (ext (svm_instruction_of_int32 w)) vm = Ret true vm ->
  arg1 (svm_instruction_of_int32 w) = ARG_R r -> 0 <= r <= 15 ->
  svm_get_arg_value (arg2 (svm_instruction_of_int32 w))
    (upd a (set_pc (wrap_u32 (pc t + 1)) t) vm) = Ret x vm1 ->
  zlookup (registers t) r = Some old ->
  (o = OP_DIV /\ (x = 0 \/ (old = INT32_MIN /\ x = -1))) \/
  ((o = OP_SHL \/ o = OP_SHR) /\ (x < 0 \/ 32 <= x)) ->
  svm_cycle handler vm = Undefined.
Proof.
  intros F Hop Hf Hc Ha Hr E1 Hold Hbad. pose proof F as (H & _).
  rewrite (svm_check_condition_cur _ _ _ _ H) in Hc. apply Ret_value in Hc.
  destruct (svm_get_arg_value_shape _ _ _ _ _ _ _ H E1) as [p ->].
  assert (Hv : f old x = None).
  { destruct Hbad as [[-> Hx]|[Ho Hx]].
    - injection Hf as <-. unfold alu_div.
      destruct Hx as [->|[-> ->]]; reflexivity.
    - assert (Hr32 : (0 <=? x) && (x <? 32) = false).
      { apply andb_false_iff. destruct Hx; [left; apply Z.leb_gt | right; apply Z.ltb_ge]; lia. }
      destruct Ho as [->| ->]; injection Hf as <-;
        unfold alu_shl, alu_shr; now rewrite Hr32. }
  rewrite (svm_cycle_fetch handler _ _ _ _ F).
  set (i := svm_instruction_of_int32 w) in *.
  assert (Hsw : svm_cycle_switch handler i = svm_cycle_binop f i).
  { unfold svm_cycle_switch. rewrite Hop.
    destruct o; try discriminate Hf; injection Hf as <-; reflexivity. }
  rewrite Hsw. unfold svm_cycle_binop.
  rewrite bind_unfold, E1, bind_unfold, (svm_check_condition_upd _ _ _ _ _ H).
  cbn [flags set_pc]. rewrite Hc. cbn [negb].
  rewrite Ha. unfold ARG_R. rewrite svm_arg_to_reg_register by lia.
  replace (r <? R_MAX) with true by (symmetry; apply Z.ltb_lt; unfold R_MAX; lia).
  cbn [negb].
  rewrite bind_unfold, (read_register_upd _ _ _ _ _ H).
  cbn [registers set_pc]. rewrite Hold.
  rewrite bind_unfold, Hv. reflexivity.
Qed.

End UncheckedFacts.

(** ** The further statements on concrete machines *)

Lemma svm_cycle_never_switches_tasks_witness :
  vm_frame vm_end_eq
    (set_running false (upd 1 (set_pc 1 (fresh_task zero_registers)) vm_end_eq)).
Proof.
  apply (proj1 (svm_cycle_never_switches_tasks weak_sys_handler)).
  left. reflexivity.
Defined.

Lemma end_and_overflow_halt_witness :
  svm_cycle weak_sys_handler vm_end_eq =
  Ret tt (set_running false (upd 1 (set_pc 1 (fresh_task zero_registers)) vm_end_eq)) /\
  forall n,
    svm_run weak_sys_handler (S n)
      (set_running false (upd 1 (set_pc 1 (fresh_task zero_registers)) vm_end_eq)) =
    Err SVM_ERR_NOT_RUNNING
      (set_running false (upd 1 (set_pc 1 (fresh_task zero_registers)) vm_end_eq)).
Proof.
  apply (proj2 (end_and_overflow_halt weak_sys_handler vm_end_eq 1
                  (fresh_task zero_registers)
                  (conj eq_refl eq_refl) eq_refl)
           (word OP_END EXT_EQ ARG_NONE ARG_NONE)).
  - cbn. lia.
  - reflexivity.
  - reflexivity.
Defined.

Lemma binop_executes_witness :
  exists p,
    upd 1 (set_pc 2 task_r0_5) vm_add = upd 1 (set_pc p task_r0_5) vm_add /\
    svm_cycle weak_sys_handler vm_add =
    Ret tt (upd 1
      (set_flags (nz_z_flags 12 no_flags)
         (set_registers (12 :: replicate 15 0) (set_pc p task_r0_5))) vm_add).
Proof.
  apply (binop_executes weak_sys_handler vm_add 1 task_r0_5
           (word OP_ADD EXT_NONE (ARG_R 0) ARG_IMM) OP_ADD alu_add 0 7
           (upd 1 (set_pc 2 task_r0_5) vm_add) 5 12).
  - apply fetches_vm_with; reflexivity.
  - reflexivity.
  - reflexivity.
  - reflexivity.
  - reflexivity.
  - lia.
  - reflexivity.
  - reflexivity.
  - reflexivity.
Defined.

Lemma binop_first_operand_not_register_witness :
  svm_cycle weak_sys_handler vm_mov_literal_first =
  Err SVM_ERR_ARG_NOT_REG
    (upd 1 (set_pc 1 (fresh_task zero_registers)) vm_mov_literal_first).
Proof.
  apply (binop_first_operand_not_register weak_sys_handler vm_mov_literal_first 1
           (fresh_task zero_registers)
           (word OP_MOV EXT_NONE ARG_IMM (ARG_R 0)) OP_MOV alu_mov 0).
  - apply fetches_vm_with; reflexivity.
  - reflexivity.
  - reflexivity.
  - reflexivity.
  - reflexivity.
  - reflexivity.
Defined.

Lemma jmp_executes_witness :
  svm_cycle weak_sys_handler vm_jmp =
  Ret tt (upd 1 (set_pc 0 (fresh_task zero_registers)) vm_jmp).
Proof.
  apply (jmp_executes weak_sys_handler vm_jmp 1 (fresh_task zero_registers)
           (word OP_JMP EXT_NONE ARG_IMM ARG_NONE) 0
           (upd 1 (set_pc 2 (fresh_task zero_registers)) vm_jmp)).
  - apply fetches_vm_with; reflexivity.
  - reflexivity.
  - reflexivity.
  - reflexivity.
  - cbn. reflexivity.
Defined.

Lemma inv_ret_roundtrip_witness :
  exists p vm3 t3,
    upd 1 (set_pc 2 (fresh_task zero_registers)) vm_ret_eq =
      upd 1 (set_pc p (fresh_task zero_registers)) vm_ret_eq /\
    pc task_called = wrap_u32 3 /\ rpc task_called = 0 + 1 /\
    zlookup (buffer (call_stack task_called)) 0 = Some (wrap_i32 p) /\
    svm_cycle weak_sys_handler (upd 1 task_called vm_ret_eq) = Ret tt vm3 /\
    cur vm3 1 t3 /\
    pc t3 = p /\ rpc t3 = 0 /\
    registers t3 = zero_registers /\ flags t3 = no_flags /\
    sp t3 = 0 /\ stack t3 = stack (fresh_task zero_registers).
Proof.
  apply (inv_ret_roundtrip weak_sys_handler vm_ret_eq 1 (fresh_task zero_registers)
           (word OP_INV EXT_NONE ARG_IMM ARG_NONE) 3
           (upd 1 (set_pc 2 (fresh_task zero_registers)) vm_ret_eq)
           (upd 1 task_called vm_ret_eq) task_called
           (word OP_RET EXT_EQ ARG_NONE ARG_NONE)).
  - apply fetches_vm_with; reflexivity.
  - reflexivity.
  - reflexivity.
  - reflexivity.
  - cbn. lia.
  - unfold uint32. cbn. lia.
  - reflexivity.
  - unfold fetches, cur. cbn. repeat split; reflexivity.
  - reflexivity.
Defined.

Lemma call_stack_bounds_witness :
  svm_cycle weak_sys_handler vm_ret =
  Err SVM_ERR_CALL_STK_UNDERFLOW
    (upd 1 (set_pc 1 (fresh_task zero_registers)) vm_ret).
Proof.
  assert (F : fetches vm_ret 1 (fresh_task zero_registers)
                (word OP_RET EXT_NONE ARG_NONE ARG_NONE))
    by (apply fetches_vm_with; reflexivity).
  apply (proj2 (call_stack_bounds weak_sys_handler vm_ret 1
                  (fresh_task zero_registers)
                  (word OP_RET EXT_NONE ARG_NONE ARG_NONE) F)).
  - reflexivity.
  - cbn. lia.
Defined.

Lemma clf_clears_witness :
  exists f',
    svm_cycle weak_sys_handler vm_clf_cmp =
    Ret tt (upd 1 (set_flags f' (set_pc 1 (set_flags all_flags task_r0_5))) vm_clf_cmp) /\
    forall e, e <> 0 -> condition e f' = false.
Proof.
  destruct (clf_clears weak_sys_handler vm_clf_cmp 1 (set_flags all_flags task_r0_5)
              (word OP_CLF EXT_NONE ARG_NONE ARG_NONE)) as (f' & E & Hall & _).
  - apply fetches_vm_with; reflexivity.
  - reflexivity.
  - exists f'. split; [exact E|]. apply Hall. reflexivity.
Defined.

Lemma clf_cmp_exact_witness :
  exists vm' t',
    svm_cycle weak_sys_handler (upd 1 task_cleared vm_clf_cmp) = Ret tt vm' /\
    cur vm' 1 t' /\
    flags t' =
    {| flag_eq := false; flag_ne := true; flag_lt := true; flag_le := true;
       flag_gt := false; flag_ge := false; flag_nz := false; flag_z := false |}.
Proof.
  apply (clf_cmp_exact weak_sys_handler vm_clf_cmp 1 (set_flags all_flags task_r0_5)
           (word OP_CLF EXT_NONE ARG_NONE ARG_NONE)
           (upd 1 task_cleared vm_clf_cmp) task_cleared
           (word OP_CMP EXT_NONE (ARG_R 0) ARG_IMM) 5 7
           (upd 1 (set_pc 2 task_cleared) vm_clf_cmp)
           (upd 1 (set_pc 3 task_cleared) vm_clf_cmp)).
  - apply fetches_vm_with; reflexivity.
  - reflexivity.
  - reflexivity.
  - reflexivity.
  - unfold fetches, cur. cbn. repeat split; reflexivity.
  - reflexivity.
  - reflexivity.
  - reflexivity.
Defined.

Lemma push_imm_executes_witness :
  svm_cycle weak_sys_handler vm_pop =
  Ret tt (upd 1
    (set_sp 1
       (set_stack_buffer (7 :: replicate 7 0)
          (set_pc 2 (fresh_task zero_registers)))) vm_pop).
Proof.
  assert (F : fetches vm_pop 1 (fresh_task zero_registers)
                (word OP_PUSH EXT_NONE ARG_IMM ARG_NONE))
    by (apply fetches_vm_with; reflexivity).
  assert (Hsp : 0 <= sp (fresh_task zero_registers)) by (cbn; lia).
  apply (proj1 (proj2 (push_imm_executes weak_sys_handler vm_pop 1
                         (fresh_task zero_registers)
                         (word OP_PUSH EXT_NONE ARG_IMM ARG_NONE) 7
                         F eq_refl eq_refl eq_refl eq_refl Hsp))).
  - reflexivity.
  - reflexivity.
Defined.

Lemma push_beyond_allocation_witness :
  svm_cycle weak_sys_handler vm_push_ninth = Undefined.
Proof.
  apply (push_beyond_allocation weak_sys_handler vm_push_ninth 1
           (set_sp 8 (fresh_task zero_registers))
           (word OP_PUSH EXT_NONE ARG_IMM ARG_NONE) 7
           (code_of []) 0 zero_registers zero_junk zero_junk).
  - apply fetches_vm_with; reflexivity.
  - reflexivity.
  - reflexivity.
  - reflexivity.
  - reflexivity.
  - reflexivity.
  - cbn. lia.
  - apply Z.leb_le. reflexivity.
  - reflexivity.
Defined.

Lemma chain_vm_two_tasks :
  chain (tasks vm_two_tasks) (task_head vm_two_tasks) [1%positive; 2%positive].
Proof.
  cbn. split; [reflexivity|]. eexists. split; [reflexivity|].
  split; [reflexivity|]. eexists. split; reflexivity.
Defined.

Lemma svm_task_switch_round_robin_witness :
  svm_task_switches 2 vm_two_tasks = Ret tt vm_two_tasks.
Proof.
  apply (proj2 (svm_task_switch_round_robin vm_two_tasks
                  [1%positive; 2%positive] 0 1%positive
                  eq_refl chain_vm_two_tasks eq_refl eq_refl)).
Defined.

Lemma svm_task_create_appends_witness :
  exists vm',
    svm_task_create 2 (Some 3%positive) 0 zero_registers zero_junk zero_junk
      vm_two_tasks = Some (Ret tt vm') /\
    chain (tasks vm') (task_head vm') [1%positive; 2%positive; 3%positive].
Proof.
  destruct (svm_task_create_appends vm_two_tasks [1%positive; 2%positive]
              3%positive 0 zero_registers zero_junk zero_junk
              chain_vm_two_tasks eq_refl) as (vm' & Hc & Hl & _).
  exists vm'. split; [apply Hc; cbn; lia | exact Hl].
Defined.

Lemma svm_task_remove_head_chain_witness :
  exists t vm',
    tasks vm_two_tasks !! 1%positive = Some t /\
    svm_task_remove 0 (Some 1%positive) vm_two_tasks = Some (Ret tt vm') /\
    chain (tasks vm') (task_head vm') [2%positive] /\
    task_current vm' = Some 1%positive /\
    tasks vm' !! 1%positive = Some (set_stack_buffer [] (set_call_stack_buffer [] t)).
Proof.
  apply (svm_task_remove_head_chain 0 vm_two_tasks 1%positive [2%positive]
           chain_vm_two_tasks).
Defined.

Lemma initialized_vm_initialized : initialized vm_initialized.
Proof. repeat split. Defined.

Lemma svm_load_starts_first_task_witness :
  exists vm',
    svm_load 0 (code_of [word OP_END EXT_NONE ARG_NONE ARG_NONE]) (Some 1%positive)
      zero_junk zero_junk vm_initialized = Some (Ret tt vm') /\
    running vm' = true /\
    code vm' = code_of [word OP_END EXT_NONE ARG_NONE ARG_NONE] /\
    chain (tasks vm') (task_head vm') [1%positive] /\
    cur vm' 1
      (svm_task_init (code_of [word OP_END EXT_NONE ARG_NONE ARG_NONE]) 0
         (replicate 16 0) zero_junk zero_junk) /\
    task_switch_block vm' = false.
Proof.
  apply (proj1 (svm_load_starts_first_task 0
                  (code_of [word OP_END EXT_NONE ARG_NONE ARG_NONE])
                  zero_junk zero_junk vm_initialized initialized_vm_initialized)).
Defined.

Lemma failed_cycle_keeps_task_witness :
  exists t',
    cur (upd 1 (set_pc 1 (fresh_task zero_registers)) vm_op20) 1 t' /\
    registers t' = zero_registers /\ flags t' = no_flags /\
    sp t' = 0 /\ stack t' = stack (fresh_task zero_registers) /\ next t' = None /\
    (SVM_ERR_UNKNOWN_INSTRUCTION <> SVM_ERR_JMP_OVERFLOW ->
     rpc t' = 0 /\ call_stack t' = call_stack (fresh_task zero_registers)) /\
    (running (upd 1 (set_pc 1 (fresh_task zero_registers)) vm_op20) = running vm_op20 \/
     SVM_ERR_UNKNOWN_INSTRUCTION = SVM_ERR_CODE_OVERFLOW /\
     running (upd 1 (set_pc 1 (fresh_task zero_registers)) vm_op20) = false).
Proof.
  apply (failed_cycle_keeps_task weak_sys_handler vm_op20 1
           (fresh_task zero_registers) SVM_ERR_UNKNOWN_INSTRUCTION
           (upd 1 (set_pc 1 (fresh_task zero_registers)) vm_op20)).
  - split; reflexivity.
  - reflexivity.
Defined.

Lemma svm_asm_next_token_token_witness :
  c_string_at (drop 0 (<[3%nat := NUL]> (source_buffer "ret end"))) =
  take 3 (drop 0 (source_buffer "ret end")).
Proof.
  apply (svm_asm_next_token_token (source_buffer "ret end") 0 7 0
           (<[3%nat := NUL]> (source_buffer "ret end")) 4 eq_refl).
Defined.

Lemma rollback_then_next_token_witness :
  exists buf2,
    svm_asm_rollback_token 0 (<[3%nat := NUL]> (source_buffer "ret end")) 4 =
      Some (buf2, 0%nat) /\
    buf2 = <[pred 4 := " "%char]> (source_buffer "ret end") /\
    svm_asm_next_token buf2 0 7 =
      Tok 0 (<[3%nat := NUL]> (source_buffer "ret end")) 4.
Proof.
  apply (rollback_then_next_token (source_buffer "ret end") 0 7 0
           (<[3%nat := NUL]> (source_buffer "ret end")) 4 eq_refl).
  - lia.
  - lia.
Defined.

Lemma svm_to_int32_decimal_witness : svm_to_int32 "120" = (true, 120).
Proof.
  apply (svm_to_int32_decimal "120" 120).
  - repeat constructor.
  - reflexivity.
  - lia.
Defined.

Lemma sys_executes_witness :
  exists p,
    upd 1 (set_pc 2 (fresh_task zero_registers)) vm_sys =
      upd 1 (set_pc p (fresh_task zero_registers)) vm_sys /\
    svm_cycle weak_sys_handler vm_sys =
    Ret tt (upd 1 (set_registers zero_registers (set_pc p (fresh_task zero_registers)))
              (set_ctx tt vm_sys)).
Proof.
  apply (sys_executes weak_sys_handler vm_sys 1 (fresh_task zero_registers)
           (word OP_SYS EXT_EQ ARG_IMM ARG_NONE) 1
           (upd 1 (set_pc 2 (fresh_task zero_registers)) vm_sys)).
  - apply fetches_vm_with; reflexivity.
  - reflexivity.
  - reflexivity.
Defined.

Lemma div_and_shift_unchecked_witness :
  svm_cycle weak_sys_handler vm_div_zero = Undefined.
Proof.
  apply (div_and_shift_unchecked weak_sys_handler vm_div_zero 1 task_r0_5
           (word OP_DIV EXT_NONE (ARG_R 0) ARG_IMM) OP_DIV alu_div 0 0
           (upd 1 (set_pc 2 task_r0_5) vm_div_zero) 5).
  - apply fetches_vm_with; reflexivity.
  - reflexivity.
  - reflexivity.
  - reflexivity.
  - reflexivity.
  - lia.
  - reflexivity.
  - reflexivity.
  - left. split; [reflexivity | left; reflexivity].
Defined.
